(** * The restaurant directory controller (controller.py)

    A shallow embedding of [Controller]: the in-memory result set, the
    current selection and the MongoDB collection it talks to, with the
    Python and MongoDB primitives the controller relies on written out.

    Conventions.
    - A Python [float] is an IEEE binary64 number: [PrimFloat.float].
    - A Python [str] is a [string]: the sequence of its characters, each
      a code point below 256.  Case folding is the ASCII one.
    - A document of the collection is a record with the fields of
      [EMPTY_RSTRT]; a dictionary key that may be absent is an [option].
    - A method is a function from the controller's state to an [outcome]:
      it returns, or it raises with the state it leaves behind. *)

From Stdlib Require Import ZArith List String Ascii Bool Lia.
From Stdlib Require Import DecimalString DecimalPos.
From Stdlib Require Import Sorted Permutation.
From Stdlib Require Import Floats.
Import ListNotations.

Set Warnings "-inexact-float".
Set Implicit Arguments.

Local Open Scope string_scope.
Local Open Scope list_scope.
Local Open Scope Z_scope.

(* ================================================================== *)
(** * Python primitives *)
(* ================================================================== *)

(** The exceptions that can escape a method of the controller. *)
Inductive exn : Type :=
| IndexError
| KeyError
| ValueError
| TypeError
| OverflowError
| DuplicateKeyError
| OperationFailure.

Inductive outcome (S : Type) : Type :=
| Return (s : S)
| Raise (e : exn) (s : S).

Arguments Return {S} s.
Arguments Raise {S} e s.

(** The state a method leaves behind, whether it returned or raised. *)
Definition final {S : Type} (o : outcome S) : S :=
  match o with
  | Return s => s
  | Raise _ s => s
  end.

Definition returned {S : Type} (o : outcome S) : bool :=
  match o with
  | Return _ => true
  | Raise _ _ => false
  end.

(** [l[i]] for a Python list of length [len]: a negative index counts
    from the end, anything outside [-len, len) is an [IndexError]
    ([None]). *)
Definition py_index (len : nat) (i : Z) : option nat :=
  if 0 <=? i then
    if i <? Z.of_nat len then Some (Z.to_nat i) else None
  else
    if - Z.of_nat len <=? i then Some (Z.to_nat (Z.of_nat len + i)) else None.

Definition py_getitem {A : Type} (l : list A) (i : Z) : option A :=
  match py_index (List.length l) i with
  | Some k => nth_error l k
  | None => None
  end.

(** [del l[i]]. *)
Definition py_delitem {A : Type} (l : list A) (i : Z) : option (list A) :=
  match py_index (List.length l) i with
  | Some k => Some (firstn k l ++ skipn (S k) l)
  | None => None
  end.

(** [l.insert(0, x)]. *)
Definition py_insert0 {A : Type} (x : A) (l : list A) : list A := x :: l.

(** Truth value of a number: zero (of either sign) is false, everything
    else, a NaN included, is true. *)
Definition float_truthy (x : float) : bool := negb (PrimFloat.eqb x 0%float).

(** Truth value of [None] or a number. *)
Definition truthy (x : option float) : bool :=
  match x with
  | None => false
  | Some v => float_truthy v
  end.

(** ** [int(s)] and [str(n)] *)

Definition is_digit (c : ascii) : bool :=
  ((48 <=? nat_of_ascii c) && (nat_of_ascii c <=? 57))%nat.

Definition digit_val (c : ascii) : Z := Z.of_nat (nat_of_ascii c) - 48.

(** The characters [int] skips at both ends of its argument: the six of
    C's [isspace], and the two white-space characters above 127, which
    [int] turns into spaces before it reads the number.  (The separators
    [\x1c] to [\x1f], white space for [str.strip], are not among them.) *)
Definition is_space (c : ascii) : bool :=
  let n := nat_of_ascii c in
  ((n =? 32) || ((9 <=? n) && (n <=? 13)) || (n =? 133) || (n =? 160))%nat.

Fixpoint lstrip (s : list ascii) : list ascii :=
  match s with
  | c :: s' => if is_space c then lstrip s' else s
  | [] => []
  end.

Definition strip (s : list ascii) : list ascii :=
  rev (lstrip (rev (lstrip s))).

(** Digits after the first one; a single underscore may separate two
    digits. *)
Fixpoint int_digits (acc : Z) (s : list ascii) : option Z :=
  match s with
  | [] => Some acc
  | c :: s' =>
      if is_digit c then int_digits (10 * acc + digit_val c) s'
      else if Ascii.eqb c "_" then
        match s' with
        | d :: _ => if is_digit d then int_digits acc s' else None
        | [] => None
        end
      else None
  end.

Definition int_unsigned (s : list ascii) : option Z :=
  match s with
  | c :: s' => if is_digit c then int_digits (digit_val c) s' else None
  | [] => None
  end.

(** [int(s)]: surrounding white space, an optional sign, decimal digits.
    [None] is the [ValueError]. *)
Definition py_int (s : string) : option Z :=
  match strip (list_ascii_of_string s) with
  | "-"%char :: s' => option_map Z.opp (int_unsigned s')
  | "+"%char :: s' => int_unsigned s'
  | s' => int_unsigned s'
  end.

(** [str(n)] for an integer. *)
Definition py_str (n : Z) : string := NilZero.string_of_int (Z.to_int n).

(* ================================================================== *)
(** * Documents *)
(* ================================================================== *)

(** [address.coord]: [null], or a list whose items are numbers or
    [null] ([[lng, lat]], [[None, None]] in [EMPTY_RSTRT], [[]]). *)
Definition pycoord : Type := option (list (option float)).

Record address : Type := mkAddress {
  building : string;
  coord : pycoord;
  street : string;
  zipcode : string
}.

(** One item of [grades]; [date] is a number of milliseconds. *)
Record grade_t : Type := mkGrade {
  grade : string;
  score : Z;
  date : Z
}.

(** A document of the collection [restaurants]. *)
Record restaurant : Type := mkRestaurant {
  r_address : address;
  borough : string;
  cuisine : string;
  grades : list grade_t;
  name : string;
  restaurant_id : string
}.

(** [Controller.EMPTY_RSTRT]. *)
Definition EMPTY_RSTRT : restaurant :=
  {| r_address := {| building := ""; coord := Some [None; None];
                     street := ""; zipcode := "" |};
     borough := "";
     cuisine := "";
     grades := [];
     name := "";
     restaurant_id := "" |}.

Definition set_address (a : address) (r : restaurant) : restaurant :=
  {| r_address := a; borough := borough r; cuisine := cuisine r;
     grades := grades r; name := name r; restaurant_id := restaurant_id r |}.

Definition set_coord (c : pycoord) (a : address) : address :=
  {| building := building a; coord := c; street := street a;
     zipcode := zipcode a |}.

Definition set_grades (g : list grade_t) (r : restaurant) : restaurant :=
  {| r_address := r_address r; borough := borough r; cuisine := cuisine r;
     grades := g; name := name r; restaurant_id := restaurant_id r |}.

Definition set_name (n : string) (r : restaurant) : restaurant :=
  {| r_address := r_address r; borough := borough r; cuisine := cuisine r;
     grades := grades r; name := n; restaurant_id := restaurant_id r |}.

Definition set_restaurant_id (i : string) (r : restaurant) : restaurant :=
  {| r_address := r_address r; borough := borough r; cuisine := cuisine r;
     grades := grades r; name := name r; restaurant_id := i |}.

(** An item of [filtered_rstrts]: a dictionary with the keys
    [restaurant_id] and [name], the projected [address] (only its
    [coord]) until [update_rstrts] deletes it, and [dist] once it has
    been set.  The item [new_rstrt] prepends is the whole new document:
    its further keys ([borough], [cuisine], [grades], the rest of
    [address]) are never read through the result set and are left out. *)
Record entry : Type := mkEntry {
  e_id : string;
  e_name : string;
  e_address : option pycoord;
  e_dist : option float
}.

Definition set_dist (d : float) (e : entry) : entry :=
  {| e_id := e_id e; e_name := e_name e; e_address := e_address e;
     e_dist := Some d |}.

Definition del_address (e : entry) : entry :=
  {| e_id := e_id e; e_name := e_name e; e_address := None;
     e_dist := e_dist e |}.

(** The dictionary [new_rstrt] puts into the result set for a document. *)
Definition entry_of_document (r : restaurant) : entry :=
  {| e_id := restaurant_id r; e_name := name r;
     e_address := Some (coord (r_address r)); e_dist := None |}.

(* ================================================================== *)
(** * Regular expressions of the store's [$regex] operator *)
(* ================================================================== *)

(** The store matches a [$regex] with PCRE.  The fragment written out
    here: literal characters, [.], groups, [|], and one of [*], [+], [?]
    after an item, over 7-bit text.  A pattern of the fragment whose
    parentheses do not match is one the store refuses.  A pattern or a
    subject outside the fragment is not given a meaning. *)
Inductive regex : Type :=
| Void
| Eps
| Chr (c : ascii)
| Dot
| Cat (r1 r2 : regex)
| Alt (r1 r2 : regex)
| Star (r : regex).

Definition lower (c : ascii) : ascii :=
  let n := nat_of_ascii c in
  if ((65 <=? n) && (n <=? 90))%nat then ascii_of_nat (n + 32) else c.

(** Equality of characters under the option [i]. *)
Definition chr_eq_i (a b : ascii) : bool := Ascii.eqb (lower a) (lower b).

Definition newline : ascii := ascii_of_nat 10.

(** [.] matches every character but the newline. *)
Definition dot_matches (c : ascii) : bool := negb (Ascii.eqb c newline).

Fixpoint nullable (r : regex) : bool :=
  match r with
  | Void => false
  | Eps => true
  | Chr _ => false
  | Dot => false
  | Cat r1 r2 => nullable r1 && nullable r2
  | Alt r1 r2 => nullable r1 || nullable r2
  | Star _ => true
  end.

(** What is left of [r] to match after reading [c]. *)
Fixpoint deriv (c : ascii) (r : regex) : regex :=
  match r with
  | Void => Void
  | Eps => Void
  | Chr a => if chr_eq_i a c then Eps else Void
  | Dot => if dot_matches c then Eps else Void
  | Cat r1 r2 =>
      if nullable r1 then Alt (Cat (deriv c r1) r2) (deriv c r2)
      else Cat (deriv c r1) r2
  | Alt r1 r2 => Alt (deriv c r1) (deriv c r2)
  | Star r1 => Cat (deriv c r1) (Star r1)
  end.

(** Does [r] match a prefix of [s]? *)
Fixpoint match_prefix (r : regex) (s : list ascii) : bool :=
  nullable r ||
  match s with
  | [] => false
  | c :: s' => match_prefix (deriv c r) s'
  end.

(** Does [r] match somewhere in [s]?  ([$regex] is not anchored.) *)
Fixpoint search (r : regex) (s : list ascii) : bool :=
  match_prefix r s ||
  match s with
  | [] => false
  | _ :: s' => search r s'
  end.

(** ** Reading a pattern *)

Definition is_special (c : ascii) : bool :=
  existsb (Ascii.eqb c)
    (list_ascii_of_string "\^$.[]|()?*+{}").

(** A 7-bit character other than NUL. *)
Definition is_ascii7 (c : ascii) : bool :=
  ((1 <=? nat_of_ascii c) && (nat_of_ascii c <? 128))%nat.

(** A group being read: the alternatives already closed by a [|], the
    items of the current alternative, both latest first, and whether the
    latest item already carries a quantifier. *)
Record frame : Type := mkFrame {
  alts : list regex;
  items : list regex;
  quantified : bool
}.

Definition empty_frame : frame :=
  {| alts := []; items := []; quantified := false |}.

Definition cat_list (l : list regex) : regex := fold_right Cat Eps l.
Definition alt_list (l : list regex) : regex := fold_right Alt Void l.

Definition close_frame (f : frame) : regex :=
  alt_list (rev (cat_list (rev (items f)) :: alts f)).

Definition push_item (r : regex) (f : frame) : frame :=
  {| alts := alts f; items := r :: items f; quantified := false |}.

Definition next_alternative (f : frame) : frame :=
  {| alts := cat_list (rev (items f)) :: alts f; items := [];
     quantified := false |}.

Definition apply_quantifier (q : ascii) (r : regex) : regex :=
  if Ascii.eqb q "*" then Star r
  else if Ascii.eqb q "+" then Cat r (Star r)
  else Alt Eps r.

Definition quantify (q : ascii) (f : frame) : option frame :=
  match items f with
  | r :: rest =>
      if quantified f then None
      else Some {| alts := alts f; items := apply_quantifier q r :: rest;
                   quantified := true |}
  | [] => None
  end.

(** What reading a pattern gives: the expression; [Refused], for a
    pattern read to the place where a group is left open or a [)] closes
    nothing, which PCRE does not compile; [Unread], for a pattern that
    leaves the fragment (a quantifier with nothing before it, as after
    an opening parenthesis, or after another quantifier; a class, a
    brace, an anchor, an escaped letter). *)
Inductive parsed : Type :=
| Parsed (r : regex)
| Refused
| Unread.

Fixpoint parse_loop (cur : frame) (stack : list frame) (s : list ascii)
  : parsed :=
  match s with
  | [] =>
      match stack with
      | [] => Parsed (close_frame cur)
      | _ :: _ => Refused
      end
  | c :: s' =>
      if Ascii.eqb c "(" then parse_loop empty_frame (cur :: stack) s'
      else if Ascii.eqb c ")" then
        match stack with
        | parent :: stack' =>
            parse_loop (push_item (close_frame cur) parent) stack' s'
        | [] => Refused
        end
      else if Ascii.eqb c "|" then parse_loop (next_alternative cur) stack s'
      else if Ascii.eqb c "*" || Ascii.eqb c "+" || Ascii.eqb c "?" then
        match quantify c cur with
        | Some cur' => parse_loop cur' stack s'
        | None => Unread
        end
      else if Ascii.eqb c "." then parse_loop (push_item Dot cur) stack s'
      else if Ascii.eqb c "\" then
        match s' with
        | d :: s'' =>
            if is_special d then parse_loop (push_item (Chr d) cur) stack s''
            else Unread
        | [] => Unread
        end
      else if is_special c then Unread
      else parse_loop (push_item (Chr c) cur) stack s'
  end.

(** A pattern is read when its characters are 7-bit. *)
Definition parse_regex (p : list ascii) : parsed :=
  if forallb is_ascii7 p then parse_loop empty_frame [] p else Unread.

(** [{"$regex": pattern, "$options": "$i"}] applied to a string field:
    the only option letter in ["$i"] is [i].  [None] where the answer of
    the store is not written out here: the pattern is not read as an
    expression (the store may match it or refuse it), or the field has
    a character that is not 7-bit. *)
Definition regex_search_i (pattern subject : string) : option bool :=
  let s := list_ascii_of_string subject in
  match parse_regex (list_ascii_of_string pattern) with
  | Parsed r => if forallb is_ascii7 s then Some (search r s) else None
  | Refused | Unread => None
  end.



(* ================================================================== *)
(** * The collection [restaurants] *)
(* ================================================================== *)

(** The documents in their natural order, and whether the unique index
    on [restaurant_id] that [connect] creates for a new database is in
    place. *)
Record collection : Type := mkCollection {
  documents : list restaurant;
  unique_index : bool
}.

Definition with_documents (l : list restaurant) (col : collection)
  : collection :=
  {| documents := l; unique_index := unique_index col |}.

Definition has_id (rid : string) (d : restaurant) : bool :=
  String.eqb (restaurant_id d) rid.

(** [find({'restaurant_id': rid})]. *)
Definition find_by_id (rid : string) (col : collection) : list restaurant :=
  filter (has_id rid) (documents col).

(** The filter of [find]: for each field the source of a [$regex] with
    the options ["$i"], when the field is constrained. *)
Record query : Type := mkQuery {
  q_name : option string;
  q_borough : option string;
  q_street : option string;
  q_zipcode : option string
}.

Definition option_and (a b : option bool) : option bool :=
  match a, b with
  | Some x, Some y => Some (x && y)
  | _, _ => None
  end.

Definition field_matches (pattern : option string) (value : string)
  : option bool :=
  match pattern with
  | None => Some true
  | Some p => regex_search_i p value
  end.

(** The fields of a filter are joined by a conjunction. *)
Definition doc_matches (q : query) (d : restaurant) : option bool :=
  option_and (field_matches (q_name q) (name d))
    (option_and (field_matches (q_borough q) (borough d))
       (option_and (field_matches (q_street q) (street (r_address d)))
          (field_matches (q_zipcode q) (zipcode (r_address d))))).

Fixpoint filter_opt {A : Type} (f : A -> option bool) (l : list A)
  : option (list A) :=
  match l with
  | [] => Some []
  | x :: l' =>
      match f x, filter_opt f l' with
      | Some b, Some r => Some (if b then x :: r else r)
      | _, _ => None
      end
  end.

Definition pattern_ok (pattern : option string) : bool :=
  match pattern with
  | None => true
  | Some p =>
      match parse_regex (list_ascii_of_string p) with
      | Parsed _ => true
      | Refused | Unread => false
      end
  end.

(** The store refuses the pattern. *)
Definition pattern_refused (pattern : option string) : bool :=
  match pattern with
  | None => false
  | Some p =>
      match parse_regex (list_ascii_of_string p) with
      | Refused => true
      | Parsed _ | Unread => false
      end
  end.

(** The store refuses a filter when it refuses one of its patterns,
    whatever the collection holds. *)
Definition query_refused (q : query) : bool :=
  pattern_refused (q_name q) || pattern_refused (q_borough q)
  || pattern_refused (q_street q) || pattern_refused (q_zipcode q).

(** [find(q, projection)] before the projection, for a filter the store
    accepts: the documents that satisfy [q], in natural order; [None]
    when a pattern is not read as an expression or a field it is applied
    to is outside the fragment of [regex]. *)
Definition mongo_find (q : query) (col : collection)
  : option (list restaurant) :=
  if pattern_ok (q_name q) && pattern_ok (q_borough q)
     && pattern_ok (q_street q) && pattern_ok (q_zipcode q)
  then filter_opt (doc_matches q) (documents col)
  else None.

(** The projection [{"name": 1, "restaurant_id": 1, "address.coord": 1}]
    of a document: a dictionary with [name], [restaurant_id] and an
    [address] that holds [coord] alone. *)
Definition projection (d : restaurant) : entry :=
  {| e_id := restaurant_id d; e_name := name d;
     e_address := Some (coord (r_address d)); e_dist := None |}.

(** [update_one({"restaurant_id": rid}, u)]: [u] is applied to the first
    document with that id, if there is one. *)
Fixpoint update_first (rid : string) (u : restaurant -> restaurant)
  (l : list restaurant) : list restaurant :=
  match l with
  | [] => []
  | d :: l' =>
      if has_id rid d then u d :: l' else d :: update_first rid u l'
  end.

Definition update_one (rid : string) (u : restaurant -> restaurant)
  (col : collection) : collection :=
  with_documents (update_first rid u (documents col)) col.

Definition id_in (ids : list string) (rid : string) : bool :=
  existsb (String.eqb rid) ids.

(** [delete_many({"restaurant_id": {"$in": ids}})]. *)
Definition delete_many_in (ids : list string) (col : collection)
  : collection :=
  with_documents
    (filter (fun d => negb (id_in ids (restaurant_id d))) (documents col))
    col.

(** [insert(d)], as PyMongo 3 has it: refused ([None], a
    [DuplicateKeyError]) when the unique index is in place and a
    document already has the id of [d]. *)
Definition mongo_insert (d : restaurant) (col : collection)
  : option collection :=
  if unique_index col && existsb (has_id (restaurant_id d)) (documents col)
  then None
  else Some (with_documents (documents col ++ [d]) col).

(** [find_one(sort=[('restaurant_id', -1)])]: a document whose id is the
    greatest in the order of the store, which compares strings byte by
    byte; [None] on an empty collection. *)
Definition find_one_max_id (col : collection) : option restaurant :=
  fold_left
    (fun acc d =>
       match acc with
       | None => Some d
       | Some m =>
           if String.ltb (restaurant_id m) (restaurant_id d) then Some d
           else acc
       end)
    (documents col) None.

(** [{"$unset": {"grades.<index>": 1}}] followed by
    [{"$pull": {"grades": None}}] on a list of grades without nulls: the
    item at [index] becomes null and is pulled; a path that names no item
    of the array leaves it as it is. *)
Definition unset_pull (index : Z) (g : list grade_t) : list grade_t :=
  if (0 <=? index) && (index <? Z.of_nat (List.length g))
  then firstn (Z.to_nat index) g ++ skipn (S (Z.to_nat index)) g
  else g.

(* ================================================================== *)
(** * The [math] module, [round] and long sorts *)
(* ================================================================== *)

(** What is taken from the platform as it comes.  The functions of the
    C library that [geodistance] calls, and [round(x, ndigits)]: [None]
    is the [ValueError] of a math domain error, for [pow] its
    [OverflowError].  And the order in which [list.sort] leaves 64
    items or more when a key among them is a NaN: it depends on how the
    CPython at hand merges runs, and all that is known of it here is
    that the items are rearranged. *)
Record libm : Type := mkLibm {
  math_sin : float -> option float;
  math_cos : float -> option float;
  math_asin : float -> option float;
  float_pow : float -> float -> option float;
  py_round : float -> Z -> float;
  sort_merging : list (float * entry) -> list (float * entry);
  sort_merging_permutes : forall l, Permutation l (sort_merging l)
}.

(** [math.pi / 180], the factor [math.radians] multiplies by. *)
Definition deg_to_rad : float := (0x1.921fb54442d18p+1 / 180)%float.

Definition math_radians (x : float) : float := (x * deg_to_rad)%float.

(** [math.sqrt]: the correctly rounded square root; a NaN that does not
    come from a NaN is a [ValueError]. *)
Definition math_sqrt (x : float) : option float :=
  let r := PrimFloat.sqrt x in
  if PrimFloat.is_nan r && negb (PrimFloat.is_nan x) then None else Some r.

(** The distance [update_rstrts] and [edit_coord] give to a record
    without a usable coordinate. *)
Definition sentinel : float := 99999.99%float.

(* ================================================================== *)
(** * The controller *)
(* ================================================================== *)

Record Controller : Type := mkController {
  mycol : collection;
  filtered_rstrts : list entry;
  cur_index : option Z;
  cur_rstrt : option restaurant;
  cur_coord : float * float
}.

Definition with_mycol (col : collection) (c : Controller) : Controller :=
  {| mycol := col; filtered_rstrts := filtered_rstrts c;
     cur_index := cur_index c; cur_rstrt := cur_rstrt c;
     cur_coord := cur_coord c |}.

Definition with_filtered (l : list entry) (c : Controller) : Controller :=
  {| mycol := mycol c; filtered_rstrts := l;
     cur_index := cur_index c; cur_rstrt := cur_rstrt c;
     cur_coord := cur_coord c |}.

Definition with_cur_index (i : option Z) (c : Controller) : Controller :=
  {| mycol := mycol c; filtered_rstrts := filtered_rstrts c;
     cur_index := i; cur_rstrt := cur_rstrt c;
     cur_coord := cur_coord c |}.

Definition with_cur_rstrt (r : option restaurant) (c : Controller)
  : Controller :=
  {| mycol := mycol c; filtered_rstrts := filtered_rstrts c;
     cur_index := cur_index c; cur_rstrt := r;
     cur_coord := cur_coord c |}.

(** [__init__], connected to the collection [col]. *)
Definition init (col : collection) : Controller :=
  {| mycol := col; filtered_rstrts := []; cur_index := None;
     cur_rstrt := None; cur_coord := (0%float, 0%float) |}.

(** ** [update_cur_rstrt] *)

Definition update_cur_rstrt (index : option Z) (c : Controller)
  : outcome Controller :=
  let c := with_cur_rstrt None (with_cur_index None c) in
  match index with
  | None => Return c
  | Some i =>
      let c := with_cur_index (Some i) c in
      match py_getitem (filtered_rstrts c) i with
      | None => Raise IndexError c
      | Some e =>
          match find_by_id (e_id e) (mycol c) with
          | [] => Raise IndexError c
          | r :: _ => Return (with_cur_rstrt (Some r) c)
          end
      end
  end.

(** ** [edit_info] *)

(** The top-level string fields of a document, as keys of the
    dictionary [edit_info] is given. *)
Inductive info_key : Type :=
| KName
| KCuisine
| KBorough
| KRestaurantId.

Definition set_field (k : info_key) (v : string) (r : restaurant)
  : restaurant :=
  match k with
  | KName => set_name v r
  | KCuisine =>
      {| r_address := r_address r; borough := borough r; cuisine := v;
         grades := grades r; name := name r;
         restaurant_id := restaurant_id r |}
  | KBorough =>
      {| r_address := r_address r; borough := v; cuisine := cuisine r;
         grades := grades r; name := name r;
         restaurant_id := restaurant_id r |}
  | KRestaurantId => set_restaurant_id v r
  end.

(** [{'$set': docs}] and [dict.update(docs)]. *)
Definition set_fields (docs : list (info_key * string)) (r : restaurant)
  : restaurant :=
  fold_left (fun r kv => set_field (fst kv) (snd kv) r) docs r.

(** The update gives the document with the id [rid] an id that another
    document has: with the unique index in place the store refuses it. *)
Definition id_taken (rid : string) (u : restaurant -> restaurant)
  (col : collection) : bool :=
  match find (has_id rid) (documents col) with
  | Some d =>
      unique_index col
      && negb (String.eqb (restaurant_id (u d)) (restaurant_id d))
      && existsb (has_id (restaurant_id (u d))) (documents col)
  | None => false
  end.

Definition edit_info (docs : list (info_key * string)) (c : Controller)
  : outcome Controller :=
  match cur_rstrt c with
  | None => Return c
  | Some r =>
      if id_taken (restaurant_id r) (set_fields docs) (mycol c)
      then Raise DuplicateKeyError c
      else
        let col :=
          update_one (restaurant_id r) (set_fields docs) (mycol c) in
        Return (with_cur_rstrt (Some (set_fields docs r)) (with_mycol col c))
  end.

(** ** [edit_address] *)

(** The argument of [edit_address]: a dictionary with the three fields
    the address form holds. *)
Record address_fields : Type := mkAddressFields {
  f_building : string;
  f_street : string;
  f_zipcode : string
}.

Definition edit_address (docs : address_fields) (c : Controller)
  : outcome Controller :=
  match cur_rstrt c with
  | None => Return c
  | Some r =>
      let docs :=
        {| building := f_building docs; coord := coord (r_address r);
           street := f_street docs; zipcode := f_zipcode docs |} in
      let col := update_one (restaurant_id r) (set_address docs) (mycol c) in
      Return (with_cur_rstrt (Some (set_address docs r)) (with_mycol col c))
  end.

(** ** [del_all] *)

Definition del_all (c : Controller) : outcome Controller :=
  let col := delete_many_in (map e_id (filtered_rstrts c)) (mycol c) in
  Return (with_cur_rstrt None (with_filtered [] (with_mycol col c))).

(** ** [get_max_id] and [new_rstrt] *)

(** Looking up [restaurant_id] in the [None] that [find_one] answers on
    an empty collection raises, and the handler returns the default. *)
Definition get_max_id (c : Controller) : string :=
  match find_one_max_id (mycol c) with
  | Some rstrt => restaurant_id rstrt
  | None => "100000000"
  end.

Definition new_rstrt (c : Controller) : outcome Controller :=
  let rstrts := filtered_rstrts c in
  let new_r := set_name "untitled" EMPTY_RSTRT in
  match py_int (get_max_id c) with
  | None => Raise ValueError c
  | Some n =>
      let new_r := set_restaurant_id (py_str (n + 1)) new_r in
      let c := with_filtered (py_insert0 (entry_of_document new_r) rstrts) c in
      match mongo_insert new_r (mycol c) with
      | None => Raise DuplicateKeyError c
      | Some col => Return (with_mycol col c)
      end
  end.

(** ** [del_grade] *)

Definition del_grade (index : Z) (c : Controller) : outcome Controller :=
  match cur_rstrt c with
  | None => Return c
  | Some rstrt =>
      let rid := restaurant_id rstrt in
      let col :=
        update_one rid
          (fun d => set_grades (unset_pull index (grades d)) d) (mycol c) in
      let c := with_mycol col c in
      match py_delitem (grades rstrt) index with
      | None => Raise IndexError c
      | Some g => Return (with_cur_rstrt (Some (set_grades g rstrt)) c)
      end
  end.

(** ** Sorting the result set by [dist] *)

(** [l.sort(key=...)] first computes every key, then sorts the items,
    comparing keys by [<] and nothing else.  CPython (up to 3.12) takes
    the run at the front of the list, the longest stretch in which no
    item is below the one before it, or in which every item is below
    the one before it (such a stretch is then reversed), and puts each
    item behind the run into its place by a binary search. *)
Section ListSort.

Context {A : Type}.

Definition key_below (x y : float * A) : bool :=
  PrimFloat.ltb (fst x) (fst y).

(** The number of items behind [prev] that go on a run. *)
Fixpoint run_ascending (prev : float * A) (l : list (float * A)) : nat :=
  match l with
  | x :: l' => if key_below x prev then O else S (run_ascending x l')
  | [] => O
  end.

Fixpoint run_descending (prev : float * A) (l : list (float * A)) : nat :=
  match l with
  | x :: l' => if key_below x prev then S (run_descending x l') else O
  | [] => O
  end.

(** [count_run]: the length of the run at the front, and whether it
    descends. *)
Definition count_run (l : list (float * A)) : nat * bool :=
  match l with
  | x0 :: x1 :: l' =>
      if key_below x1 x0 then (2 + run_descending x1 l', true)%nat
      else (2 + run_ascending x1 l', false)%nat
  | _ => (List.length l, false)
  end.

(** The search of [binarysort] for the place of [pivot] in [a[l:r]]:
    the middle item is compared with the pivot until the stretch is
    empty.  The stretch shrinks at each turn, so [r - l] turns are
    enough. *)
Fixpoint bisect (turns : nat) (pivot : float * A) (a : list (float * A))
  (l r : nat) : nat :=
  match turns with
  | O => l
  | S turns' =>
      if (l <? r)%nat then
        let p := (l + (r - l) / 2)%nat in
        match nth_error a p with
        | Some y =>
            if key_below pivot y then bisect turns' pivot a l p
            else bisect turns' pivot a (S p) r
        | None => l
        end
      else l
  end.

(** One turn of [binarysort]: the next item goes to its place in the
    items before it. *)
Definition binary_insert (a : list (float * A)) (pivot : float * A)
  : list (float * A) :=
  let p := bisect (List.length a) pivot a 0 (List.length a) in
  firstn p a ++ pivot :: skipn p a.

Definition binarysort (l : list (float * A)) : list (float * A) :=
  let (n, descending) := count_run l in
  let run := firstn n l in
  fold_left binary_insert (skipn n l) (if descending then rev run else run).

Definition nan_free (l : list (float * A)) : bool :=
  forallb (fun x => negb (PrimFloat.is_nan (fst x))) l.

(** Fewer than 64 items are sorted by [binarysort], and so is a list
    that is one run.  From 64 items on CPython cuts the list into runs,
    has them sorted so, and merges them: when [<] orders the keys (no
    NaN among them) the outcome is the one list in which the keys ascend
    and items with equal keys keep their order, which is what
    [binarysort] gives as well. *)
Definition binarysort_applies (l : list (float * A)) : bool :=
  (List.length l <? 64)%nat
  || (fst (count_run l) =? List.length l)%nat
  || nan_free l.

End ListSort.

(** The keys [r['dist']]; [None] is the [KeyError] of an item without
    [dist]. *)
Fixpoint dist_keys (l : list entry) : option (list (float * entry)) :=
  match l with
  | [] => Some []
  | e :: l' =>
      match e_dist e, dist_keys l' with
      | Some d, Some r => Some ((d, e) :: r)
      | _, _ => None
      end
  end.

Section Distance.

Variable M : libm.

Definition list_sort (l : list (float * entry)) : list (float * entry) :=
  if binarysort_applies l then binarysort l else sort_merging M l.

(** [l.sort(key=lambda r: r['dist'])]; a list whose sort raises is left
    as it was. *)
Definition sort_by_dist (l : list entry) : option (list entry) :=
  match dist_keys l with
  | Some kl => Some (map snd (list_sort kl))
  | None => None
  end.

Local Notation "x <- e ;; k" :=
  (match e with inl x => k | inr err => inr err end)
  (at level 60, e at next level, right associativity).

(** ** [geodistance] *)

(** [float(x)] for [None] or a number. *)
Definition py_float (x : option float) : float + exn :=
  match x with
  | Some v => inl v
  | None => inr TypeError
  end.

Definition domain (r : option float) : float + exn :=
  match r with
  | Some v => inl v
  | None => inr ValueError
  end.

Definition overflow (r : option float) : float + exn :=
  match r with
  | Some v => inl v
  | None => inr OverflowError
  end.

Definition geodistance (lng1 lat1 lng2 lat2 : option float) : float + exn :=
  lng1 <- py_float lng1 ;;
  lat1 <- py_float lat1 ;;
  lng2 <- py_float lng2 ;;
  lat2 <- py_float lat2 ;;
  let lng1 := math_radians lng1 in
  let lat1 := math_radians lat1 in
  let lng2 := math_radians lng2 in
  let lat2 := math_radians lat2 in
  let dlon := (lng2 - lng1)%float in
  let dlat := (lat2 - lat1)%float in
  s1 <- domain (math_sin M (dlat / 2)%float) ;;
  p1 <- overflow (float_pow M s1 2%float) ;;
  c1 <- domain (math_cos M lat1) ;;
  c2 <- domain (math_cos M lat2) ;;
  s2 <- domain (math_sin M (dlon / 2)%float) ;;
  p2 <- overflow (float_pow M s2 2%float) ;;
  let a := (p1 + c1 * c2 * p2)%float in
  q <- domain (math_sqrt a) ;;
  h <- domain (math_asin M q) ;;
  let distance := (2 * h * 6371 * 1000)%float in
  let distance := py_round M (distance / 1000)%float 3 in
  inl distance.

(** The distance the loop of [update_rstrts] gives to a record whose
    [address.coord] is [coord]: the test is
    [coord and coord[0] and coord[1]], and reading [coord[1]] in a list
    of one item is an [IndexError]. *)
Definition dist_of_coord (coord : pycoord) (ref : float * float)
  : float + exn :=
  match coord with
  | None => inl sentinel
  | Some [] => inl sentinel
  | Some (x :: rest) =>
      if truthy x then
        match rest with
        | [] => inr IndexError
        | y :: _ =>
            if truthy y
            then geodistance x y (Some (fst ref)) (Some (snd ref))
            else inl sentinel
        end
      else inl sentinel
  end.

(** ** [update_rstrts] *)

(** The argument of [update_rstrts]: a dictionary in which each of the
    four keys is absent or holds a string. *)
Record condition : Type := mkCondition {
  c_name : option string;
  c_borough : option string;
  c_street : option string;
  c_zipcode : option string
}.

(** The filter entry for one key of the condition. *)
Definition constraint_of (v : option string) : option string :=
  match v with
  | Some t =>
      if String.eqb t "" then None
      else Some ("(.*)(" ++ t ++ ")(.*)")%string
  | None => None
  end.

Definition query_of (cond : condition) : query :=
  {| q_name := constraint_of (c_name cond);
     q_borough := constraint_of (c_borough cond);
     q_street := constraint_of (c_street cond);
     q_zipcode := constraint_of (c_zipcode cond) |}.

(** The loop over the fresh result set; when an item makes it raise,
    the items before it are done and the item has lost its [address]. *)
Fixpoint set_distances (ref : float * float) (l : list entry)
  : outcome (list entry) :=
  match l with
  | [] => Return []
  | rstrt :: l' =>
      match e_address rstrt with
      | None => Raise KeyError l
      | Some coord =>
          let rstrt := del_address rstrt in
          match dist_of_coord coord ref with
          | inr x => Raise x (rstrt :: l')
          | inl d =>
              match set_distances ref l' with
              | Return r => Return (set_dist d rstrt :: r)
              | Raise x r => Raise x (set_dist d rstrt :: r)
              end
          end
      end
  end.

(** The method from the assignment of the result set on, when the
    store has answered with the documents [found]. *)
Definition update_rstrts_found (found : list restaurant) (c : Controller)
  : outcome Controller :=
  let c := with_filtered (map projection found) c in
  match set_distances (cur_coord c) (filtered_rstrts c) with
  | Raise x l => Raise x (with_filtered l c)
  | Return l =>
      let c := with_filtered l c in
      match sort_by_dist l with
      | Some l' => Return (with_filtered l' c)
      | None => Raise KeyError c
      end
  end.

(** A filter the store refuses makes [find] raise when the cursor is
    read, before the result set is assigned.  [None]: the condition
    leads outside the fragment of [regex]. *)
Definition update_rstrts (cond : condition) (c : Controller)
  : option (outcome Controller) :=
  if query_refused (query_of cond) then Some (Raise OperationFailure c)
  else
    match mongo_find (query_of cond) (mycol c) with
    | None => None
    | Some found => Some (update_rstrts_found found c)
    end.

(** ** [edit_coord] *)

Inductive patch : Type :=
| Patched (l : list entry)
| PatchRaised (x : exn)
| NoMatch.

(** The loop of [edit_coord]: the first item with the id [rid] gets its
    [dist], and the method returns from inside the loop. *)
Fixpoint patch_dist (rid : string) (lng lat : option float)
  (ref : float * float) (l : list entry) : patch :=
  match l with
  | [] => NoMatch
  | rstrt :: l' =>
      if String.eqb (e_id rstrt) rid then
        if truthy lng && truthy lat then
          match geodistance lng lat (Some (fst ref)) (Some (snd ref)) with
          | inl d => Patched (set_dist d rstrt :: l')
          | inr x => PatchRaised x
          end
        else Patched (set_dist sentinel rstrt :: l')
      else
        match patch_dist rid lng lat ref l' with
        | Patched r => Patched (rstrt :: r)
        | PatchRaised x => PatchRaised x
        | NoMatch => NoMatch
        end
  end.

Definition edit_coord (lng lat : option float) (c : Controller)
  : outcome Controller :=
  match cur_rstrt c with
  | None => Return c
  | Some r =>
      let new_coord : pycoord := Some [lng; lat] in
      let col :=
        update_one (restaurant_id r)
          (fun d => set_address (set_coord new_coord (r_address d)) d)
          (mycol c) in
      let r := set_address (set_coord new_coord (r_address r)) r in
      let c := with_cur_rstrt (Some r) (with_mycol col c) in
      match patch_dist (restaurant_id r) lng lat (cur_coord c)
              (filtered_rstrts c) with
      | Patched l => Return (with_filtered l c)
      | PatchRaised x => Raise x c
      | NoMatch =>
          match sort_by_dist (filtered_rstrts c) with
          | Some l => Return (with_filtered l c)
          | None => Raise KeyError c
          end
      end
  end.

End Distance.


(* ================================================================== *)
(** * Notions used in the statements *)
(* ================================================================== *)

(** ** Runs *)

(** Running one method after another; a method that raises ends the
    run. *)
Definition and_then {S : Type} (o : outcome S) (f : S -> outcome S)
  : outcome S :=
  match o with
  | Return s => f s
  | Raise x s => Raise x s
  end.

(** ** The result set *)

(** The condition [{}]: no key at all. *)
Definition no_condition : condition :=
  {| c_name := None; c_borough := None; c_street := None;
     c_zipcode := None |}.

Definition name_is (t : string) : condition :=
  {| c_name := Some t; c_borough := None; c_street := None;
     c_zipcode := None |}.

Definition has_dist (e : entry) : bool :=
  match e_dist e with
  | Some _ => true
  | None => false
  end.

(** [e1] is listed with a distance that is at most the distance of
    [e2]. *)
Definition dist_le (e1 e2 : entry) : Prop :=
  match e_dist e1, e_dist e2 with
  | Some a, Some b => PrimFloat.leb a b = true
  | _, _ => False
  end.

(** [e] is listed with a distance equal to [d]. *)
Definition dist_is (d : float) (e : entry) : bool :=
  match e_dist e with
  | Some a => PrimFloat.eqb a d
  | None => false
  end.

(** The distance of [e], if it has one, is a number. *)
Definition dist_not_nan (e : entry) : bool :=
  match e_dist e with
  | Some a => negb (PrimFloat.is_nan a)
  | None => true
  end.

(** No entry is listed with a distance below that of an entry before
    it. *)
Definition in_order (l : list entry) : Prop :=
  StronglySorted
    (fun e1 e2 =>
       match e_dist e1, e_dist e2 with
       | Some a, Some b => PrimFloat.ltb b a = false
       | _, _ => False
       end) l.

Definition other_id (rid : string) (e : entry) : bool :=
  negb (String.eqb (e_id e) rid).




(** [None], or a number other than zero. *)
Definition null_or_nonzero (x : option float) : Prop :=
  x = None \/ truthy x = true.

(** [d] with [address.coord] holding [[lng, lat]] and nothing else
    changed. *)
Definition moved (lng lat : option float) (d : restaurant) : restaurant :=
  {| r_address := {| building := building (r_address d);
                     coord := Some [lng; lat];
                     street := street (r_address d);
                     zipcode := zipcode (r_address d) |};
     borough := borough d; cuisine := cuisine d; grades := grades d;
     name := name d; restaurant_id := restaurant_id d |}.

(** [e] listed at the distance [d]. *)
Definition relisted (d : float) (e : entry) : entry :=
  {| e_id := e_id e; e_name := e_name e; e_address := e_address e;
     e_dist := Some d |}.


(** The first document of [l] with the id [rid] is replaced by [u] of
    it, and every document stays in its place. *)
Inductive first_replaced (rid : string) (u : restaurant -> restaurant)
  : list restaurant -> list restaurant -> Prop :=
| replaced_none (l : list restaurant) :
    forallb (fun d => negb (has_id rid d)) l = true ->
    first_replaced rid u l l
| replaced_at (before : list restaurant) (d : restaurant)
    (after : list restaurant) :
    forallb (fun d => negb (has_id rid d)) before = true ->
    has_id rid d = true ->
    first_replaced rid u (before ++ d :: after) (before ++ u d :: after).

(** What [edit_coord lng lat], called with [r] selected in the state
    [c], has done when it ends in [o]. *)
Definition edit_coord_effect (M : libm) (lng lat : option float)
  (c : Controller) (r : restaurant) (o : outcome Controller) : Prop :=
  let rid := restaurant_id r in
  let ref := cur_coord c in
  let l := filtered_rstrts c in
  let l' := filtered_rstrts (final o) in
  (* the collection: [address.coord] of the first document with the id *)
  first_replaced rid (moved lng lat)
    (documents (mycol c)) (documents (mycol (final o)))
  /\ unique_index (mycol (final o)) = unique_index (mycol c)
  (* the selected record: its [address.coord] *)
  /\ cur_rstrt (final o) = Some (moved lng lat r)
  /\ cur_index (final o) = cur_index c
  /\ cur_coord (final o) = cur_coord c
  (* the result set, when [e] is its first entry with the id *)
  /\ (forall before e after,
        l = before ++ e :: after ->
        forallb (other_id rid) before = true ->
        String.eqb (e_id e) rid = true ->
        match lng, lat with
        | Some _, Some _ =>
            match geodistance M lng lat (Some (fst ref)) (Some (snd ref)) with
            | inl d =>
                o = Return (final o) /\ l' = before ++ relisted d e :: after
            | inr x => o = Raise x (final o) /\ l' = l
            end
        | _, _ =>
            o = Return (final o)
            /\ l' = before ++ relisted sentinel e :: after
        end)
  (* the result set, when no entry has the id *)
  /\ (forallb (other_id rid) l = true ->
      (forallb has_dist l = false -> o = Raise KeyError (final o) /\ l' = l)
      /\ (forallb has_dist l = true ->
          o = Return (final o)
          /\ Permutation l l'
          /\ (in_order l -> l' = l)
          /\ (forallb dist_not_nan l = true ->
              StronglySorted dist_le l'
              /\ forall d, filter (dist_is d) l' = filter (dist_is d) l))).

(** The document [new_rstrt] creates under the id [rid]. *)
Definition untitled (rid : string) : restaurant :=
  {| r_address := {| building := ""; coord := Some [None; None];
                     street := ""; zipcode := "" |};
     borough := ""; cuisine := ""; grades := []; name := "untitled";
     restaurant_id := rid |}.

(** ** The order of binary64 numbers *)

(** A binary64 number that is not a NaN, placed in [Z * Z * Z] ordered
    lexicographically: sign class, then exponent, then mantissa. *)
Definition sf_key (f : spec_float) : Z * Z * Z :=
  match f with
  | S754_zero _ => (0, 0, 0)
  | S754_nan => (0, 0, 0)
  | S754_infinity false => (2, 0, 0)
  | S754_infinity true => (-2, 0, 0)
  | S754_finite false m e => (1, e, Z.pos m)
  | S754_finite true m e => (-1, - e, Z.neg m)
  end.

Definition lex3 (a b : Z * Z * Z) : comparison :=
  match fst (fst a) ?= fst (fst b) with
  | Eq =>
      match snd (fst a) ?= snd (fst b) with
      | Eq => snd a ?= snd b
      | o => o
      end
  | o => o
  end.

Definition float_key (x : float) : Z * Z * Z := sf_key (Prim2SF x).

Definition key_lt (a b : Z * Z * Z) : Prop :=
  fst (fst a) < fst (fst b)
  \/ (fst (fst a) = fst (fst b)
      /\ (snd (fst a) < snd (fst b)
          \/ (snd (fst a) = snd (fst b) /\ snd a < snd b))).

(** ** The words a pattern matches *)






(** ** Conditions read as patterns *)




(** ** Conditions read as "contains" *)









(** ** Ids written with the same number of digits *)

Definition digits_value (l : list ascii) : Z :=
  fold_left (fun acc c => 10 * acc + digit_val c) l 0.

(** [s] is made of [k] decimal digits. *)
Definition numeral (k : nat) (s : string) : bool :=
  (String.length s =? k)%nat && forallb is_digit (list_ascii_of_string s).

Definition id_value (d : restaurant) : Z :=
  digits_value (list_ascii_of_string (restaurant_id d)).

(* ================================================================== *)
(** * Sample data *)
(* ================================================================== *)

Definition sample_document (rid nm : string) (c : pycoord) : restaurant :=
  {| r_address := {| building := "1"; coord := c; street := "Main St";
                     zipcode := "10001" |};
     borough := "Queens"; cuisine := "Pizza";
     grades := [ {| grade := "A"; score := 10; date := 1400000000000 |};
                 {| grade := "B"; score := 17; date := 1410000000000 |};
                 {| grade := "C"; score := 30; date := 1420000000000 |} ];
     name := nm; restaurant_id := rid |}.

Definition pizza_place : restaurant :=
  sample_document "30075445" "Pizza Place"
    (Some [Some (-73.98)%float; Some 40.75%float]).

Definition sushi_bar : restaurant :=
  sample_document "30112340" "Sushi Bar" None.

Definition on_the_meridian : restaurant :=
  sample_document "40356018" "Meridian Cafe"
    (Some [Some 0%float; Some 51.48%float]).

Definition sample_collection : collection :=
  {| documents := [pizza_place; sushi_bar]; unique_index := true |}.

(** A result set as a search leaves it, and a selection in it. *)
Definition listed (r : restaurant) (d : float) : entry :=
  {| e_id := restaurant_id r; e_name := name r; e_address := None;
     e_dist := Some d |}.

Definition sample_controller : Controller :=
  {| mycol := sample_collection;
     filtered_rstrts := [listed pizza_place 17.982; listed sushi_bar sentinel];
     cur_index := Some 0;
     cur_rstrt := Some pizza_place;
     cur_coord := ((-73.9)%float, 40.9%float) |}.

(** A stand-in for the math library when a run must not depend on it:
    every function raises.  (In both stand-ins a long sort with a NaN
    key leaves the list as it is; no run below has such a sort.) *)
Definition libm_raising : libm :=
  {| math_sin := fun _ => None; math_cos := fun _ => None;
     math_asin := fun _ => None; float_pow := fun _ _ => None;
     py_round := fun x _ => x;
     sort_merging := fun l => l;
     sort_merging_permutes := fun l => Permutation_refl l |}.

(** A stand-in for the math library in runs that need a distance: the
    small-angle values [sin x = x], [cos x = 1], [asin x = x], the
    square by a product, and no rounding. *)
Definition libm_small_angle : libm :=
  {| math_sin := fun x => Some x; math_cos := fun _ => Some 1%float;
     math_asin := fun x => Some x;
     float_pow := fun x _ => Some (x * x)%float;
     py_round := fun x _ => x;
     sort_merging := fun l => l;
     sort_merging_permutes := fun l => Permutation_refl l |}.

(** A collection in which ids of one and of two digits meet. *)
Definition short_ids : collection :=
  {| documents := [sample_document "9" "Nine" None;
                   sample_document "10" "Ten" None];
     unique_index := true |}.

(** A collection that holds a record created while it was empty (id
    100000001) and a record imported afterwards. *)
Definition created_then_imported : collection :=
  {| documents := [set_restaurant_id "100000001"
                     (set_name "untitled" EMPTY_RSTRT);
                   pizza_place];
     unique_index := true |}.


(** Three records at growing distances from the reference point of
    [sample_controller], and two without a coordinate. *)
Definition five_records : collection :=
  {| documents :=
       [ sample_document "30000003" "Far" (Some [Some (-70)%float; Some 44%float]);
         sample_document "30000004" "Nowhere" None;
         sample_document "30000001" "Near" (Some [Some (-73.9)%float; Some 40.8%float]);
         sample_document "30000005" "Unplaced" (Some [None; None]);
         sample_document "30000002" "Middle" (Some [Some (-73)%float; Some 41%float]) ];
     unique_index := true |}.

Definition five_controller : Controller :=
  {| mycol := five_records; filtered_rstrts := []; cur_index := None;
     cur_rstrt := None; cur_coord := ((-73.9)%float, 40.9%float) |}.

(** The state a search without a condition leaves there, under the
    stand-in math library. *)
Definition five_listed : Controller :=
  Eval vm_compute in
    match update_rstrts libm_small_angle no_condition five_controller with
    | Some (Return c) => c
    | _ => five_controller
    end.

(** Three records, the second with a NaN for its longitude, and a
    controller connected to them. *)
Definition lost_records : collection :=
  {| documents :=
       [ sample_document "30000003" "Far" (Some [Some (-70)%float; Some 44%float]);
         sample_document "30000006" "Lost" (Some [Some nan; Some 41%float]);
         sample_document "30000001" "Near" (Some [Some (-73.9)%float; Some 40.8%float]) ];
     unique_index := true |}.

Definition lost_controller : Controller :=
  {| mycol := lost_records; filtered_rstrts := []; cur_index := None;
     cur_rstrt := None; cur_coord := ((-73.9)%float, 40.9%float) |}.

(** A result set out of order, and a selected record that is not in
    it. *)
Definition out_of_order : Controller :=
  {| mycol := sample_collection;
     filtered_rstrts := [listed pizza_place 17.982; listed sushi_bar 5];
     cur_index := Some 0;
     cur_rstrt := Some on_the_meridian;
     cur_coord := ((-73.9)%float, 40.9%float) |}.

(* ================================================================== *)
(** * The other methods of the controller *)
(* ================================================================== *)

(** ** [del_rstrt] *)

(** [delete_one({"restaurant_id": rid})]: the first document with the
    id goes, if there is one. *)
Fixpoint delete_first (rid : string) (l : list restaurant)
  : list restaurant :=
  match l with
  | [] => []
  | d :: l' => if has_id rid d then l' else d :: delete_first rid l'
  end.

Definition delete_one (rid : string) (col : collection) : collection :=
  with_documents (delete_first rid (documents col)) col.

(** The loop of [del_rstrt]: the first item with the id is deleted from
    the list, and the loop ends there. *)
Fixpoint remove_first_entry (rid : string) (l : list entry) : list entry :=
  match l with
  | [] => []
  | rstrt :: l' =>
      if String.eqb (e_id rstrt) rid then l'
      else rstrt :: remove_first_entry rid l'
  end.

Definition del_rstrt (c : Controller) : outcome Controller :=
  match cur_rstrt c with
  | Some r =>
      let rid := restaurant_id r in
      let c := with_mycol (delete_one rid (mycol c)) c in
      let c := with_filtered (remove_first_entry rid (filtered_rstrts c)) c in
      Return (with_cur_rstrt None c)
  | None => Return c
  end.

(** ** [add_grade] *)

(** [tm] is the value of [int(time.time()*1000)] at the call.  The store
    gets the date as [tm+0.0] and the selected record as [tm]: the same
    number. *)
Definition add_grade (tm : Z) (gr : string) (sc : Z) (c : Controller)
  : outcome Controller :=
  match cur_rstrt c with
  | None => Return c
  | Some rstrt =>
      let g := {| grade := gr; score := sc; date := tm |} in
      let col :=
        update_one (restaurant_id rstrt)
          (fun d => set_grades (grades d ++ [g]) d) (mycol c) in
      let c := with_mycol col c in
      Return (with_cur_rstrt (Some (set_grades (grades rstrt ++ [g]) rstrt)) c)
  end.

(** ** [progress], [init_progress], [close_progress] *)

(** The attribute [progress], kept beside the rest of the state: whether
    the import is done, and the share of the lines it has read. *)
Record Session : Type := mkSession {
  controller : Controller;
  progress : bool * float
}.

Definition with_controller (c : Controller) (s : Session) : Session :=
  {| controller := c; progress := progress s |}.

Definition with_progress (p : bool * float) (s : Session) : Session :=
  {| controller := controller s; progress := p |}.

Definition init_progress (s : Session) : Session :=
  with_progress (false, 0%float) s.

Definition close_progress (s : Session) : Session :=
  with_progress (true, 1%float) s.

(** ** [add_rstrts_from_json] *)

(** What [grade["date"]] holds in a decoded line: [{"$date": ms}] with a
    number, a lookup that misses its key, or anything else. *)
Inductive json_date : Type :=
| DateMillis (ms : Z)
| DateMissing
| DateOther.

Record json_grade : Type := mkJsonGrade {
  j_date : json_date;
  j_grade : string;
  j_score : Z
}.

(** A decoded line: a document whose grades still have their dates
    wrapped. *)
Record json_document : Type := mkJsonDocument {
  j_address : address;
  j_borough : string;
  j_cuisine : string;
  j_grades : list json_grade;
  j_name : string;
  j_restaurant_id : string
}.

(** [grade["date"] = grade["date"]["$date"]+0.0]. *)
Definition unwrap_date (g : json_grade) : grade_t + exn :=
  match j_date g with
  | DateMillis ms => inl {| grade := j_grade g; score := j_score g; date := ms |}
  | DateMissing => inr KeyError
  | DateOther => inr TypeError
  end.

Fixpoint unwrap_dates (l : list json_grade) : list grade_t + exn :=
  match l with
  | [] => inl []
  | g :: l' =>
      match unwrap_date g with
      | inr x => inr x
      | inl g' =>
          match unwrap_dates l' with
          | inr x => inr x
          | inl r => inl (g' :: r)
          end
      end
  end.

Definition document_of_json (j : json_document) : restaurant + exn :=
  match unwrap_dates (j_grades j) with
  | inr x => inr x
  | inl g =>
      inl {| r_address := j_address j; borough := j_borough j;
             cuisine := j_cuisine j; grades := g; name := j_name j;
             restaurant_id := j_restaurant_id j |}
  end.

(** [i/n] for two list positions. *)
Definition float_of_nat (n : nat) : float :=
  PrimFloat.of_uint63 (Uint63.of_Z (Z.of_nat n)).

Definition ratio (i n : nat) : float :=
  (float_of_nat i / float_of_nat n)%float.

(** [insert_many(docs, ordered=False)] inside
    [try: ... except Exception: pass]: every document the store accepts
    is inserted, taken here in the order of the list; a refused
    document, or an empty list, raises, and the handler drops the
    exception. *)
Definition insert_many_unordered (docs : list restaurant) (col : collection)
  : collection :=
  fold_left
    (fun col d =>
       match mongo_insert d col with
       | Some col' => col'
       | None => col
       end)
    docs col.

Section ImportLoop.

(** [json.loads] on a line, for the lines that decode to a document of
    the collection; [None] is its [ValueError]. *)
Variable json_loads : string -> option json_document.

(** One turn of the loop, without the progress: the line is decoded and
    the dates of its grades are unwrapped. *)
Definition decode_line (line : string) : restaurant + exn :=
  match json_loads line with
  | None => inr ValueError
  | Some data => document_of_json data
  end.

(** The loop over the lines: [n] is [len(lines)], [i] the position of
    the first line of [lines], [docs] the documents gathered so far. *)
Fixpoint read_lines (n i : nat) (lines : list string)
  (docs : list restaurant) (s : Session)
  : outcome (list restaurant * Session) :=
  match lines with
  | [] => Return (docs, s)
  | line :: lines' =>
      let s := with_progress (false, ratio i n) s in
      match decode_line line with
      | inr x => Raise x (docs, s)
      | inl data => read_lines n (S i) lines' (docs ++ [data]) s
      end
  end.

(** [lines] is what [read_json_file] returns. *)
Definition add_rstrts_from_json (lines : list string) (s : Session)
  : outcome Session :=
  match read_lines (List.length lines) 0 lines [] s with
  | Raise x (_, s) => Raise x s
  | Return (docs, s) =>
      let col := insert_many_unordered docs (mycol (controller s)) in
      Return (close_progress (with_controller (with_mycol col (controller s)) s))
  end.

End ImportLoop.

(* ================================================================== *)
(** * Notions used in the statements, continued *)
(* ================================================================== *)

(** The selected record is the first document the store has under its
    id. *)
Definition mirrored (c : Controller) : Prop :=
  match cur_rstrt c with
  | Some r => exists rest, find_by_id (restaurant_id r) (mycol c) = r :: rest
  | None => True
  end.

(** The entry at [cur_index] has the id of the selected record. *)
Definition linked (c : Controller) : Prop :=
  match cur_rstrt c with
  | Some r =>
      exists i e,
        cur_index c = Some i
        /\ py_getitem (filtered_rstrts c) i = Some e
        /\ e_id e = restaurant_id r
  | None => True
  end.

(** One method of the controller that edits the selected record. *)
Inductive edit : Type :=
| EditInfo (docs : list (info_key * string))
| EditAddress (docs : address_fields)
| EditCoord (lng lat : option float)
| AddGrade (tm : Z) (gr : string) (sc : Z)
| DelGrade (index : Z)
| DelRstrt.

Definition run_edit (M : libm) (ed : edit) (c : Controller)
  : outcome Controller :=
  match ed with
  | EditInfo docs => edit_info docs c
  | EditAddress docs => edit_address docs c
  | EditCoord lng lat => edit_coord M lng lat c
  | AddGrade tm gr sc => add_grade tm gr sc c
  | DelGrade index => del_grade index c
  | DelRstrt => del_rstrt c
  end.

(** The edit does not write [restaurant_id]. *)
Definition keeps_id (ed : edit) : bool :=
  match ed with
  | EditInfo docs =>
      forallb
        (fun kv =>
           match fst kv with
           | KRestaurantId => false
           | _ => true
           end) docs
  | _ => true
  end.

(** The edit does not write [restaurant_id] and, when it deletes a
    grade, names it by a position counted from the front. *)
Definition keeps_mirror (ed : edit) : bool :=
  keeps_id ed &&
  match ed with
  | DelGrade index => 0 <=? index
  | _ => true
  end.

(** No two documents of the collection have the same id. *)
Definition distinct_ids (col : collection) : Prop :=
  NoDup (map restaurant_id (documents col)).

(** [new_rstrt], [k] times in a row. *)
Fixpoint new_rstrts (k : nat) (c : Controller) : outcome Controller :=
  match k with
  | O => Return c
  | S k' => and_then (new_rstrts k' c) new_rstrt
  end.

Definition empty_collection : collection :=
  {| documents := []; unique_index := true |}.

(** ** Sample data, continued *)

Definition json_of (d : restaurant) : json_document :=
  {| j_address := r_address d; j_borough := borough d;
     j_cuisine := cuisine d;
     j_grades :=
       map (fun g => {| j_date := DateMillis (date g); j_grade := grade g;
                        j_score := score g |}) (grades d);
     j_name := name d; j_restaurant_id := restaurant_id d |}.

(** A decoder for three lines: the first two decode, the third does
    not. *)
Definition sample_loads (line : string) : option json_document :=
  if String.eqb line "pizza" then Some (json_of pizza_place)
  else if String.eqb line "sushi" then Some (json_of sushi_bar)
  else None.

Definition sample_session : Session :=
  {| controller := init empty_collection; progress := (false, 0%float) |}.


(** Every line of [lines] decodes, to the documents [docs] in order. *)
Definition decodes (json_loads : string -> option json_document)
  (lines : list string) (docs : list restaurant) : Prop :=
  Forall2 (fun line d => decode_line json_loads line = inl d) lines docs.

(** The ids of the documents of a collection, in order. *)
Definition ids (col : collection) : list string :=
  map restaurant_id (documents col).

(** The entry of a document the loop of [update_rstrts] is done with. *)
Definition measured (d : restaurant) (dist : float) : entry :=
  set_dist dist (del_address (projection d)).

(** A record whose [address.coord] holds one number. *)
Definition half_placed : restaurant :=
  sample_document "30000009" "Half" (Some [Some 1%float]).

Definition with_half_placed : collection :=
  {| documents := [sushi_bar; half_placed; pizza_place];
     unique_index := true |}.

(** The ids [str(n + 1)], ..., [str(n + k)]. *)
Definition ids_after (n : Z) (k : nat) : list string :=
  map (fun j => py_str (n + Z.of_nat j)) (seq 1 k).

(** The methods that write the result set: [edit_coord] gives an entry
    its distance, [del_rstrt] deletes an entry. *)
Definition writes_result_set (ed : edit) : bool :=
  match ed with
  | EditCoord _ _ | DelRstrt => true
  | _ => false
  end.

(** The documents of [col] whose id is not [rid]. *)
Definition others (rid : string) (col : collection) : list restaurant :=
  filter (fun d => negb (has_id rid d)) (documents col).
(* ================================================================== *)
(** * Properties *)
(* ================================================================== *)

Unset Implicit Arguments.

(** ** Python lists *)

Lemma py_index_in_range (len : nat) (i : Z) (k : nat) :
  py_index len i = Some k -> (k < len)%nat.
Proof.
  unfold py_index.
  destruct (0 <=? i) eqn:H0.
  - destruct (i <? Z.of_nat len) eqn:H1; [|discriminate].
    intros [= <-]. apply Z.leb_le in H0. apply Z.ltb_lt in H1. lia.
  - destruct (- Z.of_nat len <=? i) eqn:H1; [|discriminate].
    intros [= <-]. apply Z.leb_gt in H0. apply Z.leb_le in H1. lia.
Qed.

Lemma py_index_out_of_range (len : nat) (i : Z) :
  i < - Z.of_nat len \/ Z.of_nat len <= i -> py_index len i = None.
Proof.
  intros H. unfold py_index.
  destruct (0 <=? i) eqn:H0.
  - apply Z.leb_le in H0.
    destruct (i <? Z.of_nat len) eqn:H1; [|reflexivity].
    apply Z.ltb_lt in H1. lia.
  - apply Z.leb_gt in H0.
    destruct (- Z.of_nat len <=? i) eqn:H1; [|reflexivity].
    apply Z.leb_le in H1. lia.
Qed.

Lemma py_index_nonneg (len : nat) (i : Z) :
  0 <= i < Z.of_nat len -> py_index len i = Some (Z.to_nat i).
Proof.
  intros [H0 H1]. unfold py_index.
  apply Z.leb_le in H0. apply Z.ltb_lt in H1. now rewrite H0, H1.
Qed.

(** ** Selecting a record *)

Example update_cur_rstrt_selects :
  update_cur_rstrt (Some 1) sample_controller
  = Return (with_cur_rstrt (Some sushi_bar)
              (with_cur_index (Some 1) sample_controller))
  /\ update_cur_rstrt None sample_controller
     = Return (with_cur_rstrt None (with_cur_index None sample_controller)).
Proof. split; reflexivity. Qed.

(** C1, as the code has it.  A position outside the result set (at or
    past its length, or before minus its length) makes
    [update_cur_rstrt] raise an [IndexError]; the state it leaves has the
    record cleared and the requested position stored in [cur_index];
    the collection, the result set and the reference point are as they
    were. *)
Theorem update_cur_rstrt_out_of_bounds (c : Controller) (i : Z) :
  i < - Z.of_nat (List.length (filtered_rstrts c))
  \/ Z.of_nat (List.length (filtered_rstrts c)) <= i ->
  update_cur_rstrt (Some i) c
  = Raise IndexError
      {| mycol := mycol c; filtered_rstrts := filtered_rstrts c;
         cur_index := Some i; cur_rstrt := None;
         cur_coord := cur_coord c |}.
Proof.
  intros H. unfold update_cur_rstrt, py_getitem. cbn.
  now rewrite (py_index_out_of_range _ _ H).
Qed.

Lemma update_cur_rstrt_out_of_bounds_witness :
  update_cur_rstrt (Some 2) sample_controller
  = Raise IndexError
      {| mycol := sample_collection;
         filtered_rstrts := filtered_rstrts sample_controller;
         cur_index := Some 2; cur_rstrt := None;
         cur_coord := cur_coord sample_controller |}.
Proof.
  apply (update_cur_rstrt_out_of_bounds sample_controller 2).
  right. cbn. lia.
Defined.

(** C1 fails as stated: selecting position 5 of a result set of two
    entries does not return, and the position stays in [cur_index]. *)
Lemma update_cur_rstrt_raises_at_5 :
  returned (update_cur_rstrt (Some 5) sample_controller) = false
  /\ cur_index (final (update_cur_rstrt (Some 5) sample_controller)) = Some 5
  /\ cur_rstrt (final (update_cur_rstrt (Some 5) sample_controller)) = None.
Proof. repeat split; reflexivity. Qed.

(** ** Removing a grade *)

Lemma nth_error_remove {A : Type} (l : list A) (k j : nat) :
  nth_error (firstn k l ++ skipn (S k) l) j
  = nth_error l (if (j <? k)%nat then j else S j).
Proof.
  revert k j. induction l as [|x l IH]; intros k j.
  - rewrite firstn_nil, skipn_nil. cbn [app].
    destruct (j <? k)%nat; destruct j; reflexivity.
  - destruct k as [|k].
    + cbn. reflexivity.
    + destruct j as [|j]; [reflexivity|].
      cbn [firstn skipn app nth_error]. rewrite IH.
      change (S j <? S k)%nat with (j <? k)%nat.
      now destruct (j <? k)%nat.
Qed.

Lemma length_remove {A : Type} (l : list A) (k : nat) :
  (k < List.length l)%nat ->
  S (List.length (firstn k l ++ skipn (S k) l)) = List.length l.
Proof.
  intros H. rewrite length_app, length_firstn, length_skipn. lia.
Qed.

(** C8.  With a record selected whose grades are [g], [del_grade i] for
    an index the list accepts (position [k], counted from the end when
    [i] is negative) returns, and the grades of [cur_rstrt] are then [g]
    without its item [k]: one item shorter, the items before [k] where
    they were, the items after [k] one place earlier.  Nothing else of
    the selected record changes. *)
Theorem del_grade_removes_index (c : Controller) (r : restaurant)
  (i : Z) (k : nat) :
  cur_rstrt c = Some r ->
  py_index (List.length (grades r)) i = Some k ->
  exists c' r',
    del_grade i c = Return c'
    /\ cur_rstrt c' = Some r'
    /\ grades r' = firstn k (grades r) ++ skipn (S k) (grades r)
    /\ S (List.length (grades r')) = List.length (grades r)
    /\ (forall j, (j < k)%nat ->
          nth_error (grades r') j = nth_error (grades r) j)
    /\ (forall j, (k <= j)%nat ->
          nth_error (grades r') j = nth_error (grades r) (S j))
    /\ set_grades (grades r) r' = r.
Proof.
  intros Hsel Hk. unfold del_grade, py_delitem. rewrite Hsel, Hk.
  eexists _, _. split; [reflexivity|]. split; [reflexivity|].
  cbn [grades set_grades].
  split; [reflexivity|].
  split; [apply length_remove, (py_index_in_range _ _ _ Hk)|].
  split; [|split].
  - intros j Hj. rewrite nth_error_remove.
    apply Nat.ltb_lt in Hj. now rewrite Hj.
  - intros j Hj. rewrite nth_error_remove.
    apply Nat.ltb_ge in Hj. now rewrite Hj.
  - now destruct r.
Qed.

Lemma del_grade_removes_index_witness :
  exists c' r',
    del_grade 1 sample_controller = Return c'
    /\ cur_rstrt c' = Some r'
    /\ grades r' = firstn 1 (grades pizza_place)
                   ++ skipn 2 (grades pizza_place)
    /\ S (List.length (grades r')) = List.length (grades pizza_place)
    /\ (forall j, (j < 1)%nat ->
          nth_error (grades r') j = nth_error (grades pizza_place) j)
    /\ (forall j, (1 <= j)%nat ->
          nth_error (grades r') j = nth_error (grades pizza_place) (S j))
    /\ set_grades (grades pizza_place) r' = pizza_place.
Proof.
  apply (del_grade_removes_index sample_controller pizza_place 1 1);
    reflexivity.
Defined.

Example del_grade_last :
  option_map (fun r => map grade (grades r))
    (cur_rstrt (final (del_grade (-1) sample_controller)))
  = Some ["A"; "B"]
  /\ returned (del_grade 3 sample_controller) = false.
Proof. split; reflexivity. Qed.

(** ** Editing the address *)

Lemma find_update_first (rid : string) (u : restaurant -> restaurant)
  (l : list restaurant) :
  (forall d, restaurant_id (u d) = restaurant_id d) ->
  filter (has_id rid) (update_first rid u l)
  = match filter (has_id rid) l with
    | [] => []
    | d :: rest => u d :: rest
    end.
Proof.
  intros Hu. induction l as [|d l IH]; [reflexivity|].
  cbn [update_first filter].
  destruct (has_id rid d) eqn:Hd.
  - cbn [filter]. unfold has_id in *. now rewrite Hu, Hd.
  - cbn [filter]. now rewrite Hd, IH.
Qed.

Lemma update_first_other (rid : string) (u : restaurant -> restaurant)
  (l : list restaurant) :
  filter (fun d => negb (has_id rid d)) (update_first rid u l)
  = filter (fun d => negb (has_id rid d)) l
  \/ exists d, In d l /\ has_id rid d = true /\ has_id rid (u d) = false.
Proof.
  induction l as [|d l IH]; [now left|].
  cbn [update_first].
  destruct (has_id rid d) eqn:Hd.
  - destruct (has_id rid (u d)) eqn:Hu.
    + left. cbn [filter]. now rewrite Hd, Hu.
    + right. exists d. repeat split; auto. now left.
  - destruct IH as [IH|(d' & Hin & H1 & H2)].
    + left. cbn [filter]. now rewrite Hd, IH.
    + right. exists d'. repeat split; auto. now right.
Qed.

Lemma update_first_replaced (rid : string) (u : restaurant -> restaurant)
  (l : list restaurant) :
  first_replaced rid u l (update_first rid u l).
Proof.
  induction l as [|d l IH]; [now constructor|].
  destruct (has_id rid d) eqn:Hd.
  - replace (update_first rid u (d :: l)) with (u d :: l)
      by (cbn [update_first]; now rewrite Hd).
    now apply (replaced_at rid u [] d l).
  - replace (update_first rid u (d :: l)) with (d :: update_first rid u l)
      by (cbn [update_first]; now rewrite Hd).
    remember (update_first rid u l) as l' eqn:El'. clear El'.
    destruct IH as [l Hnone|before d0 after Hb Hd0].
    + apply replaced_none. cbn [forallb]. now rewrite Hd.
    + apply (replaced_at rid u (d :: before) d0 after); [|assumption].
      cbn [forallb]. now rewrite Hd.
Qed.



(** The address after the edit, written out: the three fields are the
    given ones. *)
Example edit_address_sample :
  option_map r_address
    (cur_rstrt
       (final
          (edit_address
             {| f_building := "7"; f_street := "Broadway";
                f_zipcode := "10002" |} sample_controller)))
  = Some {| building := "7";
            coord := Some [Some (-73.98)%float; Some 40.75%float];
            street := "Broadway"; zipcode := "10002" |}
  /\ map r_address
       (documents
          (mycol
             (final
                (edit_address
                   {| f_building := "7"; f_street := "Broadway";
                      f_zipcode := "10002" |} sample_controller))))
     = [ {| building := "7";
            coord := Some [Some (-73.98)%float; Some 40.75%float];
            street := "Broadway"; zipcode := "10002" |};
         r_address sushi_bar ].
Proof. split; reflexivity. Qed.

(** ** The sort of the result set *)

Lemma binary_insert_perm {A : Type} (a : list (float * A))
  (pivot : float * A) :
  Permutation (a ++ [pivot]) (binary_insert a pivot).
Proof.
  unfold binary_insert.
  set (p := bisect _ _ _ _ _).
  rewrite <- (firstn_skipn p a) at 1. rewrite <- app_assoc.
  apply Permutation_app_head.
  rewrite <- Permutation_cons_append. reflexivity.
Qed.

Lemma fold_binary_insert_perm {A : Type} (rest run : list (float * A)) :
  Permutation (run ++ rest) (fold_left binary_insert rest run).
Proof.
  revert run. induction rest as [|x rest IH]; intros run; cbn [fold_left].
  - now rewrite app_nil_r.
  - rewrite <- IH, <- binary_insert_perm, <- app_assoc. reflexivity.
Qed.

Lemma binarysort_perm {A : Type} (l : list (float * A)) :
  Permutation l (binarysort l).
Proof.
  unfold binarysort. destruct (count_run l) as [n descending].
  rewrite <- fold_binary_insert_perm.
  rewrite <- (firstn_skipn n l) at 1. apply Permutation_app_tail.
  destruct descending; [apply Permutation_rev|reflexivity].
Qed.

Lemma list_sort_perm (M : libm) (l : list (float * entry)) :
  Permutation l (list_sort M l).
Proof.
  unfold list_sort. destruct (binarysort_applies l);
    [apply binarysort_perm|apply sort_merging_permutes].
Qed.

Lemma dist_keys_snd (l : list entry) (kl : list (float * entry)) :
  dist_keys l = Some kl -> map snd kl = l.
Proof.
  revert kl. induction l as [|e l IH]; intros kl; cbn [dist_keys].
  - now intros [= <-].
  - destruct (e_dist e); [|discriminate].
    destruct (dist_keys l) as [r|]; [|discriminate].
    intros [= <-]. cbn. now rewrite IH.
Qed.

Lemma dist_keys_fst (l : list entry) (kl : list (float * entry)) :
  dist_keys l = Some kl ->
  Forall (fun p => e_dist (snd p) = Some (fst p)) kl.
Proof.
  revert kl. induction l as [|e l IH]; intros kl; cbn [dist_keys].
  - intros [= <-]. constructor.
  - destruct (e_dist e) eqn:He; [|discriminate].
    destruct (dist_keys l) as [r|]; [|discriminate].
    intros [= <-]. constructor; auto.
Qed.

Lemma dist_keys_total (l : list entry) :
  forallb has_dist l = true -> exists kl, dist_keys l = Some kl.
Proof.
  induction l as [|e l IH]; cbn [forallb dist_keys]; [now eexists|].
  unfold has_dist at 1. destruct (e_dist e); [|discriminate].
  cbn. intros H. destruct (IH H) as [kl ->]. now eexists.
Qed.

Lemma dist_keys_none (l : list entry) :
  forallb has_dist l = false -> dist_keys l = None.
Proof.
  induction l as [|e l IH]; cbn [forallb dist_keys]; [discriminate|].
  unfold has_dist at 1. destruct (e_dist e); [|reflexivity].
  cbn [andb]. intros H. now rewrite (IH H).
Qed.

Lemma sort_by_dist_perm (M : libm) (l l' : list entry) :
  sort_by_dist M l = Some l' -> Permutation l l'.
Proof.
  unfold sort_by_dist. destruct (dist_keys l) as [kl|] eqn:Hk; [|discriminate].
  intros [= <-]. rewrite <- (dist_keys_snd _ _ Hk) at 1.
  apply Permutation_map, list_sort_perm.
Qed.

(** ** The loop that sets the distances *)

Lemma set_distances_ids (M : libm) (ref : float * float) (l : list entry) :
  map e_id (final (set_distances M ref l)) = map e_id l.
Proof.
  induction l as [|e l IH]; [reflexivity|].
  cbn [set_distances]. destruct (e_address e) as [co|]; [|reflexivity].
  destruct (dist_of_coord M co ref); [|reflexivity].
  destruct (set_distances M ref l); cbn in *; now rewrite IH.
Qed.


(** ** Searching without a condition *)

Lemma filter_opt_all {A : Type} (f : A -> option bool) (l : list A) :
  (forall x, In x l -> f x = Some true) -> filter_opt f l = Some l.
Proof.
  induction l as [|x l IH]; intros H; [reflexivity|].
  cbn [filter_opt]. rewrite H by now left.
  rewrite IH; [reflexivity|]. intros y Hy. apply H. now right.
Qed.

Lemma mongo_find_no_condition (col : collection) :
  mongo_find (query_of no_condition) col = Some (documents col).
Proof.
  unfold mongo_find. cbn. now apply filter_opt_all.
Qed.

(** ** A search the store answers, a search it refuses *)

Lemma pattern_ok_not_refused (p : option string) :
  pattern_ok p = true -> pattern_refused p = false.
Proof.
  destruct p as [p|]; [|reflexivity]. cbn [pattern_ok pattern_refused].
  now destruct (parse_regex _).
Qed.

Lemma mongo_find_not_refused (q : query) (col : collection)
  (found : list restaurant) :
  mongo_find q col = Some found -> query_refused q = false.
Proof.
  unfold mongo_find, query_refused.
  destruct (pattern_ok (q_name q)) eqn:H1; [|discriminate].
  destruct (pattern_ok (q_borough q)) eqn:H2; [|discriminate].
  destruct (pattern_ok (q_street q)) eqn:H3; [|discriminate].
  destruct (pattern_ok (q_zipcode q)) eqn:H4; [|discriminate].
  intros _. now rewrite !pattern_ok_not_refused by assumption.
Qed.

Lemma update_rstrts_answer (M : libm) (cond : condition) (c : Controller)
  (found : list restaurant) :
  mongo_find (query_of cond) (mycol c) = Some found ->
  update_rstrts M cond c = Some (update_rstrts_found M found c).
Proof.
  intros Hf. unfold update_rstrts.
  now rewrite (mongo_find_not_refused _ _ _ Hf), Hf.
Qed.

Lemma update_rstrts_cases (M : libm) (cond : condition) (c : Controller)
  (o : outcome Controller) :
  update_rstrts M cond c = Some o ->
  (query_refused (query_of cond) = true /\ o = Raise OperationFailure c)
  \/ (query_refused (query_of cond) = false
      /\ exists found,
           mongo_find (query_of cond) (mycol c) = Some found
           /\ o = update_rstrts_found M found c).
Proof.
  unfold update_rstrts. destruct (query_refused (query_of cond)).
  - intros [= <-]. now left.
  - destruct (mongo_find (query_of cond) (mycol c)) as [found|];
      [|discriminate].
    intros [= <-]. right. split; [reflexivity|]. now exists found.
Qed.


(** The result set a search leaves when the store has answered,
    returned or not, has the ids of the documents found, each as often
    as there. *)
Lemma update_rstrts_found_ids (M : libm) (found : list restaurant)
  (c : Controller) :
  Permutation (map restaurant_id found)
    (map e_id (filtered_rstrts (final (update_rstrts_found M found c))))
  /\ mycol (final (update_rstrts_found M found c)) = mycol c
  /\ cur_index (final (update_rstrts_found M found c)) = cur_index c
  /\ cur_rstrt (final (update_rstrts_found M found c)) = cur_rstrt c
  /\ cur_coord (final (update_rstrts_found M found c)) = cur_coord c.
Proof.
  unfold update_rstrts_found.
  cbn [filtered_rstrts with_filtered cur_coord].
  set (l0 := map projection found).
  assert (H0 : map e_id l0 = map restaurant_id found).
  { unfold l0. rewrite map_map. reflexivity. }
  pose proof (set_distances_ids M (cur_coord c) l0) as Hids.
  destruct (set_distances M (cur_coord c) l0) as [l|x l] eqn:Hs; cbn in Hids.
  - destruct (sort_by_dist M l) as [l'|] eqn:Hsort; cbn.
    + repeat split. rewrite <- H0, <- Hids. apply Permutation_map.
      now apply (sort_by_dist_perm M).
    + repeat split. now rewrite Hids, H0.
  - cbn. repeat split. now rewrite Hids, H0.
Qed.

(** The result set an unconditional search leaves, returned or not, has
    the ids of the collection, each as often as there. *)
Lemma update_rstrts_no_condition_ids (M : libm) (c : Controller) :
  exists o,
    update_rstrts M no_condition c = Some o
    /\ Permutation (map restaurant_id (documents (mycol c)))
         (map e_id (filtered_rstrts (final o))).
Proof.
  eexists. split.
  - apply update_rstrts_answer, mongo_find_no_condition.
  - apply update_rstrts_found_ids.
Qed.

(** ** Deleting the listed records *)

Lemma id_in_spec (ids : list string) (rid : string) :
  id_in ids rid = true <-> In rid ids.
Proof.
  unfold id_in. rewrite existsb_exists. split.
  - intros (x & Hx & He). apply String.eqb_eq in He. now subst.
  - intros H. exists rid. split; [assumption|]. apply String.eqb_refl.
Qed.

(** C9, as the code has it.  [del_all] returns.  A document is in the
    collection afterwards exactly when it was there before and its id
    is not the id of an entry of the result set; the result set is then
    empty and no record is selected: [cur_rstrt] is [None].  The
    position [cur_index] is not cleared, it is as it was.  A document
    that was in the collection under an id outside the result set is in
    the result set that an unconditional search leaves afterwards. *)
Theorem del_all_deletes_listed (M : libm) (c : Controller) :
  exists c',
    del_all c = Return c'
    /\ (forall d, In d (documents (mycol c'))
                  <-> In d (documents (mycol c))
                      /\ ~ In (restaurant_id d)
                             (map e_id (filtered_rstrts c)))
    /\ filtered_rstrts c' = []
    /\ cur_rstrt c' = None
    /\ cur_index c' = cur_index c
    /\ cur_coord c' = cur_coord c
    /\ exists o,
         update_rstrts M no_condition c' = Some o
         /\ forall d, In d (documents (mycol c)) ->
                      ~ In (restaurant_id d) (map e_id (filtered_rstrts c)) ->
                      In (restaurant_id d)
                         (map e_id (filtered_rstrts (final o))).
Proof.
  unfold del_all. eexists. split; [reflexivity|].
  set (c' := with_cur_rstrt None _).
  assert (Hdocs : forall d, In d (documents (mycol c'))
                  <-> In d (documents (mycol c))
                      /\ ~ In (restaurant_id d)
                             (map e_id (filtered_rstrts c))).
  { intros d. cbn. rewrite filter_In, negb_true_iff.
    rewrite <- id_in_spec. now destruct (id_in _ _). }
  split; [exact Hdocs|].
  do 4 (split; [reflexivity|]).
  destruct (update_rstrts_no_condition_ids M c') as (o & Ho & Hp).
  exists o. split; [assumption|]. intros d Hin Hid.
  eapply Permutation_in; [exact Hp|].
  apply in_map, Hdocs. now split.
Qed.

(** C9 fails as stated: after [del_all] the position is still the one
    that was selected, in a result set that is empty; selecting it
    again raises. *)
Lemma del_all_keeps_the_position :
  cur_index sample_controller = Some 0
  /\ cur_index (final (del_all sample_controller)) = Some 0
  /\ filtered_rstrts (final (del_all sample_controller)) = []
  /\ cur_rstrt (final (del_all sample_controller)) = None
  /\ py_getitem (filtered_rstrts (final (del_all sample_controller))) 0
     = None
  /\ update_cur_rstrt (cur_index (final (del_all sample_controller)))
       (final (del_all sample_controller))
     = Raise IndexError (final (del_all sample_controller)).
Proof. repeat split; reflexivity. Qed.

Example del_all_sample :
  let c := with_filtered [listed pizza_place 17.982] sample_controller in
  map name (documents (mycol (final (del_all c)))) = ["Sushi Bar"]
  /\ option_map (fun o => map e_name (filtered_rstrts (final o)))
       (update_rstrts libm_raising no_condition (final (del_all c)))
     = Some ["Sushi Bar"].
Proof. split; reflexivity. Qed.

(** ** Creating a record *)

Lemma forallb_perm {A : Type} (f : A -> bool) (l l' : list A) :
  Permutation l l' -> forallb f l = forallb f l'.
Proof.
  induction 1; cbn; try congruence.
  - now rewrite !andb_assoc, (andb_comm (f y)).
Qed.



Example new_rstrt_on_empty_collection :
  let c := init {| documents := []; unique_index := true |} in
  new_rstrt c
  = Return
      {| mycol := {| documents := [set_restaurant_id "100000001"
                                     (set_name "untitled" EMPTY_RSTRT)];
                     unique_index := true |};
         filtered_rstrts :=
           [ {| e_id := "100000001"; e_name := "untitled";
                e_address := Some (Some [None; None]); e_dist := None |} ];
         cur_index := None; cur_rstrt := None;
         cur_coord := (0%float, 0%float) |}.
Proof. reflexivity. Qed.

(** C2, where the code departs from it.  [get_max_id] takes the greatest
    id in the order of strings: with the ids "9" and "10" in the
    collection it answers "9", so [new_rstrt] issues "10" again, the
    insert is refused by the unique index, and the entry is in the
    result set all the same.  With the ids "100000001" and "30075445" it
    answers "30075445" and issues "30075446", which is below
    100000001. *)
Theorem new_rstrt_reissues_an_id :
  get_max_id (init short_ids) = "9"
  /\ new_rstrt (init short_ids)
     = Raise DuplicateKeyError
         (with_filtered
            [ {| e_id := "10"; e_name := "untitled";
                 e_address := Some (Some [None; None]); e_dist := None |} ]
            (init short_ids))
  /\ get_max_id (init created_then_imported) = "30075445"
  /\ map restaurant_id
       (documents (mycol (final (new_rstrt (init created_then_imported)))))
     = ["100000001"; "30075445"; "30075446"]
  /\ option_map (fun n => n <? 100000001) (py_int "30075446") = Some true.
Proof. repeat split; reflexivity. Qed.

(** ** Records on the equator or on the prime meridian *)

(** C4, where the code departs from it.  A record at longitude 0 has
    both components of its coordinate, yet the test
    [coord and coord[0] and coord[1]] takes the 0 for a missing value:
    the search gives it the distance 99999.99 without calling
    [geodistance] (the math library used here raises on every call). *)
Theorem update_rstrts_zero_longitude :
  update_rstrts libm_raising no_condition
    (init {| documents := [on_the_meridian]; unique_index := true |})
  = Some (Return
      {| mycol := {| documents := [on_the_meridian]; unique_index := true |};
         filtered_rstrts :=
           [ {| e_id := "40356018"; e_name := "Meridian Cafe";
                e_address := None; e_dist := Some sentinel |} ];
         cur_index := None; cur_rstrt := None;
         cur_coord := (0%float, 0%float) |}).
Proof. reflexivity. Qed.

(** ** The order of binary64 numbers *)

Lemma lex3_spec (a b : Z * Z * Z) :
  CompareSpec (a = b) (key_lt a b) (key_lt b a) (lex3 a b).
Proof.
  destruct a as [[a1 a2] a3], b as [[b1 b2] b3]. unfold lex3, key_lt. cbn.
  destruct (Z.compare_spec a1 b1); [|constructor; lia|constructor; lia].
  destruct (Z.compare_spec a2 b2); [|constructor; lia|constructor; lia].
  destruct (Z.compare_spec a3 b3); constructor; try lia. congruence.
Qed.

Lemma key_lt_irrefl (a : Z * Z * Z) : ~ key_lt a a.
Proof. unfold key_lt. lia. Qed.

Lemma key_lt_trans (a b c : Z * Z * Z) :
  key_lt a b -> key_lt b c -> key_lt a c.
Proof. unfold key_lt. lia. Qed.

Lemma SFcompare_key (f g : spec_float) :
  f <> S754_nan -> g <> S754_nan ->
  SFcompare f g = Some (lex3 (sf_key f) (sf_key g)).
Proof.
  intros Hf Hg.
  destruct f as [[]|[]| |[] m1 e1]; try congruence;
    destruct g as [[]|[]| |[] m2 e2]; try congruence; try reflexivity.
  - cbn [SFcompare sf_key]. unfold lex3. cbn [fst snd].
    rewrite Z.compare_opp, (Z.compare_antisym e1 e2).
    destruct (e1 ?= e2); reflexivity.
Qed.

Lemma lex3_refl (a : Z * Z * Z) : lex3 a a = Eq.
Proof.
  destruct (lex3_spec a a) as [_|H|H]; [reflexivity| |];
    now apply key_lt_irrefl in H.
Qed.

Lemma is_nan_spec (x : float) :
  PrimFloat.is_nan x = false <-> Prim2SF x <> S754_nan.
Proof.
  unfold PrimFloat.is_nan. rewrite eqb_spec, negb_false_iff. unfold SFeqb.
  split.
  - intros H E. rewrite E in H. discriminate.
  - intros H. rewrite (SFcompare_key _ _ H H), lex3_refl. reflexivity.
Qed.

Section FloatOrder.

Variables x y : float.
Hypothesis Hx : PrimFloat.is_nan x = false.
Hypothesis Hy : PrimFloat.is_nan y = false.

Lemma float_compare_key :
  SFcompare (Prim2SF x) (Prim2SF y)
  = Some (lex3 (float_key x) (float_key y)).
Proof. apply SFcompare_key; now apply is_nan_spec. Qed.

Lemma ltb_key :
  PrimFloat.ltb x y
  = match lex3 (float_key x) (float_key y) with Lt => true | _ => false end.
Proof. rewrite ltb_spec. unfold SFltb. now rewrite float_compare_key. Qed.

Lemma leb_key :
  PrimFloat.leb x y
  = match lex3 (float_key x) (float_key y) with Gt => false | _ => true end.
Proof.
  rewrite leb_spec. unfold SFleb. rewrite float_compare_key.
  now destruct (lex3 _ _).
Qed.

Lemma eqb_key :
  PrimFloat.eqb x y
  = match lex3 (float_key x) (float_key y) with Eq => true | _ => false end.
Proof. rewrite eqb_spec. unfold SFeqb. now rewrite float_compare_key. Qed.

End FloatOrder.

Lemma leb_not_nan (x y : float) :
  PrimFloat.leb x y = true ->
  PrimFloat.is_nan x = false /\ PrimFloat.is_nan y = false.
Proof.
  rewrite leb_spec. unfold SFleb. intros H.
  split; apply is_nan_spec; intros E; rewrite E in H.
  - discriminate.
  - now destruct (Prim2SF x).
Qed.

Lemma eqb_not_nan (x y : float) :
  PrimFloat.eqb x y = true ->
  PrimFloat.is_nan x = false /\ PrimFloat.is_nan y = false.
Proof.
  rewrite eqb_spec. unfold SFeqb. intros H.
  split; apply is_nan_spec; intros E; rewrite E in H.
  - discriminate.
  - now destruct (Prim2SF x).
Qed.

Lemma ltb_not_nan (x y : float) :
  PrimFloat.ltb x y = true ->
  PrimFloat.is_nan x = false /\ PrimFloat.is_nan y = false.
Proof.
  rewrite ltb_spec. unfold SFltb. intros H.
  split; apply is_nan_spec; intros E; rewrite E in H.
  - discriminate.
  - now destruct (Prim2SF x).
Qed.

(** On numbers, [not (y < x)] is [x <= y]. *)
Lemma not_ltb_leb (x y : float) :
  PrimFloat.is_nan x = false -> PrimFloat.is_nan y = false ->
  PrimFloat.ltb y x = false -> PrimFloat.leb x y = true.
Proof.
  intros Hx Hy. rewrite (ltb_key y x Hy Hx), (leb_key x y Hx Hy).
  destruct (lex3_spec (float_key y) (float_key x)) as [E|H|H];
    destruct (lex3_spec (float_key x) (float_key y)) as [E'|H'|H'];
    try reflexivity; try discriminate; intros _; exfalso.
  - rewrite E in H'. now apply key_lt_irrefl in H'.
  - apply (key_lt_irrefl (float_key x)). eapply key_lt_trans; eauto.
Qed.

Lemma ltb_leb (x y : float) :
  PrimFloat.ltb x y = true -> PrimFloat.leb x y = true.
Proof.
  intros H. destruct (ltb_not_nan _ _ H) as [Hx Hy].
  rewrite (ltb_key x y Hx Hy) in H. rewrite (leb_key x y Hx Hy).
  now destruct (lex3 _ _).
Qed.

Lemma leb_trans (x y z : float) :
  PrimFloat.leb x y = true -> PrimFloat.leb y z = true ->
  PrimFloat.leb x z = true.
Proof.
  intros H1 H2.
  destruct (leb_not_nan _ _ H1) as [Hx Hy].
  destruct (leb_not_nan _ _ H2) as [_ Hz].
  rewrite (leb_key x y Hx Hy) in H1. rewrite (leb_key y z Hy Hz) in H2.
  rewrite (leb_key x z Hx Hz).
  destruct (lex3_spec (float_key x) (float_key y)) as [E1|L1|L1];
    try discriminate;
    destruct (lex3_spec (float_key y) (float_key z)) as [E2|L2|L2];
    try discriminate;
    destruct (lex3_spec (float_key x) (float_key z)) as [E3|L3|L3];
    try reflexivity; exfalso.
  - rewrite E1, E2 in L3. now apply key_lt_irrefl in L3.
  - rewrite E1 in L3. apply (key_lt_irrefl (float_key y)).
    eapply key_lt_trans; eauto.
  - rewrite <- E2 in L3. apply (key_lt_irrefl (float_key y)).
    eapply key_lt_trans; eauto.
  - apply (key_lt_irrefl (float_key x)).
    eapply key_lt_trans; [|exact L3]. eapply key_lt_trans; eauto.
Qed.

(** Two numbers equal to a third are not strictly ordered. *)
Lemma ltb_not_tied (a b d : float) :
  PrimFloat.ltb a b = true -> PrimFloat.eqb a d = true ->
  PrimFloat.eqb b d = false.
Proof.
  intros Hlt Ha. destruct (PrimFloat.eqb b d) eqn:Hb; [exfalso|reflexivity].
  destruct (ltb_not_nan _ _ Hlt) as [Na Nb].
  destruct (eqb_not_nan _ _ Ha) as [_ Nd].
  rewrite (ltb_key a b Na Nb) in Hlt.
  rewrite (eqb_key a d Na Nd) in Ha. rewrite (eqb_key b d Nb Nd) in Hb.
  destruct (lex3_spec (float_key a) (float_key d)) as [E1|L1|L1];
    try discriminate.
  destruct (lex3_spec (float_key b) (float_key d)) as [E2|L2|L2];
    try discriminate.
  rewrite E1, E2, lex3_refl in Hlt. discriminate.
Qed.

(** ** The sort is ordered and stable *)

Lemma ltb_trans (x y z : float) :
  PrimFloat.ltb x y = true -> PrimFloat.ltb y z = true ->
  PrimFloat.ltb x z = true.
Proof.
  intros H1 H2.
  destruct (ltb_not_nan _ _ H1) as [Hx Hy].
  destruct (ltb_not_nan _ _ H2) as [_ Hz].
  rewrite (ltb_key x y Hx Hy) in H1. rewrite (ltb_key y z Hy Hz) in H2.
  rewrite (ltb_key x z Hx Hz).
  destruct (lex3_spec (float_key x) (float_key y)) as [E1|L1|L1];
    try discriminate;
    destruct (lex3_spec (float_key y) (float_key z)) as [E2|L2|L2];
    try discriminate;
    destruct (lex3_spec (float_key x) (float_key z)) as [E3|L3|L3];
    try reflexivity; exfalso.
  - rewrite E3 in L1. apply (key_lt_irrefl (float_key z)).
    eapply key_lt_trans; eauto.
  - apply (key_lt_irrefl (float_key x)).
    eapply key_lt_trans; [|exact L3]. eapply key_lt_trans; eauto.
Qed.

Lemma ltb_leb_trans (x y z : float) :
  PrimFloat.ltb x y = true -> PrimFloat.leb y z = true ->
  PrimFloat.ltb x z = true.
Proof.
  intros H1 H2.
  destruct (ltb_not_nan _ _ H1) as [Hx Hy].
  destruct (leb_not_nan _ _ H2) as [_ Hz].
  rewrite (ltb_key x y Hx Hy) in H1. rewrite (leb_key y z Hy Hz) in H2.
  rewrite (ltb_key x z Hx Hz).
  destruct (lex3_spec (float_key x) (float_key y)) as [E1|L1|L1];
    try discriminate;
    destruct (lex3_spec (float_key y) (float_key z)) as [E2|L2|L2];
    try discriminate;
    destruct (lex3_spec (float_key x) (float_key z)) as [E3|L3|L3];
    try reflexivity; exfalso.
  - rewrite E3, E2 in L1. now apply key_lt_irrefl in L1.
  - rewrite E2 in L1. apply (key_lt_irrefl (float_key x)).
    eapply key_lt_trans; eauto.
  - rewrite E3 in L1. apply (key_lt_irrefl (float_key z)).
    eapply key_lt_trans; eauto.
  - apply (key_lt_irrefl (float_key x)).
    eapply key_lt_trans; [|exact L3]. eapply key_lt_trans; eauto.
Qed.

Lemma leb_not_ltb (x y : float) :
  PrimFloat.leb x y = true -> PrimFloat.ltb y x = false.
Proof.
  intros H. destruct (leb_not_nan _ _ H) as [Hx Hy].
  rewrite (leb_key x y Hx Hy) in H. rewrite (ltb_key y x Hy Hx).
  destruct (lex3_spec (float_key x) (float_key y)) as [E1|L1|L1];
    try discriminate;
    destruct (lex3_spec (float_key y) (float_key x)) as [E2|L2|L2];
    try reflexivity; exfalso.
  - rewrite E1 in L2. now apply key_lt_irrefl in L2.
  - apply (key_lt_irrefl (float_key x)). eapply key_lt_trans; eauto.
Qed.

Lemma strongly_sorted_app {B : Type} (R : B -> B -> Prop) (l1 l2 : list B) :
  StronglySorted R (l1 ++ l2)
  <-> StronglySorted R l1 /\ StronglySorted R l2
      /\ Forall (fun x => Forall (R x) l2) l1.
Proof.
  induction l1 as [|x l1 IH]; cbn [app].
  - split; [intros H; repeat split; [constructor|assumption|constructor]|].
    now intros (_ & H & _).
  - split.
    + intros H. inversion H as [|? ? Hs Hall]; subst.
      apply IH in Hs as (H1 & H2 & H3). apply Forall_app in Hall as [A1 A2].
      repeat split; [now constructor|assumption|now constructor].
    + intros (H1 & H2 & H3).
      inversion H1 as [|? ? Hs Hall]; subst.
      inversion H3 as [|? ? Hx H3']; subst.
      constructor; [apply IH; now repeat split|].
      apply Forall_app. now split.
Qed.

Lemma strongly_sorted_rev {B : Type} (R : B -> B -> Prop) (l : list B) :
  StronglySorted R l -> StronglySorted (fun x y => R y x) (rev l).
Proof.
  induction 1 as [|x l Hs IH Hall]; cbn [rev]; [constructor|].
  apply strongly_sorted_app. split; [assumption|].
  split; [repeat constructor|].
  apply Forall_rev. eapply Forall_impl; [|exact Hall].
  intros y Hy. now repeat constructor.
Qed.

Lemma nth_error_split_at {B : Type} (a : list B) (p : nat) (y : B) :
  nth_error a p = Some y ->
  a = firstn p a ++ y :: skipn (S p) a
  /\ firstn (S p) a = firstn p a ++ [y]
  /\ skipn p a = y :: skipn (S p) a.
Proof.
  revert p. induction a as [|x a IH]; intros [|p]; cbn [nth_error];
    try discriminate.
  - intros [= ->]. repeat split.
  - intros H. destruct (IH p H) as (H1 & H2 & H3).
    change (firstn (S (S p)) (x :: a)) with (x :: firstn (S p) a).
    change (firstn (S p) (x :: a)) with (x :: firstn p a).
    change (skipn (S (S p)) (x :: a)) with (skipn (S p) a).
    change (skipn (S p) (x :: a)) with (skipn p a).
    cbn [app].
    repeat split; [now rewrite <- H1|now rewrite H2|exact H3].
Qed.

Section SortByKey.

Context {A : Type}.

Let key_le (p q : float * A) : Prop := PrimFloat.leb (fst p) (fst q) = true.
Let number (p : float * A) : Prop := PrimFloat.is_nan (fst p) = false.
Let tied (d : float) (p : float * A) : bool := PrimFloat.eqb (fst p) d.
Let ascends (p q : float * A) : Prop := key_below q p = false.
Let descends (p q : float * A) : Prop := key_below q p = true.

(** *** A list that is one ascending run *)

Lemma run_ascending_all (prev : float * A) (l : list (float * A)) :
  StronglySorted ascends (prev :: l) -> run_ascending prev l = List.length l.
Proof.
  revert prev. induction l as [|x l IH]; intros prev H; [reflexivity|].
  inversion H as [|? ? Hs Hall]; subst.
  inversion Hall as [|? ? Hx _]; subst.
  cbn [run_ascending List.length]. unfold ascends in Hx. rewrite Hx.
  now rewrite IH.
Qed.

Lemma count_run_in_order (l : list (float * A)) :
  StronglySorted ascends l -> count_run l = (List.length l, false).
Proof.
  intros H. destruct l as [|x0 [|x1 l]]; try reflexivity.
  cbn [count_run]. inversion H as [|? ? Hs Hall]; subst.
  inversion Hall as [|? ? Hx _]; subst. unfold ascends in Hx. rewrite Hx.
  now rewrite (run_ascending_all _ _ Hs).
Qed.

Lemma binarysort_in_order (l : list (float * A)) :
  StronglySorted ascends l ->
  binarysort l = l /\ binarysort_applies l = true.
Proof.
  intros H. unfold binarysort, binarysort_applies.
  rewrite (count_run_in_order _ H). cbn [fst].
  rewrite firstn_all, skipn_all, Nat.eqb_refl, orb_true_r. now split.
Qed.

(** *** The run at the front *)

Lemma run_ascending_le (prev : float * A) (l : list (float * A)) :
  (run_ascending prev l <= List.length l)%nat.
Proof.
  revert prev. induction l as [|x l IH]; intros prev;
    cbn [run_ascending List.length]; [lia|].
  destruct (key_below x prev); [lia|]. specialize (IH x). lia.
Qed.

Lemma run_ascending_sorted (prev : float * A) (l : list (float * A)) :
  number prev -> Forall number l ->
  StronglySorted key_le (prev :: firstn (run_ascending prev l) l).
Proof.
  revert prev. induction l as [|x l IH]; intros prev Hp Hn.
  - cbn. repeat constructor.
  - inversion Hn as [|? ? Hx Hn']; subst. cbn [run_ascending].
    destruct (key_below x prev) eqn:E; cbn [firstn].
    + repeat constructor.
    + specialize (IH x Hx Hn').
      assert (Hle : key_le prev x) by (now apply not_ltb_leb).
      constructor; [assumption|].
      constructor; [assumption|].
      inversion IH as [|? ? _ Hall]; subst.
      eapply Forall_impl; [|exact Hall].
      intros q Hq. unfold key_le in *. eapply leb_trans; eauto.
Qed.

Lemma run_descending_sorted (prev : float * A) (l : list (float * A)) :
  StronglySorted descends (prev :: firstn (run_descending prev l) l).
Proof.
  revert prev. induction l as [|x l IH]; intros prev.
  - cbn. repeat constructor.
  - cbn [run_descending].
    destruct (key_below x prev) eqn:E; cbn [firstn].
    + specialize (IH x).
      constructor; [assumption|].
      constructor; [assumption|].
      inversion IH as [|? ? _ Hall]; subst.
      eapply Forall_impl; [|exact Hall].
      intros q Hq. unfold descends, key_below in *.
      eapply ltb_trans; eauto.
    + repeat constructor.
Qed.

Lemma descends_filter (d : float) (l : list (float * A)) :
  StronglySorted descends l ->
  filter (tied d) (rev l) = filter (tied d) l.
Proof.
  intros H.
  assert (Hlen : (List.length (filter (tied d) l) <= 1)%nat).
  { induction H as [|x l Hs IH Hall]; [cbn; lia|].
    cbn [filter]. destruct (tied d x) eqn:Ex; [|assumption].
    assert (Hnone : filter (tied d) l = []).
    { clear IH Hs. induction l as [|y l IH]; [reflexivity|].
      inversion Hall as [|? ? Hy Hall']; subst. cbn [filter].
      unfold descends, key_below in Hy.
      destruct (tied d y) eqn:Ey.
      - unfold tied in Ex, Ey. now rewrite (ltb_not_tied _ _ _ Hy Ey) in Ex.
      - now apply IH. }
    rewrite Hnone. cbn. lia. }
  rewrite filter_rev.
  destruct (filter (tied d) l) as [|x [|y r]]; try reflexivity.
  cbn in Hlen. lia.
Qed.

Lemma descends_rev_sorted (l : list (float * A)) :
  StronglySorted descends l -> StronglySorted key_le (rev l).
Proof.
  intros H. apply strongly_sorted_rev in H.
  induction H as [|x r Hs IH Hall]; constructor; [assumption|].
  eapply Forall_impl; [|exact Hall].
  intros q Hq. now apply ltb_leb.
Qed.

Lemma count_run_le (l : list (float * A)) :
  (fst (count_run l) <= List.length l)%nat.
Proof.
  destruct l as [|x0 [|x1 l]]; cbn [count_run List.length fst]; try lia.
  destruct (key_below x1 x0); cbn [fst].
  - assert (H : (run_descending x1 l <= List.length l)%nat).
    { clear x0. revert x1. induction l as [|x l IH]; intros x1;
        cbn [run_descending List.length]; [lia|].
      destruct (key_below x x1); [|lia]. specialize (IH x). lia. }
    lia.
  - pose proof (run_ascending_le x1 l). lia.
Qed.

(** The run at the front, as [binarysort] starts from it: in order,
    and with the items of each key in the order they had. *)
Lemma front_run_sorted (l : list (float * A)) :
  Forall number l ->
  let run := firstn (fst (count_run l)) l in
  let start := if snd (count_run l) then rev run else run in
  StronglySorted key_le start
  /\ forall d, filter (tied d) start = filter (tied d) run.
Proof.
  intros Hn. destruct l as [|x0 [|x1 l]].
  - cbn. split; [constructor|reflexivity].
  - cbn. split; [repeat constructor|reflexivity].
  - inversion Hn as [|? ? H0 Hn']; subst.
    inversion Hn' as [|? ? H1 Hn'']; subst.
    cbn [count_run]. destruct (key_below x1 x0) eqn:E; cbn [fst snd firstn].
    + assert (Hd : StronglySorted descends
                     (x0 :: x1 :: firstn (run_descending x1 l) l)).
      { pose proof (run_descending_sorted x1 l) as Hs.
        constructor; [assumption|]. constructor; [assumption|].
        inversion Hs as [|? ? _ Hall]; subst.
        eapply Forall_impl; [|exact Hall].
        intros q Hq. unfold descends, key_below in *.
        eapply ltb_trans; eauto. }
      split; [now apply descends_rev_sorted|].
      intros d. now apply descends_filter.
    + split; [|reflexivity].
      pose proof (run_ascending_sorted x1 l H1 Hn'') as Hs.
      assert (Hle : key_le x0 x1) by (now apply not_ltb_leb).
      constructor; [assumption|]. constructor; [assumption|].
      inversion Hs as [|? ? _ Hall]; subst.
      eapply Forall_impl; [|exact Hall].
      intros q Hq. unfold key_le in *. eapply leb_trans; eauto.
Qed.

(** *** The binary search *)

Lemma above_not_tied (d : float) (pivot : float * A) (l : list (float * A)) :
  tied d pivot = true ->
  Forall (fun y => key_below pivot y = true) l ->
  filter (tied d) l = [].
Proof.
  intros Ep. induction 1 as [|z t Hz _ IH]; [reflexivity|].
  cbn [filter]. unfold tied in *. unfold key_below in Hz.
  now rewrite (ltb_not_tied _ _ _ Hz Ep).
Qed.

Section Place.

Variable pivot : float * A.
Variable a : list (float * A).
Hypothesis Hpivot : number pivot.
Hypothesis Ha : Forall number a.
Hypothesis Hsorted : StronglySorted key_le a.

(** Every item before [p] is at most the pivot, every item from [p] on
    is above it. *)
Let place (l r : nat) : Prop :=
  (l <= r <= List.length a)%nat
  /\ Forall (fun y => key_below pivot y = false) (firstn l a)
  /\ Forall (fun y => key_below pivot y = true) (skipn r a).

Lemma bisect_place (turns l r : nat) :
  (r - l <= turns)%nat -> place l r ->
  place (bisect turns pivot a l r) (bisect turns pivot a l r).
Proof.
  revert l r. induction turns as [|turns IH]; intros l r Ht (Hlr & Hl & Hr).
  - cbn [bisect]. assert (r = l) by lia. subst r. now repeat split.
  - cbn [bisect]. destruct (l <? r)%nat eqn:E.
    2:{ apply Nat.ltb_ge in E. assert (r = l) by lia. subst r.
        now repeat split. }
    apply Nat.ltb_lt in E.
    set (p := (l + (r - l) / 2)%nat).
    assert (Hp : (l <= p < r)%nat).
    { unfold p. split; [lia|].
      assert ((r - l) / 2 < r - l)%nat by (apply Nat.div_lt; lia). lia. }
    destruct (nth_error a p) as [y|] eqn:Hy.
    2:{ apply nth_error_None in Hy. lia. }
    destruct (nth_error_split_at _ _ _ Hy) as (Esplit & Efirst & Eskip).
    assert (Hs := Hsorted). rewrite Esplit in Hs.
    apply strongly_sorted_app in Hs as (_ & Hs2 & Hcross).
    inversion Hs2 as [|? ? _ Hafter]; subst.
    assert (Hynum : number y) by
      (rewrite Forall_forall in Ha; apply Ha; eapply nth_error_In; eauto).
    destruct (key_below pivot y) eqn:Hlt.
    + apply IH; [lia|]. split; [lia|]. split; [assumption|].
      rewrite Eskip. constructor; [assumption|].
      eapply Forall_impl; [|exact Hafter].
      intros z Hz. unfold key_below, key_le in *.
      eapply ltb_leb_trans; eauto.
    + apply IH; [lia|]. split; [lia|]. split; [|assumption].
      assert (Hle : key_le y pivot) by (now apply not_ltb_leb).
      rewrite Efirst. apply Forall_app. split; [|now repeat constructor].
      eapply Forall_impl; [|exact Hcross].
      intros z Hz. inversion Hz as [|? ? Hzy _]; subst.
      unfold key_below, key_le in *. apply leb_not_ltb.
      eapply leb_trans; eauto.
Qed.

Lemma binary_insert_sorted :
  StronglySorted key_le (binary_insert a pivot)
  /\ forall d,
       filter (tied d) (binary_insert a pivot)
       = filter (tied d) (a ++ [pivot]).
Proof.
  unfold binary_insert. set (p := bisect _ _ _ _ _).
  assert (Hplace : place p p).
  { apply bisect_place; [lia|]. split; [lia|]. split; [constructor|].
    rewrite skipn_all. constructor. }
  destruct Hplace as (Hp & Hbefore & Hafter).
  assert (Hs := Hsorted). rewrite <- (firstn_skipn p a) in Hs.
  apply strongly_sorted_app in Hs as (Hs1 & Hs2 & Hcross).
  assert (Hnum1 : Forall number (firstn p a)).
  { rewrite Forall_forall in *. intros z Hz. apply Ha.
    rewrite <- (firstn_skipn p a). apply in_or_app. now left. }
  split.
  - apply strongly_sorted_app. split; [assumption|]. split.
    + constructor; [assumption|].
      eapply Forall_impl; [|exact Hafter]. intros z Hz. now apply ltb_leb.
    + rewrite Forall_forall in *. intros z Hz.
      constructor; [|now apply Hcross].
      apply not_ltb_leb; [now apply Hnum1|assumption|now apply Hbefore].
  - intros d. rewrite !filter_app. cbn [filter].
    assert (Ea : filter (tied d) a
                 = filter (tied d) (firstn p a)
                   ++ filter (tied d) (skipn p a))
      by (now rewrite <- filter_app, firstn_skipn).
    rewrite Ea, <- app_assoc. f_equal.
    destruct (tied d pivot) eqn:Ep.
    + now rewrite (above_not_tied d pivot _ Ep Hafter).
    + now rewrite app_nil_r.
Qed.

End Place.

Lemma fold_binary_insert_sorted (rest run : list (float * A)) :
  Forall number run -> Forall number rest ->
  StronglySorted key_le run ->
  StronglySorted key_le (fold_left binary_insert rest run)
  /\ forall d,
       filter (tied d) (fold_left binary_insert rest run)
       = filter (tied d) (run ++ rest).
Proof.
  revert run. induction rest as [|x rest IH]; intros run Hrun Hrest Hs.
  - cbn [fold_left]. rewrite app_nil_r. now split.
  - inversion Hrest as [|? ? Hx Hrest']; subst. cbn [fold_left].
    destruct (binary_insert_sorted x run Hx Hrun Hs) as [Hs' Hf].
    assert (Hnum : Forall number (binary_insert run x)).
    { eapply Permutation_Forall; [apply binary_insert_perm|].
      apply Forall_app. split; [assumption|now repeat constructor]. }
    destruct (IH _ Hnum Hrest' Hs') as [Hs'' Hf'].
    split; [assumption|]. intros d.
    rewrite Hf', !filter_app, Hf, filter_app, <- app_assoc.
    f_equal. cbn [filter]. now destruct (tied d x).
Qed.

Lemma binarysort_sorted (l : list (float * A)) :
  Forall number l ->
  StronglySorted key_le (binarysort l)
  /\ forall d, filter (tied d) (binarysort l) = filter (tied d) l.
Proof.
  intros Hn. unfold binarysort.
  destruct (front_run_sorted l Hn) as [Hs Hf].
  destruct (count_run l) as [n descending]. cbn [fst snd] in Hs, Hf.
  assert (Hn1 : Forall number (firstn n l)).
  { rewrite Forall_forall in *. intros z Hz. apply Hn.
    rewrite <- (firstn_skipn n l). apply in_or_app. now left. }
  assert (Hn2 : Forall number (skipn n l)).
  { rewrite Forall_forall in *. intros z Hz. apply Hn.
    rewrite <- (firstn_skipn n l). apply in_or_app. now right. }
  assert (Hstart : Forall number
                     (if descending then rev (firstn n l) else firstn n l)).
  { destruct descending; [now apply Forall_rev|assumption]. }
  destruct (fold_binary_insert_sorted _ _ Hstart Hn2 Hs) as [Hs' Hf'].
  split; [assumption|]. intros d.
  rewrite Hf', filter_app, Hf, <- filter_app, firstn_skipn. reflexivity.
Qed.

End SortByKey.

Lemma nan_free_number {A : Type} (l : list (float * A)) :
  Forall (fun p => PrimFloat.is_nan (fst p) = false) l -> nan_free l = true.
Proof.
  induction 1 as [|x l Hx _ IH]; [reflexivity|].
  cbn [nan_free forallb]. rewrite Hx. exact IH.
Qed.

Lemma list_sort_sorted (M : libm) (l : list (float * entry)) :
  Forall (fun p => PrimFloat.is_nan (fst p) = false) l ->
  StronglySorted (fun p q => PrimFloat.leb (fst p) (fst q) = true)
    (list_sort M l)
  /\ forall d,
       filter (fun p => PrimFloat.eqb (fst p) d) (list_sort M l)
       = filter (fun p => PrimFloat.eqb (fst p) d) l.
Proof.
  intros Hn. unfold list_sort, binarysort_applies.
  rewrite (nan_free_number _ Hn), orb_true_r.
  now apply binarysort_sorted.
Qed.

Lemma list_sort_in_order (M : libm) (l : list (float * entry)) :
  StronglySorted (fun p q => PrimFloat.ltb (fst q) (fst p) = false) l ->
  list_sort M l = l.
Proof.
  intros H. unfold list_sort.
  destruct (binarysort_in_order l H) as [E1 E2]. now rewrite E2.
Qed.

Lemma dist_keys_not_nan (l : list entry) (kl : list (float * entry)) :
  dist_keys l = Some kl -> forallb dist_not_nan l = true ->
  Forall (fun p => PrimFloat.is_nan (fst p) = false) kl.
Proof.
  revert kl. induction l as [|e l IH]; intros kl; cbn [dist_keys forallb].
  - intros [= <-] _. constructor.
  - unfold dist_not_nan at 1. destruct (e_dist e) as [d|]; [|discriminate].
    destruct (dist_keys l) as [r|]; [|discriminate].
    intros [= <-] H. apply andb_true_iff in H as [H1 H2].
    constructor; [now apply negb_true_iff in H1|now apply IH].
Qed.

Lemma sort_by_dist_sorted (M : libm) (l l' : list entry) :
  sort_by_dist M l = Some l' -> forallb dist_not_nan l = true ->
  StronglySorted dist_le l'.
Proof.
  unfold sort_by_dist.
  destruct (dist_keys l) as [kl|] eqn:Hk; [|discriminate].
  intros [= <-] Hn.
  destruct (list_sort_sorted M kl (dist_keys_not_nan _ _ Hk Hn)) as [Hs _].
  assert (Hd : Forall (fun p => e_dist (snd p) = Some (fst p))
                 (list_sort M kl)).
  { eapply Permutation_Forall; [apply list_sort_perm|].
    now apply (dist_keys_fst l). }
  induction Hs as [|p s Hs IH Hall]; [constructor|].
  inversion Hd as [|? ? Hp Hd']; subst. cbn [map].
  constructor; [now apply IH|].
  apply Forall_map. rewrite Forall_forall in *.
  intros q Hq. unfold dist_le. rewrite Hp, (Hd' q Hq). now apply Hall.
Qed.

Lemma filter_map_snd (d : float) (s : list (float * entry)) :
  Forall (fun p => e_dist (snd p) = Some (fst p)) s ->
  filter (dist_is d) (map snd s)
  = map snd (filter (fun p => PrimFloat.eqb (fst p) d) s).
Proof.
  induction 1 as [|p s Hp Hs IH]; [reflexivity|].
  cbn [map filter]. unfold dist_is at 1. rewrite Hp, IH.
  now destruct (PrimFloat.eqb (fst p) d).
Qed.

Lemma sort_by_dist_stable (M : libm) (d : float) (l l' : list entry) :
  sort_by_dist M l = Some l' -> forallb dist_not_nan l = true ->
  filter (dist_is d) l' = filter (dist_is d) l.
Proof.
  unfold sort_by_dist.
  destruct (dist_keys l) as [kl|] eqn:Hk; [|discriminate].
  intros [= <-] Hn.
  pose proof (dist_keys_fst _ _ Hk) as Hd.
  destruct (list_sort_sorted M kl (dist_keys_not_nan _ _ Hk Hn)) as [_ Hf].
  rewrite filter_map_snd by
    (eapply Permutation_Forall; [apply list_sort_perm|assumption]).
  rewrite Hf, <- filter_map_snd by assumption.
  now rewrite (dist_keys_snd _ _ Hk).
Qed.

Lemma in_order_has_dist (l : list entry) :
  in_order l -> (1 < List.length l)%nat -> forallb has_dist l = true.
Proof.
  induction 1 as [|e l Hs IH Hall]; [reflexivity|].
  cbn [List.length forallb]. intros Hlen.
  destruct l as [|e' l]; [cbn in Hlen; lia|].
  inversion Hall as [|? ? H1 _]; subst.
  unfold has_dist at 1. destruct (e_dist e); [|contradiction].
  cbn [andb]. destruct l as [|e'' l].
  - cbn. unfold has_dist. destruct (e_dist e'); [reflexivity|contradiction].
  - apply IH. cbn. lia.
Qed.

Lemma sort_by_dist_in_order (M : libm) (l : list entry) :
  in_order l -> forallb has_dist l = true -> sort_by_dist M l = Some l.
Proof.
  intros Ho Hd. unfold sort_by_dist.
  destruct (dist_keys_total _ Hd) as [kl Hk]. rewrite Hk.
  rewrite list_sort_in_order; [now rewrite (dist_keys_snd _ _ Hk)|].
  pose proof (dist_keys_fst _ _ Hk) as Hf.
  rewrite <- (dist_keys_snd _ _ Hk) in Ho. clear Hk Hd.
  induction kl as [|p kl IH]; [constructor|].
  inversion Ho as [|? ? Hs Hall]; subst.
  inversion Hf as [|? ? Hp Hf']; subst.
  constructor; [now apply IH|].
  rewrite Forall_map in Hall. rewrite Forall_forall in *.
  intros q Hq. specialize (Hall q Hq). now rewrite Hp, (Hf' q Hq) in Hall.
Qed.

(** ** The result set after a search *)

Example five_listed_names :
  map e_name (filtered_rstrts five_listed)
  = ["Near"; "Middle"; "Far"; "Nowhere"; "Unplaced"].
Proof. reflexivity. Qed.

(** C5, as the code has it.  When the store has answered and the search
    returns, and the distances it has set are numbers (none is a NaN),
    the result set is in non-decreasing order of distance: every entry
    is at most as far as each entry after it.  The result set is a
    rearrangement of the documents found, taken in the order the store
    gave them, and for each distance the entries at that distance are
    in the result set in the order they had there.  This is what a
    search with a condition comes to, whatever the condition, when the
    store answers it with these documents. *)
Theorem update_rstrts_sorted_stable (M : libm) (found : list restaurant)
  (c c' : Controller) :
  update_rstrts_found M found c = Return c' ->
  forallb dist_not_nan (filtered_rstrts c') = true ->
  StronglySorted dist_le (filtered_rstrts c')
  /\ (exists before,
        set_distances M (cur_coord c) (map projection found) = Return before
        /\ map e_id before = map restaurant_id found
        /\ Permutation before (filtered_rstrts c')
        /\ forall d,
             filter (dist_is d) (filtered_rstrts c')
             = filter (dist_is d) before)
  /\ forall cond,
       mongo_find (query_of cond) (mycol c) = Some found ->
       update_rstrts M cond c = Some (Return c').
Proof.
  intros Hrun Hn. pose proof Hrun as Hrun'. revert Hrun'.
  unfold update_rstrts_found.
  cbn [filtered_rstrts with_filtered cur_coord].
  destruct (set_distances M (cur_coord c) (map projection found))
    as [l|x l] eqn:Hs; [|discriminate].
  destruct (sort_by_dist M l) as [l'|] eqn:Hsort; [|discriminate].
  intros [= E]. rewrite <- E in Hn |- *.
  cbn [filtered_rstrts with_filtered] in Hn |- *.
  pose proof (sort_by_dist_perm M _ _ Hsort) as Hp.
  assert (Hn' : forallb dist_not_nan l = true)
    by (now rewrite (forallb_perm dist_not_nan _ _ Hp)).
  split; [now apply (sort_by_dist_sorted M l)|]. split.
  - exists l. split; [reflexivity|]. split.
    + pose proof (set_distances_ids M (cur_coord c) (map projection found))
        as Hi.
      rewrite Hs in Hi. cbn in Hi. rewrite Hi, map_map. reflexivity.
    + split; [assumption|]. intros d. now apply (sort_by_dist_stable M).
  - intros cond Hf. rewrite (update_rstrts_answer M cond c found Hf).
    now rewrite Hrun, E.
Qed.

Lemma update_rstrts_sorted_stable_witness :
  StronglySorted dist_le (filtered_rstrts five_listed)
  /\ (exists before,
        set_distances libm_small_angle (cur_coord five_controller)
          (map projection (documents five_records))
        = Return before
        /\ map e_id before = map restaurant_id (documents five_records)
        /\ Permutation before (filtered_rstrts five_listed)
        /\ forall d,
             filter (dist_is d) (filtered_rstrts five_listed)
             = filter (dist_is d) before)
  /\ forall cond,
       mongo_find (query_of cond) (mycol five_controller)
       = Some (documents five_records) ->
       update_rstrts libm_small_angle cond five_controller
       = Some (Return five_listed).
Proof.
  apply (update_rstrts_sorted_stable libm_small_angle
           (documents five_records) five_controller five_listed);
    vm_compute; reflexivity.
Defined.

(** C5 fails as stated: a stored coordinate that is a NaN gives a NaN
    for the distance, and the search returns with the entries as the
    store gave them, the nearest record last. *)
Lemma update_rstrts_unsorted_with_nan :
  option_map
    (fun o => (returned o, map e_name (filtered_rstrts (final o))))
    (update_rstrts libm_small_angle no_condition lost_controller)
  = Some (true, ["Far"; "Lost"; "Near"])
  /\ option_map
       (fun o =>
          match map e_dist (filtered_rstrts (final o)) with
          | [Some far; Some lost; Some near] =>
              (PrimFloat.is_nan lost, PrimFloat.ltb near far,
               PrimFloat.leb far lost, PrimFloat.leb lost near)
          | _ => (false, false, true, true)
          end)
       (update_rstrts libm_small_angle no_condition lost_controller)
     = Some (true, true, false, false).
Proof. split; vm_compute; reflexivity. Qed.

(** ** Editing the coordinate *)

Lemma patch_dist_no_match (M : libm) (rid : string) (lng lat : option float)
  (ref : float * float) (l : list entry) :
  forallb (other_id rid) l = true -> patch_dist M rid lng lat ref l = NoMatch.
Proof.
  induction l as [|e l IH]; [reflexivity|].
  cbn [forallb patch_dist]. unfold other_id at 1.
  destruct (String.eqb (e_id e) rid); [discriminate|].
  cbn [negb andb]. intros H. now rewrite IH.
Qed.

Lemma patch_dist_first_match (M : libm) (rid : string)
  (lng lat : option float) (ref : float * float)
  (before after : list entry) (e : entry) :
  forallb (other_id rid) before = true ->
  String.eqb (e_id e) rid = true ->
  patch_dist M rid lng lat ref (before ++ e :: after)
  = if truthy lng && truthy lat then
      match geodistance M lng lat (Some (fst ref)) (Some (snd ref)) with
      | inl d => Patched (before ++ set_dist d e :: after)
      | inr x => PatchRaised x
      end
    else Patched (before ++ set_dist sentinel e :: after).
Proof.
  intros Hb He. induction before as [|e0 before IH].
  - cbn [app patch_dist]. rewrite He.
    destruct (truthy lng && truthy lat); [|reflexivity].
    now destruct (geodistance _ _ _ _ _).
  - cbn [forallb] in Hb. apply andb_true_iff in Hb as [H0 Hb].
    unfold other_id in H0. apply negb_true_iff in H0.
    cbn [app patch_dist]. rewrite H0, (IH Hb).
    destruct (truthy lng && truthy lat); [|reflexivity].
    now destruct (geodistance _ _ _ _ _).
Qed.

(** C3, as the code has it.  With a record selected and each component
    of the new coordinate either null or a number other than zero,
    [edit_coord] writes [address.coord] of the first stored document
    with the id and of the selected record, and nothing else of them;
    it leaves the other documents, the position and the reference
    point, and touches the result set as follows.  If some entry has
    the id of the selected record, the first such entry gets a new
    distance, the result of [geodistance] against the reference point
    when both components are numbers and 99999.99 when one is null, and
    every entry stays in its place (if [geodistance] raises, the result
    set is as it was).  If no entry has the id, the result set is
    sorted by [list.sort] on the distances: the entries are rearranged;
    a result set that was in order is as it was; and when no distance
    is a NaN the entries end in non-decreasing order of distance, those
    at the same distance in the order they had.  If an entry has no
    distance the sort raises [KeyError] and the result set is as it
    was. *)
Theorem edit_coord_frame (M : libm) (c : Controller) (r : restaurant)
  (lng lat : option float) :
  cur_rstrt c = Some r ->
  null_or_nonzero lng -> null_or_nonzero lat ->
  edit_coord_effect M lng lat c r (edit_coord M lng lat c).
Proof.
  intros Hsel Hlng Hlat. unfold edit_coord_effect, edit_coord.
  rewrite Hsel.
  change (update_one (restaurant_id r) _ (mycol c))
    with (update_one (restaurant_id r) (moved lng lat) (mycol c)).
  set (col := update_one _ _ _).
  change (set_address _ r) with (moved lng lat r).
  change (restaurant_id (moved lng lat r)) with (restaurant_id r).
  set (c1 := with_cur_rstrt (Some (moved lng lat r)) (with_mycol col c)).
  change (cur_coord c1) with (cur_coord c).
  change (filtered_rstrts c1) with (filtered_rstrts c).
  assert (Hfinal :
    forall o, (exists l, o = Return (with_filtered l c1))
              \/ (exists x, o = Raise x c1) ->
    mycol (final o) = col /\ cur_rstrt (final o) = Some (moved lng lat r)
    /\ cur_index (final o) = cur_index c
    /\ cur_coord (final o) = cur_coord c).
  { intros o [[l ->]|[x ->]]; repeat split; reflexivity. }
  match goal with
  | |- first_replaced _ _ _ (documents (mycol (final ?o))) /\ _ =>
      assert (Ho : (exists l, o = Return (with_filtered l c1))
                   \/ (exists x, o = Raise x c1))
  end.
  { destruct (patch_dist _ _ _ _ _ _); [left; now eexists|right; now eexists|].
    destruct (sort_by_dist _ _); [left; now eexists|right; now eexists]. }
  destruct (Hfinal _ Ho) as (H1 & H2 & H3 & H4).
  rewrite H1.
  split; [unfold col, update_one; cbn [documents with_documents];
          apply update_first_replaced|].
  split; [reflexivity|].
  split; [exact H2|]. split; [exact H3|].
  split; [exact H4|]. clear Hfinal Ho H1 H2 H3 H4.
  split.
  - intros before e after Hl Hb He.
    rewrite Hl, (patch_dist_first_match M _ lng lat _ before after e Hb He).
    change (set_dist ?d e) with (relisted d e).
    destruct Hlng as [->|Tlng]; [cbn; now split|].
    destruct Hlat as [->|Tlat]; [rewrite Tlng; cbn|].
    + destruct lng; [now split|discriminate].
    + rewrite Tlng, Tlat. cbn [andb].
      destruct lng as [x|]; [|discriminate].
      destruct lat as [y|]; [|discriminate].
      destruct (geodistance M (Some x) (Some y) _ _); cbn;
        now rewrite ?Hl.
  - intros Hn. rewrite (patch_dist_no_match M _ lng lat _ _ Hn).
    split.
    + intros Hd. unfold sort_by_dist.
      rewrite (dist_keys_none _ Hd). now split.
    + intros Hd. destruct (dist_keys_total _ Hd) as [kl Hk].
      destruct (sort_by_dist M (filtered_rstrts c)) as [l'|] eqn:Hsort.
      2:{ unfold sort_by_dist in Hsort. rewrite Hk in Hsort. discriminate. }
      cbn [final filtered_rstrts with_filtered].
      split; [reflexivity|].
      split; [now apply (sort_by_dist_perm M)|].
      split.
      * intros Ho. rewrite (sort_by_dist_in_order M _ Ho Hd) in Hsort.
        congruence.
      * intros Hnan.
        split; [now apply (sort_by_dist_sorted M (filtered_rstrts c))|].
        intros d. now apply (sort_by_dist_stable M).
Qed.

Lemma edit_coord_frame_witness :
  edit_coord_effect libm_small_angle (Some (-73.5)%float) (Some 41.5%float)
    sample_controller pizza_place
    (edit_coord libm_small_angle (Some (-73.5)%float) (Some 41.5%float)
       sample_controller).
Proof.
  apply (edit_coord_frame libm_small_angle sample_controller pizza_place);
    [reflexivity|right; reflexivity|right; reflexivity].
Defined.

(** The coordinate after the edit, written out, for the selected record
    and for the stored one; the other fields of the address stay. *)
Example edit_coord_sample :
  option_map r_address
    (cur_rstrt
       (final
          (edit_coord libm_small_angle (Some (-73.5)%float)
             (Some 41.5%float) sample_controller)))
  = Some {| building := "1";
            coord := Some [Some (-73.5)%float; Some 41.5%float];
            street := "Main St"; zipcode := "10001" |}
  /\ map (fun d => coord (r_address d))
       (documents
          (mycol
             (final
                (edit_coord libm_small_angle (Some (-73.5)%float)
                   (Some 41.5%float) sample_controller))))
     = [Some [Some (-73.5)%float; Some 41.5%float]; None].
Proof. split; reflexivity. Qed.

Example edit_coord_in_place :
  map e_name
    (filtered_rstrts
       (final (edit_coord libm_small_angle (Some (-60)%float)
                 (Some 10%float)
                 (with_cur_rstrt
                    (nth_error (documents five_records) 2)
                    five_listed))))
  = ["Near"; "Middle"; "Far"; "Nowhere"; "Unplaced"]
  /\ match nth_error
             (filtered_rstrts
                (final (edit_coord libm_small_angle (Some (-60)%float)
                          (Some 10%float)
                          (with_cur_rstrt
                             (nth_error (documents five_records) 2)
                             five_listed)))) 0 with
     | Some e => option_map (PrimFloat.ltb 3000) (e_dist e)
     | None => None
     end = Some true.
Proof. split; vm_compute; reflexivity. Qed.

(** C3 fails as stated: with the entries out of order and the selected
    record not among them, [edit_coord] returns with the entries in a
    new order. *)
Lemma edit_coord_sorts_without_match :
  filtered_rstrts out_of_order
  = [listed pizza_place 17.982; listed sushi_bar 5]
  /\ edit_coord libm_raising (Some 1.5%float) (Some 2.5%float) out_of_order
     = Return
         {| mycol := sample_collection;
            filtered_rstrts := [listed sushi_bar 5;
                                listed pizza_place 17.982];
            cur_index := Some 0;
            cur_rstrt :=
              Some (set_address
                      (set_coord (Some [Some 1.5%float; Some 2.5%float])
                         (r_address on_the_meridian))
                      on_the_meridian);
            cur_coord := ((-73.9)%float, 40.9%float) |}.
Proof. split; reflexivity. Qed.

(** ** Patterns: the matcher against the words *)










(** ** Patterns: a plain text between two runs of any characters *)









(** ** Patterns: reading a plain text *)





(** ** Searching with a plain condition *)













(** ** Searching with any condition the store's answer is written out for *)







Example update_rstrts_pizza :
  option_map (fun o => map e_name (filtered_rstrts (final o)))
    (update_rstrts libm_small_angle (name_is "PIZZA")
       (init sample_collection))
  = Some ["Pizza Place"]
  /\ constraint_of None = None
  /\ constraint_of (Some "") = None.
Proof. repeat split; vm_compute; reflexivity. Qed.


(** ** Examples of runs *)

Example regex_examples :
  regex_search_i "(.*)(piz)(.*)" "Joe's PIZZA" = Some true
  /\ regex_search_i "(.*)(pizza)(.*)" "Sushi Bar" = Some false
  /\ regex_search_i "(.*)(a|z)(.*)" "Sushi Bar" = Some true
  /\ regex_search_i "(.*)(su+shi)(.*)" "Suuushi Bar" = Some true
  /\ regex_search_i "(.*)(()(.*)" "abc" = None.
Proof. repeat split; reflexivity. Qed.

(** The methods of the controller lead to a result set out of order in
    which the selected record is not found: select the nearest record,
    move it far away, give it another id, and edit its coordinate again.
    The last call sorts the result set. *)
Example edit_coord_sorts_after_edit_info :
  let run :=
    and_then
      (and_then
         (update_cur_rstrt (Some 0) five_listed)
         (edit_coord libm_small_angle (Some (-60)%float) (Some 10%float)))
      (edit_info [(KRestaurantId, "39999999")]) in
  map e_name (filtered_rstrts (final run))
  = ["Near"; "Middle"; "Far"; "Nowhere"; "Unplaced"]
  /\ (returned
        (and_then run
           (edit_coord libm_small_angle (Some (-60)%float) (Some 10%float))),
      map e_name
        (filtered_rstrts
           (final
              (and_then run
                 (edit_coord libm_small_angle (Some (-60)%float)
                    (Some 10%float))))))
     = (true, ["Middle"; "Far"; "Near"; "Nowhere"; "Unplaced"]).
Proof. split; vm_compute; reflexivity. Qed.

(** ** The distance a search gives to a record *)







(** ** Ids of one length: the order of strings is the order of numbers *)

Lemma digit_val_bounds (c : ascii) :
  is_digit c = true -> 0 <= digit_val c <= 9.
Proof.
  unfold is_digit, digit_val. intros H. apply andb_true_iff in H as [H1 H2].
  apply Nat.leb_le in H1, H2. lia.
Qed.

Lemma fold_digits_acc (l : list ascii) (acc : Z) :
  fold_left (fun acc c => 10 * acc + digit_val c) l acc
  = acc * 10 ^ Z.of_nat (List.length l) + digits_value l.
Proof.
  unfold digits_value. revert acc.
  induction l as [|c l IH]; intros acc; cbn [fold_left List.length].
  - cbn. lia.
  - rewrite IH, (IH (10 * 0 + digit_val c)), Nat2Z.inj_succ, Z.pow_succ_r by lia.
    ring.
Qed.

Lemma digits_value_cons (c : ascii) (l : list ascii) :
  digits_value (c :: l)
  = digit_val c * 10 ^ Z.of_nat (List.length l) + digits_value l.
Proof.
  unfold digits_value at 1. cbn [fold_left]. rewrite fold_digits_acc. ring.
Qed.

Lemma digits_value_bounds (l : list ascii) :
  forallb is_digit l = true ->
  0 <= digits_value l < 10 ^ Z.of_nat (List.length l).
Proof.
  induction l as [|c l IH]; cbn [forallb List.length].
  - intros _. cbn. lia.
  - intros H. apply andb_true_iff in H as [Hc Hl].
    rewrite digits_value_cons, Nat2Z.inj_succ, Z.pow_succ_r by lia.
    pose proof (digit_val_bounds c Hc). specialize (IH Hl).
    assert (0 < 10 ^ Z.of_nat (List.length l)) by (apply Z.pow_pos_nonneg; lia).
    nia.
Qed.

Lemma ascii_compare_digit_val (a b : ascii) :
  Ascii.compare a b = (digit_val a ?= digit_val b).
Proof.
  unfold Ascii.compare, digit_val, nat_of_ascii.
  rewrite !N_nat_Z, <- N2Z.inj_compare.
  destruct (Z.compare_spec (Z.of_N (N_of_ascii a)) (Z.of_N (N_of_ascii b)));
    symmetry; [apply Z.compare_eq_iff|apply Z.compare_lt_iff
              |apply Z.compare_gt_iff]; lia.
Qed.

Lemma length_list_ascii (s : string) :
  List.length (list_ascii_of_string s) = String.length s.
Proof. induction s as [|c s IH]; cbn; congruence. Qed.

Lemma compare_numerals (s t : string) :
  String.length s = String.length t ->
  forallb is_digit (list_ascii_of_string s) = true ->
  forallb is_digit (list_ascii_of_string t) = true ->
  String.compare s t
  = (digits_value (list_ascii_of_string s)
     ?= digits_value (list_ascii_of_string t)).
Proof.
  revert t. induction s as [|a s IH]; intros [|b t]; try discriminate.
  - reflexivity.
  - cbn [String.length list_ascii_of_string forallb String.compare].
    intros [= Hlen] Hs Ht.
    apply andb_true_iff in Hs as [Ha Hs]. apply andb_true_iff in Ht as [Hb Ht].
    rewrite !digits_value_cons, !length_list_ascii, Hlen.
    rewrite ascii_compare_digit_val.
    pose proof (digit_val_bounds a Ha). pose proof (digit_val_bounds b Hb).
    pose proof (digits_value_bounds _ Hs) as Bs.
    pose proof (digits_value_bounds _ Ht) as Bt.
    rewrite length_list_ascii in Bs, Bt. rewrite Hlen in Bs.
    set (P := 10 ^ Z.of_nat (String.length t)) in *.
    destruct (Z.compare_spec (digit_val a) (digit_val b)) as [E|L|G].
    + rewrite E, Z.add_compare_mono_l. now apply IH.
    + symmetry. apply Z.compare_lt_iff. nia.
    + symmetry. apply Z.compare_gt_iff. nia.
Qed.

Lemma digit_not_space (c : ascii) : is_digit c = true -> is_space c = false.
Proof.
  unfold is_digit, is_space. intros H. apply andb_true_iff in H as [H1 H2].
  apply Nat.leb_le in H1, H2.
  repeat match goal with
  | |- context [(?x =? ?y)%nat] => destruct (Nat.eqb_spec x y); [lia|]
  | |- context [(?x <=? ?y)%nat] =>
      destruct (Nat.leb_spec x y); cbn [andb orb]; try lia
  end; reflexivity.
Qed.

Lemma lstrip_digits (l : list ascii) :
  forallb is_digit l = true -> lstrip l = l.
Proof.
  destruct l as [|c l]; [reflexivity|]. cbn [forallb lstrip]. intros H.
  apply andb_true_iff in H as [H _]. now rewrite (digit_not_space c H).
Qed.

Lemma forallb_rev {A : Type} (f : A -> bool) (l : list A) :
  forallb f (rev l) = forallb f l.
Proof. apply forallb_perm. symmetry. apply Permutation_rev. Qed.

Lemma strip_digits (l : list ascii) :
  forallb is_digit l = true -> strip l = l.
Proof.
  intros H. unfold strip. rewrite (lstrip_digits l H).
  rewrite lstrip_digits by now rewrite forallb_rev.
  apply rev_involutive.
Qed.

Lemma int_digits_value (l : list ascii) (acc : Z) :
  forallb is_digit l = true ->
  int_digits acc l
  = Some (fold_left (fun acc c => 10 * acc + digit_val c) l acc).
Proof.
  revert acc. induction l as [|c l IH]; intros acc; [reflexivity|].
  cbn [forallb int_digits fold_left]. intros H.
  apply andb_true_iff in H as [Hc Hl]. rewrite Hc. now apply IH.
Qed.

Lemma digit_not_sign (c : ascii) :
  is_digit c = true -> c <> "-"%char /\ c <> "+"%char.
Proof. intros H. split; intros ->; discriminate. Qed.

Lemma py_int_numeral (s : string) :
  s <> "" -> forallb is_digit (list_ascii_of_string s) = true ->
  py_int s = Some (digits_value (list_ascii_of_string s)).
Proof.
  intros Hne Hd. unfold py_int. rewrite (strip_digits _ Hd).
  destruct s as [|c s]; [congruence|]. cbn [list_ascii_of_string] in *.
  cbn [forallb] in Hd. apply andb_true_iff in Hd as [Hc Hs].
  destruct (digit_not_sign c Hc) as [Hm Hp].
  assert (Hu : int_unsigned (c :: list_ascii_of_string s)
               = Some (digits_value (c :: list_ascii_of_string s))).
  { cbn [int_unsigned]. rewrite Hc, (int_digits_value _ _ Hs).
    unfold digits_value. cbn [fold_left]. reflexivity. }
  destruct c as [[] [] [] [] [] [] [] []]; try exact Hu; congruence.
Qed.

Lemma find_one_max_id_greatest (k : nat) (l : list restaurant)
  (m0 : restaurant) :
  numeral k (restaurant_id m0) = true ->
  forallb (fun d => numeral k (restaurant_id d)) l = true ->
  exists m,
    fold_left
      (fun acc d =>
         match acc with
         | None => Some d
         | Some m =>
             if String.ltb (restaurant_id m) (restaurant_id d) then Some d
             else acc
         end) l (Some m0) = Some m
    /\ In m (m0 :: l)
    /\ id_value m0 <= id_value m
    /\ Forall (fun d => id_value d <= id_value m) l.
Proof.
  revert m0. induction l as [|d l IH]; intros m0 H0 Hl.
  - exists m0. cbn. repeat split; [now left|lia|constructor].
  - cbn [forallb] in Hl. apply andb_true_iff in Hl as [Hd Hl].
    cbn [fold_left]. unfold String.ltb.
    assert (Hcmp : String.compare (restaurant_id m0) (restaurant_id d)
                   = (id_value m0 ?= id_value d)).
    { unfold numeral in H0, Hd. apply andb_true_iff in H0 as [L0 D0].
      apply andb_true_iff in Hd as [Ld Dd].
      apply Nat.eqb_eq in L0, Ld. apply compare_numerals; congruence. }
    rewrite Hcmp.
    destruct (Z.compare_spec (id_value m0) (id_value d)) as [E|L|G].
    + destruct (IH m0 H0 Hl) as (m & Hm & Hin & Hle & Hall).
      exists m. split; [assumption|]. split; [|split].
      * destruct Hin as [<-|Hin]; [now left|now right; right].
      * assumption.
      * constructor; [lia|assumption].
    + destruct (IH d Hd Hl) as (m & Hm & Hin & Hle & Hall).
      exists m. split; [assumption|]. split; [|split].
      * now right.
      * lia.
      * constructor; assumption.
    + destruct (IH m0 H0 Hl) as (m & Hm & Hin & Hle & Hall).
      exists m. split; [assumption|]. split; [|split].
      * destruct Hin as [<-|Hin]; [now left|now right; right].
      * assumption.
      * constructor; [lia|assumption].
Qed.

(** ** [int(str(n))] *)

Lemma uint_chars_digits (d : Decimal.uint) :
  forallb is_digit (list_ascii_of_string (NilEmpty.string_of_uint d)) = true.
Proof. induction d; cbn [NilEmpty.string_of_uint list_ascii_of_string forallb]; auto. Qed.

Lemma uint_chars_acc (d : Decimal.uint) (acc : positive) :
  fold_left (fun acc c => 10 * acc + digit_val c)
    (list_ascii_of_string (NilEmpty.string_of_uint d)) (Z.pos acc)
  = Z.pos (Pos.of_uint_acc d acc).
Proof.
  revert acc.
  induction d as [|d IH|d IH|d IH|d IH|d IH|d IH|d IH|d IH|d IH|d IH];
    intros acc;
    cbn [NilEmpty.string_of_uint list_ascii_of_string fold_left
         Pos.of_uint_acc];
    [reflexivity|..]; rewrite <- IH; f_equal;
    match goal with
    | |- context [digit_val ?c] =>
        let v := eval vm_compute in (digit_val c) in
        change (digit_val c) with v
    end; lia.
Qed.

Lemma uint_chars_value (d : Decimal.uint) :
  digits_value (list_ascii_of_string (NilEmpty.string_of_uint d))
  = Z.of_N (Pos.of_uint d).
Proof.
  unfold digits_value.
  induction d as [|d IH|d IH|d IH|d IH|d IH|d IH|d IH|d IH|d IH|d IH];
    cbn [NilEmpty.string_of_uint list_ascii_of_string fold_left Pos.of_uint];
    [reflexivity|exact IH|..]; cbn [Z.of_N]; rewrite <- uint_chars_acc;
    reflexivity.
Qed.

(** What [int] reads and what it refuses: white space at both ends (the
    two white-space characters above 127 included), a sign, single
    underscores between digits; the separator [\x1f] is no white space
    for it. *)
Example py_int_reads :
  py_int " 7 " = Some 7
  /\ py_int (String (ascii_of_nat 9) (String "1" (String "2" (String (ascii_of_nat 10) "")))) = Some 12
  /\ py_int (String (ascii_of_nat 133) (String "7" (String (ascii_of_nat 160) ""))) = Some 7
  /\ py_int (String "7" (String (ascii_of_nat 11) "")) = Some 7
  /\ py_int (String (ascii_of_nat 31) "7") = None
  /\ py_int (String (ascii_of_nat 28) "7") = None
  /\ py_int "1_0" = Some 10
  /\ py_int "1__0" = None
  /\ py_int "_1" = None
  /\ py_int "+5" = Some 5
  /\ py_int "-3" = Some (-3)
  /\ py_int "- 3" = None
  /\ py_int "0012" = Some 12
  /\ py_int "" = None.
Proof. repeat split; reflexivity. Qed.

Lemma py_int_py_str (z : Z) : 0 <= z -> py_int (py_str z) = Some z.
Proof.
  intros Hz. destruct z as [|p|p]; [reflexivity| |lia].
  unfold py_str. cbn [Z.to_int NilZero.string_of_int].
  assert (Hs : NilZero.string_of_uint (Pos.to_uint p)
               = NilEmpty.string_of_uint (Pos.to_uint p)).
  { pose proof (Unsigned.to_uint_nonnil p) as Hn.
    now destruct (Pos.to_uint p). }
  rewrite Hs, py_int_numeral.
  - now rewrite uint_chars_value, DecimalPos.Unsigned.of_to.
  - pose proof (Unsigned.to_uint_nonnil p) as Hn.
    destruct (Pos.to_uint p); cbn; congruence.
  - apply uint_chars_digits.
Qed.

(** X3.  In a collection that is not empty and whose ids are all
    written with the same number [k >= 1] of decimal digits, [get_max_id]
    returns an id of the collection whose number [n] is the greatest
    there, and [new_rstrt] puts in front of the result set an entry
    whose id reads as [n + 1]: a number above every id of the
    collection. *)
Theorem new_rstrt_ids_of_one_length (c : Controller) (k : nat) :
  (0 < k)%nat ->
  documents (mycol c) <> [] ->
  forallb (fun d => numeral k (restaurant_id d)) (documents (mycol c)) = true ->
  exists n e,
    py_int (get_max_id c) = Some n
    /\ (exists m, In m (documents (mycol c))
                  /\ get_max_id c = restaurant_id m)
    /\ filtered_rstrts (final (new_rstrt c)) = e :: filtered_rstrts c
    /\ e_id e = py_str (n + 1)
    /\ py_int (e_id e) = Some (n + 1)
    /\ Forall (fun d => exists v, py_int (restaurant_id d) = Some v
                                  /\ v < n + 1)
         (documents (mycol c)).
Proof.
  intros Hk Hne Hall.
  assert (Hint : forall d, numeral k (restaurant_id d) = true ->
                 py_int (restaurant_id d) = Some (id_value d)
                 /\ 0 <= id_value d).
  { intros d Hd. unfold numeral in Hd. apply andb_true_iff in Hd as [L D].
    apply Nat.eqb_eq in L. split.
    - apply py_int_numeral; [|assumption].
      intros E. rewrite E in L. cbn in L. lia.
    - apply (digits_value_bounds _ D). }
  destruct (documents (mycol c)) as [|d0 l] eqn:Hdocs; [congruence|].
  cbn [forallb] in Hall. apply andb_true_iff in Hall as [H0 Hl].
  destruct (find_one_max_id_greatest k l d0 H0 Hl)
    as (m & Hm & Hin & Hle & Hfor).
  assert (Hmk : numeral k (restaurant_id m) = true).
  { destruct Hin as [<-|Hin]; [assumption|].
    rewrite forallb_forall in Hl. now apply Hl. }
  assert (Hmax : get_max_id c = restaurant_id m).
  { unfold get_max_id, find_one_max_id. rewrite Hdocs. cbn [fold_left].
    now rewrite Hm. }
  destruct (Hint m Hmk) as [Him Hpos].
  assert (Hnew : exists e,
            filtered_rstrts (final (new_rstrt c)) = e :: filtered_rstrts c
            /\ e_id e = py_str (id_value m + 1)).
  { unfold new_rstrt. rewrite Hmax, Him. cbn [mycol with_filtered].
    destruct (mongo_insert _ (mycol c)); cbn; eexists; split; reflexivity. }
  destruct Hnew as (e & He & Hid).
  exists (id_value m), e.
  split; [now rewrite Hmax|]. split; [now exists m|].
  split; [exact He|]. split; [exact Hid|].
  split; [rewrite Hid; apply py_int_py_str; lia|].
  constructor.
  - exists (id_value d0). split; [now apply Hint|lia].
  - rewrite Forall_forall in *. intros d Hd. exists (id_value d).
    split; [|specialize (Hfor d Hd); lia].
    apply Hint. rewrite forallb_forall in Hl. now apply Hl.
Qed.

Lemma new_rstrt_ids_of_one_length_witness :
  exists n e,
    py_int (get_max_id (init sample_collection)) = Some n
    /\ (exists m, In m (documents (mycol (init sample_collection)))
                  /\ get_max_id (init sample_collection) = restaurant_id m)
    /\ filtered_rstrts (final (new_rstrt (init sample_collection)))
       = e :: filtered_rstrts (init sample_collection)
    /\ e_id e = py_str (n + 1)
    /\ py_int (e_id e) = Some (n + 1)
    /\ Forall (fun d => exists v, py_int (restaurant_id d) = Some v
                                  /\ v < n + 1)
         (documents (mycol (init sample_collection))).
Proof.
  apply (new_rstrt_ids_of_one_length (init sample_collection) 8).
  - lia.
  - discriminate.
  - reflexivity.
Defined.

Example new_rstrt_sample_id :
  map e_id (filtered_rstrts (final (new_rstrt (init sample_collection))))
  = ["30112341"].
Proof. reflexivity. Qed.

(* ================================================================== *)
(** * Properties of the other methods, and of the methods together *)
(* ================================================================== *)

(** ** Deleting the selected record *)

Lemma find_delete_first (rid : string) (l : list restaurant) :
  filter (has_id rid) (delete_first rid l) = tl (filter (has_id rid) l).
Proof.
  induction l as [|d l IH]; [reflexivity|].
  cbn [delete_first filter]. destruct (has_id rid d) eqn:Hd; [reflexivity|].
  cbn [filter]. now rewrite Hd.
Qed.

Lemma others_delete_first (rid : string) (l : list restaurant) :
  filter (fun d => negb (has_id rid d)) (delete_first rid l)
  = filter (fun d => negb (has_id rid d)) l.
Proof.
  induction l as [|d l IH]; [reflexivity|].
  cbn [delete_first filter]. destruct (has_id rid d) eqn:Hd; [reflexivity|].
  cbn [filter negb]. now rewrite Hd, IH.
Qed.

Lemma remove_first_entry_at (l : list entry) (k : nat) (e : entry) :
  NoDup (map e_id l) -> nth_error l k = Some e ->
  remove_first_entry (e_id e) l = firstn k l ++ skipn (S k) l.
Proof.
  revert k. induction l as [|e0 l IH]; intros k Hnd Hk.
  - now destruct k.
  - cbn [map] in Hnd. inversion Hnd as [|? ? Hnotin Hnd']; subst.
    destruct k as [|k]; cbn [nth_error] in Hk.
    + injection Hk as ->. cbn. now rewrite String.eqb_refl.
    + cbn [remove_first_entry firstn skipn app].
      destruct (String.eqb (e_id e0) (e_id e)) eqn:E.
      * apply String.eqb_eq in E. exfalso. apply Hnotin. rewrite E.
        apply in_map. eapply nth_error_In; eauto.
      * now rewrite (IH k Hnd' Hk).
Qed.

Lemma find_by_id_has_id (rid : string) (col : collection) (r : restaurant)
  (rest : list restaurant) :
  find_by_id rid col = r :: rest -> restaurant_id r = rid.
Proof.
  intros H. assert (Hin : In r (find_by_id rid col)) by (rewrite H; now left).
  unfold find_by_id in Hin. apply filter_In in Hin as [_ Hid].
  now apply String.eqb_eq in Hid.
Qed.

(** X5.  In a result set whose ids are all different, selecting a
    position that the result set accepts, whose record is in the store,
    and calling [del_rstrt] returns with that position, and no other,
    gone from the result set; the first stored document with the id is
    gone from the collection and the others are as they were; no record
    is selected, and [cur_index] still holds the position. *)
Theorem select_then_del_rstrt (c : Controller) (i : Z) (k : nat)
  (e : entry) (r : restaurant) (rest : list restaurant) :
  NoDup (map e_id (filtered_rstrts c)) ->
  py_index (List.length (filtered_rstrts c)) i = Some k ->
  nth_error (filtered_rstrts c) k = Some e ->
  find_by_id (e_id e) (mycol c) = r :: rest ->
  exists c',
    and_then (update_cur_rstrt (Some i) c) del_rstrt = Return c'
    /\ filtered_rstrts c'
       = firstn k (filtered_rstrts c) ++ skipn (S k) (filtered_rstrts c)
    /\ find_by_id (e_id e) (mycol c') = rest
    /\ filter (fun d => negb (has_id (e_id e) d)) (documents (mycol c'))
       = filter (fun d => negb (has_id (e_id e) d)) (documents (mycol c))
    /\ cur_rstrt c' = None
    /\ cur_index c' = Some i
    /\ cur_coord c' = cur_coord c.
Proof.
  intros Hnd Hi Hk Hr.
  pose proof (find_by_id_has_id _ _ _ _ Hr) as Hid.
  unfold update_cur_rstrt, py_getitem.
  cbn [filtered_rstrts mycol with_cur_index with_cur_rstrt].
  rewrite Hi, Hk, Hr. cbn [and_then]. unfold del_rstrt.
  cbn [cur_rstrt with_cur_rstrt]. eexists. split; [reflexivity|].
  cbn [filtered_rstrts mycol cur_index cur_rstrt cur_coord with_cur_index
       with_cur_rstrt with_filtered with_mycol].
  rewrite Hid. split; [now apply remove_first_entry_at|].
  unfold find_by_id, delete_one. cbn [documents with_documents].
  rewrite find_delete_first, others_delete_first.
  unfold find_by_id in Hr. rewrite Hr. repeat split.
Qed.

Lemma select_then_del_rstrt_witness :
  exists c',
    and_then (update_cur_rstrt (Some 1) sample_controller) del_rstrt
    = Return c'
    /\ filtered_rstrts c'
       = firstn 1 (filtered_rstrts sample_controller)
         ++ skipn 2 (filtered_rstrts sample_controller)
    /\ find_by_id (e_id (listed sushi_bar sentinel)) (mycol c') = []
    /\ filter (fun d => negb (has_id (e_id (listed sushi_bar sentinel)) d))
         (documents (mycol c'))
       = filter (fun d => negb (has_id (e_id (listed sushi_bar sentinel)) d))
           (documents (mycol sample_controller))
    /\ cur_rstrt c' = None
    /\ cur_index c' = Some 1
    /\ cur_coord c' = cur_coord sample_controller.
Proof.
  apply (select_then_del_rstrt sample_controller 1 1
           (listed sushi_bar sentinel) sushi_bar []); try reflexivity.
  cbn. repeat constructor; cbn; intuition discriminate.
Defined.

(** ** Adding a grade and taking it away again *)

Lemma update_first_compose (rid : string) (u1 u2 : restaurant -> restaurant)
  (l : list restaurant) :
  (forall d, restaurant_id (u1 d) = restaurant_id d) ->
  update_first rid u2 (update_first rid u1 l)
  = update_first rid (fun d => u2 (u1 d)) l.
Proof.
  intros H1. induction l as [|d l IH]; [reflexivity|].
  cbn [update_first]. destruct (has_id rid d) eqn:Hd.
  - cbn [update_first]. unfold has_id in *. now rewrite H1, Hd.
  - cbn [update_first]. now rewrite Hd, IH.
Qed.

Lemma update_first_fixed (rid : string) (u : restaurant -> restaurant)
  (l : list restaurant) (d0 : restaurant) (rest : list restaurant) :
  filter (has_id rid) l = d0 :: rest -> u d0 = d0 ->
  update_first rid u l = l.
Proof.
  intros Hf Hu. induction l as [|d l IH]; [reflexivity|].
  cbn [filter update_first] in *. destruct (has_id rid d).
  - injection Hf as -> _. now rewrite Hu.
  - now rewrite (IH Hf).
Qed.

Lemma remove_last {A : Type} (g : list A) (x : A) :
  firstn (List.length g) (g ++ [x]) ++ skipn (S (List.length g)) (g ++ [x])
  = g.
Proof.
  rewrite firstn_app, Nat.sub_diag, firstn_all. cbn [firstn].
  rewrite skipn_all2 by (rewrite length_app; cbn; lia).
  now rewrite !app_nil_r.
Qed.

Lemma set_grades_same (r : restaurant) : set_grades (grades r) r = r.
Proof. now destruct r. Qed.

(** X6.  With a record selected that is the one the store holds under
    its id, [add_grade] followed by [del_grade] at the position of the
    new grade (the number of grades there were) returns and gives back
    the state before the two calls: the selected record, the collection
    and everything else. *)
Theorem add_grade_then_del_grade (c : Controller) (r : restaurant)
  (tm : Z) (gr : string) (sc : Z) :
  cur_rstrt c = Some r ->
  mirrored c ->
  and_then (add_grade tm gr sc c)
    (del_grade (Z.of_nat (List.length (grades r))))
  = Return c.
Proof.
  intros Hsel Hm. unfold mirrored in Hm. rewrite Hsel in Hm.
  destruct Hm as [rest Hm]. unfold add_grade. rewrite Hsel.
  cbn [and_then]. unfold del_grade.
  cbn [cur_rstrt mycol with_cur_rstrt with_mycol restaurant_id set_grades
       grades].
  set (g := {| grade := gr; score := sc; date := tm |}).
  set (n := List.length (grades r)).
  assert (Hdel : py_delitem (grades r ++ [g]) (Z.of_nat n) = Some (grades r)).
  { unfold py_delitem.
    rewrite py_index_nonneg by (rewrite length_app; cbn; lia).
    rewrite Nat2Z.id. unfold n. now rewrite remove_last. }
  rewrite Hdel.
  assert (Hu : set_grades (unset_pull (Z.of_nat n) (grades r ++ [g]))
                 (set_grades (grades r ++ [g]) r) = r).
  { unfold unset_pull.
    replace ((0 <=? Z.of_nat n)
             && (Z.of_nat n <? Z.of_nat (List.length (grades r ++ [g]))))
      with true.
    - rewrite Nat2Z.id. unfold n. rewrite remove_last. now destruct r.
    - symmetry. apply andb_true_iff. split; [apply Z.leb_le; lia|].
      apply Z.ltb_lt. rewrite length_app. cbn. lia. }
  f_equal. destruct c as [col l i cr cc]. cbn in Hsel, Hm. subst cr.
  unfold with_cur_rstrt, with_mycol.
  cbn [mycol filtered_rstrts cur_index cur_rstrt cur_coord].
  f_equal.
  - unfold update_one. cbn [documents with_documents unique_index].
    rewrite update_first_compose by reflexivity.
    unfold find_by_id in Hm.
    rewrite (update_first_fixed _ _ _ r rest Hm); [now destruct col|].
    exact Hu.
  - f_equal. now destruct r.
Qed.

Lemma add_grade_then_del_grade_witness :
  and_then (add_grade 1500000000000 "A" 7 sample_controller)
    (del_grade (Z.of_nat (List.length (grades pizza_place))))
  = Return sample_controller.
Proof.
  apply (add_grade_then_del_grade sample_controller pizza_place
           1500000000000 "A" 7 eq_refl).
  exists []. reflexivity.
Defined.

(** ** What a search leaves alone *)

Lemma update_rstrts_frame (M : libm) (cond : condition) (c : Controller)
  (o : outcome Controller) :
  update_rstrts M cond c = Some o ->
  mycol (final o) = mycol c /\ cur_index (final o) = cur_index c
  /\ cur_rstrt (final o) = cur_rstrt c /\ cur_coord (final o) = cur_coord c.
Proof.
  intros H. destruct (update_rstrts_cases M cond c o H)
    as [[_ ->]|(_ & found & _ & ->)]; [now repeat split|].
  now destruct (update_rstrts_found_ids M found c) as (_ & H1 & H2 & H3 & H4).
Qed.

(** What the search makes of the documents found depends on the
    reference point only. *)
Lemma update_rstrts_found_same (M : libm) (found : list restaurant)
  (c c2 : Controller) :
  cur_coord c2 = cur_coord c ->
  returned (update_rstrts_found M found c2)
  = returned (update_rstrts_found M found c)
  /\ filtered_rstrts (final (update_rstrts_found M found c2))
     = filtered_rstrts (final (update_rstrts_found M found c))
  /\ (forall x s,
        update_rstrts_found M found c2 = Raise x s ->
        exists t, update_rstrts_found M found c = Raise x t)
  /\ (cur_index c2 = cur_index c -> cur_rstrt c2 = cur_rstrt c ->
      mycol c2 = mycol c ->
      final (update_rstrts_found M found c2)
      = final (update_rstrts_found M found c)).
Proof.
  intros E. unfold update_rstrts_found.
  cbn [filtered_rstrts with_filtered cur_coord]. rewrite E.
  destruct (set_distances M (cur_coord c) (map projection found)) as [l|x l].
  - destruct (sort_by_dist M l) as [l'|]; cbn;
      (split; [reflexivity|]); (split; [reflexivity|]);
      (split; [intros y s [= <- _]; now eexists || discriminate|]);
      intros G1 G2 G3; destruct c2, c; cbn in *; subst; reflexivity.
  - cbn. split; [reflexivity|]. split; [reflexivity|].
    split; [intros y s [= <- _]; now eexists|].
    intros G1 G2 G3; destruct c2, c; cbn in *; subst; reflexivity.
Qed.

Lemma outcome_eq {S : Type} (o1 o2 : outcome S) :
  final o1 = final o2 -> returned o1 = returned o2 ->
  (forall x s, o1 = Raise x s -> exists t, o2 = Raise x t) ->
  o1 = o2.
Proof.
  destruct o1 as [s1|x1 s1], o2 as [s2|x2 s2]; cbn; intros E R H;
    try discriminate; subst; [reflexivity|].
  destruct (H x1 s2 eq_refl) as [t [= -> _]]. reflexivity.
Qed.

(** X7.  A search writes the result set and nothing else: the
    collection, the position, the selected record and the reference
    point are as before, however the search ends.  When the store
    refuses a pattern of the condition, the search raises and the
    result set is as before too.  When the store answers, the result
    set is made anew from the documents found, and what the search
    leaves in it depends on the collection and the reference point
    only: from any state with the same two it ends the same way with
    the same result set.  A search repeated at once ends as the first
    one did and changes nothing. *)
Theorem update_rstrts_replaces (M : libm) (cond : condition)
  (c : Controller) (o : outcome Controller) :
  update_rstrts M cond c = Some o ->
  mycol (final o) = mycol c
  /\ cur_index (final o) = cur_index c
  /\ cur_rstrt (final o) = cur_rstrt c
  /\ cur_coord (final o) = cur_coord c
  /\ (query_refused (query_of cond) = true ->
      o = Raise OperationFailure c)
  /\ (query_refused (query_of cond) = false ->
      (exists found,
         mongo_find (query_of cond) (mycol c) = Some found
         /\ Permutation (map restaurant_id found)
              (map e_id (filtered_rstrts (final o))))
      /\ forall c2,
           mycol c2 = mycol c -> cur_coord c2 = cur_coord c ->
           exists o2,
             update_rstrts M cond c2 = Some o2
             /\ returned o2 = returned o
             /\ filtered_rstrts (final o2) = filtered_rstrts (final o))
  /\ update_rstrts M cond (final o) = Some o.
Proof.
  intros H. destruct (update_rstrts_frame M cond c o H) as (F1 & F2 & F3 & F4).
  do 4 (split; [assumption|]).
  destruct (update_rstrts_cases M cond c o H)
    as [[R ->]|(R & found & Hf & ->)]; rewrite R.
  - split; [reflexivity|]. split; [discriminate|]. exact H.
  - split; [discriminate|]. split.
    + intros _. split.
      * exists found. split; [exact Hf|].
        now destruct (update_rstrts_found_ids M found c) as [Hp _].
      * intros c2 E1 E2. exists (update_rstrts_found M found c2).
        rewrite <- E1 in Hf.
        split; [exact (update_rstrts_answer M cond c2 found Hf)|].
        destruct (update_rstrts_found_same M found c c2 E2)
          as (S1 & S2 & _).
        now split.
    + set (o := update_rstrts_found M found c) in *.
      rewrite <- F1 in Hf.
      rewrite (update_rstrts_answer M cond (final o) found Hf). f_equal.
      destruct (update_rstrts_found_same M found c (final o) F4)
        as (S1 & S2 & S3 & S4).
      specialize (S4 F2 F3 F1). fold o in S1, S2, S3, S4.
      apply outcome_eq; [now rewrite S4|assumption|exact S3].
Qed.

Lemma update_rstrts_replaces_witness :
  let o := Return five_listed in
  mycol (final o) = mycol five_controller
  /\ cur_index (final o) = cur_index five_controller
  /\ cur_rstrt (final o) = cur_rstrt five_controller
  /\ cur_coord (final o) = cur_coord five_controller
  /\ (query_refused (query_of no_condition) = true ->
      o = Raise OperationFailure five_controller)
  /\ (query_refused (query_of no_condition) = false ->
      (exists found,
         mongo_find (query_of no_condition) (mycol five_controller)
         = Some found
         /\ Permutation (map restaurant_id found)
              (map e_id (filtered_rstrts (final o))))
      /\ forall c2,
           mycol c2 = mycol five_controller ->
           cur_coord c2 = cur_coord five_controller ->
           exists o2,
             update_rstrts libm_small_angle no_condition c2 = Some o2
             /\ returned o2 = returned o
             /\ filtered_rstrts (final o2) = filtered_rstrts (final o))
  /\ update_rstrts libm_small_angle no_condition (final o) = Some o.
Proof.
  apply (update_rstrts_replaces libm_small_angle no_condition
           five_controller (Return five_listed)).
  vm_compute. reflexivity.
Defined.

(** A text with a parenthesis left open: the store refuses the pattern,
    the search raises and the result set is the one of the search
    before. *)
Example update_rstrts_refused :
  pattern_refused (q_name (query_of (name_is "("))) = true
  /\ update_rstrts libm_small_angle (name_is "(") five_listed
     = Some (Raise OperationFailure five_listed)
  /\ update_rstrts libm_small_angle (name_is "a)(b") five_listed
     = Some (Return (with_filtered [] five_listed))
  /\ update_rstrts libm_small_angle (name_is "a)") five_listed
     = Some (Raise OperationFailure five_listed).
Proof. repeat split; vm_compute; reflexivity. Qed.

(** ** The selected record and the stored one *)

Lemma set_field_keeps_id (k : info_key) (v : string) (r : restaurant) :
  match k with KRestaurantId => false | _ => true end = true ->
  restaurant_id (set_field k v r) = restaurant_id r.
Proof. destruct k; [reflexivity..|discriminate]. Qed.

Lemma set_fields_keeps_id (docs : list (info_key * string)) (r : restaurant) :
  keeps_id (EditInfo docs) = true ->
  restaurant_id (set_fields docs r) = restaurant_id r.
Proof.
  cbn [keeps_id]. unfold set_fields. revert r.
  induction docs as [|[k v] docs IH]; intros r; [reflexivity|].
  cbn [forallb fold_left fst snd]. intros H.
  apply andb_true_iff in H as [Hk Hd].
  now rewrite (IH _ Hd), (set_field_keeps_id k v r Hk).
Qed.

Lemma id_taken_same_id (rid : string) (u : restaurant -> restaurant)
  (col : collection) :
  (forall d, restaurant_id (u d) = restaurant_id d) ->
  id_taken rid u col = false.
Proof.
  intros Hu. unfold id_taken. destruct (find (has_id rid) (documents col));
    [|reflexivity].
  rewrite Hu, String.eqb_refl. now destruct (unique_index col).
Qed.

(** A state whose collection is that of [c] with [u] applied to the
    document of the selected record, and whose selected record is [u]
    of the one of [c]. *)
Lemma mirrored_after_update (c c' : Controller) (r : restaurant)
  (u : restaurant -> restaurant) :
  cur_rstrt c = Some r -> mirrored c ->
  (forall d, restaurant_id (u d) = restaurant_id d) ->
  mycol c' = update_one (restaurant_id r) u (mycol c) ->
  cur_rstrt c' = Some (u r) ->
  mirrored c'.
Proof.
  intros Hsel Hm Hu Hcol Hcur. unfold mirrored in *.
  rewrite Hsel in Hm. destruct Hm as [rest Hm]. rewrite Hcur, Hcol, Hu.
  exists rest. unfold find_by_id, update_one in *.
  cbn [documents with_documents].
  now rewrite (find_update_first _ _ _ Hu), Hm.
Qed.

Lemma unset_pull_past_end (index : Z) (g : list grade_t) :
  Z.of_nat (List.length g) <= index -> unset_pull index g = g.
Proof.
  intros H. unfold unset_pull.
  destruct (index <? Z.of_nat (List.length g)) eqn:E;
    [apply Z.ltb_lt in E; lia|]. now rewrite andb_false_r.
Qed.

Lemma unset_pull_in_range (index : Z) (g : list grade_t) :
  0 <= index < Z.of_nat (List.length g) ->
  Some (unset_pull index g) = py_delitem g index.
Proof.
  intros H. unfold unset_pull, py_delitem. rewrite (py_index_nonneg _ _ H).
  destruct H as [H0 H1]. apply Z.leb_le in H0. apply Z.ltb_lt in H1.
  now rewrite H0, H1.
Qed.

Lemma edit_keeps_mirror (M : libm) (ed : edit) (c : Controller) :
  mirrored c -> keeps_mirror ed = true -> mirrored (final (run_edit M ed c)).
Proof.
  intros Hm Hk. unfold keeps_mirror in Hk. apply andb_true_iff in Hk as [Hid Hk].
  destruct (cur_rstrt c) as [r|] eqn:Hsel.
  2:{ destruct ed; cbn [run_edit];
      unfold edit_info, edit_address, edit_coord, add_grade, del_grade,
        del_rstrt; rewrite Hsel; exact Hm. }
  destruct ed as [docs|docs|lng lat|tm gr sc|index|]; cbn [run_edit].
  - unfold edit_info. rewrite Hsel.
    rewrite id_taken_same_id
      by (intros d; now apply set_fields_keeps_id).
    apply (mirrored_after_update c _ r (set_fields docs) Hsel Hm);
      [|reflexivity..].
    intros d. now apply set_fields_keeps_id.
  - unfold edit_address. rewrite Hsel.
    apply (mirrored_after_update c _ r
             (set_address
                {| building := f_building docs; coord := coord (r_address r);
                   street := f_street docs; zipcode := f_zipcode docs |})
             Hsel Hm); reflexivity.
  - unfold edit_coord. rewrite Hsel.
    set (u := fun d => set_address (set_coord (Some [lng; lat]) (r_address d)) d).
    destruct (patch_dist _ _ _ _ _ _);
      [| |destruct (sort_by_dist _)];
      apply (mirrored_after_update c _ r u Hsel Hm); reflexivity.
  - unfold add_grade. rewrite Hsel.
    apply (mirrored_after_update c _ r
             (fun d => set_grades
                         (grades d ++ [{| grade := gr; score := sc;
                                          date := tm |}]) d)
             Hsel Hm); reflexivity.
  - apply Z.leb_le in Hk. unfold del_grade. rewrite Hsel.
    set (u := fun d => set_grades (unset_pull index (grades d)) d).
    destruct (Z_lt_le_dec index (Z.of_nat (List.length (grades r))))
      as [Hlt|Hge].
    + rewrite <- (unset_pull_in_range index (grades r)) by lia.
      apply (mirrored_after_update c _ r u Hsel Hm); reflexivity.
    + unfold py_delitem. rewrite py_index_out_of_range by lia.
      apply (mirrored_after_update c _ r u Hsel Hm); try reflexivity.
      cbn. unfold u. rewrite unset_pull_past_end by lia.
      now rewrite set_grades_same.
  - unfold del_rstrt. rewrite Hsel. exact I.
Qed.

Lemma find_by_id_app (rid : string) (col : collection) (d : restaurant) :
  find_by_id rid (with_documents (documents col ++ [d]) col)
  = find_by_id rid col ++ (if has_id rid d then [d] else []).
Proof.
  unfold find_by_id. cbn [documents with_documents].
  rewrite filter_app. cbn [filter]. reflexivity.
Qed.

(** X8.  The selected record is the first document the store holds
    under its id: [update_cur_rstrt] brings this about, however it ends;
    every edit of the selected record that does not write
    [restaurant_id] and, for [del_grade], is given a position counted
    from the front keeps it, however the edit ends; and so do
    [new_rstrt], [del_all] and a search. *)
Theorem selected_record_mirrors_store (M : libm) :
  (forall index c, mirrored (final (update_cur_rstrt index c)))
  /\ (forall ed c, mirrored c -> keeps_mirror ed = true ->
                   mirrored (final (run_edit M ed c)))
  /\ (forall c, mirrored c -> mirrored (final (new_rstrt c)))
  /\ (forall c, mirrored (final (del_all c)))
  /\ (forall cond c o, mirrored c -> update_rstrts M cond c = Some o ->
                       mirrored (final o)).
Proof.
  split; [|split; [|split; [|split]]].
  - intros [i|] c; unfold update_cur_rstrt; [|exact I].
    cbn [filtered_rstrts mycol with_cur_index with_cur_rstrt].
    destruct (py_getitem (filtered_rstrts c) i) as [e|]; [|exact I].
    destruct (find_by_id (e_id e) (mycol c)) as [|r rest] eqn:Hr; [exact I|].
    unfold mirrored. cbn. rewrite (find_by_id_has_id _ _ _ _ Hr).
    now exists rest.
  - intros ed c. apply edit_keeps_mirror.
  - intros c Hm. unfold new_rstrt.
    destruct (py_int (get_max_id c)) as [n|]; [|exact Hm].
    cbn [mycol with_filtered].
    destruct (mongo_insert _ (mycol c)) as [col|] eqn:Hins; [|exact Hm].
    unfold mirrored in *. cbn. destruct (cur_rstrt c) as [r|]; [|exact I].
    destruct Hm as [rest Hm]. unfold mongo_insert in Hins.
    destruct (unique_index (mycol c) && _); [discriminate|].
    injection Hins as <-. rewrite find_by_id_app, Hm. now eexists.
  - intros c. exact I.
  - intros cond c o Hm H.
    destruct (update_rstrts_frame M cond c o H) as (F1 & _ & F3 & _).
    unfold mirrored in *. now rewrite F3, F1.
Qed.

(** X9.  [del_grade] with a position counted from the end (a negative
    index the list accepts) returns with the grade gone from the
    selected record and the stored grades as they were: the path
    [grades.<index>] names no item of the stored array.  A selected
    record that was the stored one has then one grade less than the
    stored one. *)
Theorem del_grade_from_the_end (c : Controller) (r : restaurant) (i : Z) :
  cur_rstrt c = Some r ->
  mirrored c ->
  - Z.of_nat (List.length (grades r)) <= i < 0 ->
  exists c' r' rest,
    del_grade i c = Return c'
    /\ cur_rstrt c' = Some r'
    /\ S (List.length (grades r')) = List.length (grades r)
    /\ find_by_id (restaurant_id r') (mycol c') = r :: rest
    /\ documents (mycol c') = documents (mycol c).
Proof.
  intros Hsel Hm Hi. unfold mirrored in Hm. rewrite Hsel in Hm.
  destruct Hm as [rest Hm]. unfold del_grade, py_delitem. rewrite Hsel.
  assert (Hidx : py_index (List.length (grades r)) i
                 = Some (Z.to_nat (Z.of_nat (List.length (grades r)) + i))).
  { unfold py_index. destruct (0 <=? i) eqn:E; [apply Z.leb_le in E; lia|].
    destruct (- Z.of_nat (List.length (grades r)) <=? i) eqn:E2;
      [reflexivity|apply Z.leb_gt in E2; lia]. }
  rewrite Hidx. eexists _, _, rest. split; [reflexivity|].
  split; [reflexivity|]. cbn [grades set_grades restaurant_id mycol
                              with_cur_rstrt with_mycol].
  split; [apply length_remove; lia|].
  assert (Hu : set_grades (unset_pull i (grades r)) r = r).
  { unfold unset_pull. destruct (0 <=? i) eqn:E; [apply Z.leb_le in E; lia|].
    apply set_grades_same. }
  assert (Hdocs : documents
                    (update_one (restaurant_id r)
                       (fun d => set_grades (unset_pull i (grades d)) d)
                       (mycol c)) = documents (mycol c)).
  { unfold update_one. cbn [documents with_documents].
    unfold find_by_id in Hm. now apply (update_first_fixed _ _ _ r rest Hm). }
  split; [|exact Hdocs]. unfold find_by_id in *. now rewrite Hdocs.
Qed.

Lemma del_grade_from_the_end_witness :
  exists c' r' rest,
    del_grade (-1) sample_controller = Return c'
    /\ cur_rstrt c' = Some r'
    /\ S (List.length (grades r')) = List.length (grades pizza_place)
    /\ find_by_id (restaurant_id r') (mycol c') = pizza_place :: rest
    /\ documents (mycol c') = documents (mycol sample_controller).
Proof.
  apply (del_grade_from_the_end sample_controller pizza_place (-1) eq_refl).
  - exists []. reflexivity.
  - cbn. lia.
Defined.

(** ** The position and the selected record *)

Lemma py_getitem_map {A B : Type} (f : A -> B) (l : list A) (i : Z) :
  py_getitem (map f l) i = option_map f (py_getitem l i).
Proof.
  unfold py_getitem. rewrite length_map.
  destruct (py_index (List.length l) i); [|reflexivity].
  apply nth_error_map.
Qed.

Lemma py_getitem_same_ids (l l' : list entry) (i : Z) (e : entry) :
  map e_id l' = map e_id l -> py_getitem l i = Some e ->
  exists e', py_getitem l' i = Some e' /\ e_id e' = e_id e.
Proof.
  intros Hmap He.
  assert (H : option_map e_id (py_getitem l' i)
              = option_map e_id (py_getitem l i))
    by (now rewrite <- !py_getitem_map, Hmap).
  rewrite He in H. destruct (py_getitem l' i) as [e'|]; [|discriminate].
  injection H as H. now exists e'.
Qed.

Lemma patch_dist_ids (M : libm) (rid : string) (lng lat : option float)
  (ref : float * float) (l l' : list entry) :
  patch_dist M rid lng lat ref l = Patched l' -> map e_id l' = map e_id l.
Proof.
  revert l'. induction l as [|e l IH]; intros l'; cbn [patch_dist];
    [discriminate|].
  destruct (String.eqb (e_id e) rid).
  - destruct (truthy lng && truthy lat);
      [destruct (geodistance _ _ _ _ _); [|discriminate]|];
      intros [= <-]; reflexivity.
  - destruct (patch_dist M rid lng lat ref l); try discriminate.
    intros [= <-]. cbn. now rewrite (IH _ eq_refl).
Qed.

Lemma patch_dist_no_match_inv (M : libm) (rid : string)
  (lng lat : option float) (ref : float * float) (l : list entry) :
  patch_dist M rid lng lat ref l = NoMatch ->
  forall e, In e l -> e_id e <> rid.
Proof.
  induction l as [|e0 l IH]; cbn [patch_dist]; [intros _ e []|].
  destruct (String.eqb (e_id e0) rid) eqn:E.
  - destruct (truthy lng && truthy lat);
      [destruct (geodistance _ _ _ _ _)|]; discriminate.
  - destruct (patch_dist M rid lng lat ref l); try discriminate.
    intros _ e [<-|Hin]; [now apply String.eqb_neq|now apply IH].
Qed.

Lemma py_getitem_In {A : Type} (l : list A) (i : Z) (x : A) :
  py_getitem l i = Some x -> In x l.
Proof.
  unfold py_getitem. destruct (py_index (List.length l) i); [|discriminate].
  apply nth_error_In.
Qed.

Lemma linked_intro (c : Controller) (r : restaurant) (i : Z) (e : entry) :
  cur_rstrt c = Some r -> cur_index c = Some i ->
  py_getitem (filtered_rstrts c) i = Some e -> e_id e = restaurant_id r ->
  linked c.
Proof. intros H1 H2 H3 H4. unfold linked. rewrite H1. now exists i, e. Qed.

Lemma edit_keeps_link (M : libm) (ed : edit) (c : Controller) :
  linked c -> keeps_id ed = true -> linked (final (run_edit M ed c)).
Proof.
  intros Hl Hk.
  destruct (cur_rstrt c) as [r|] eqn:Hsel.
  2:{ destruct ed; cbn [run_edit];
      unfold edit_info, edit_address, edit_coord, add_grade, del_grade,
        del_rstrt; rewrite Hsel; exact Hl. }
  pose proof Hl as Hl'. unfold linked in Hl'. rewrite Hsel in Hl'.
  destruct Hl' as (i & e & Hi & He & Hid).
  destruct ed as [docs|docs|lng lat|tm gr sc|index|]; cbn [run_edit].
  - unfold edit_info. rewrite Hsel.
    rewrite id_taken_same_id
      by (intros d; now apply set_fields_keeps_id).
    apply (linked_intro _ (set_fields docs r) i e); try assumption;
      try reflexivity.
    now rewrite set_fields_keeps_id.
  - unfold edit_address. rewrite Hsel.
    eapply linked_intro with (i := i) (e := e);
      [reflexivity|assumption..].
  - unfold edit_coord. rewrite Hsel.
    cbn [restaurant_id set_address filtered_rstrts cur_coord
         with_cur_rstrt with_mycol].
    destruct (patch_dist M (restaurant_id r) lng lat (cur_coord c)
                (filtered_rstrts c)) as [l'|x|] eqn:Hp.
    + destruct (py_getitem_same_ids _ l' i e (patch_dist_ids _ _ _ _ _ _ _ Hp) He)
        as (e' & He' & Hid').
      eapply linked_intro with (i := i) (e := e');
        [reflexivity|assumption|assumption|].
      cbn. congruence.
    + eapply linked_intro with (i := i) (e := e);
        [reflexivity|assumption..].
    + exfalso.
      apply (patch_dist_no_match_inv _ _ _ _ _ _ Hp e); [|assumption].
      now apply (py_getitem_In _ i).
  - unfold add_grade. rewrite Hsel.
    eapply linked_intro with (i := i) (e := e);
      [reflexivity|assumption..].
  - unfold del_grade. rewrite Hsel.
    destruct (py_delitem (grades r) index);
      (eapply linked_intro with (i := i) (e := e);
       [first [reflexivity|exact Hsel]|assumption..]).
  - unfold del_rstrt. rewrite Hsel. exact I.
Qed.

(** X10.  The entry at [cur_index] has the id of the selected record:
    [update_cur_rstrt] brings this about, however it ends, and every
    edit of the selected record that does not write [restaurant_id]
    keeps it, however the edit ends.  ([edit_coord] then finds the
    entry, so it never reaches its sort.) *)
Theorem position_follows_selection (M : libm) :
  (forall index c, linked (final (update_cur_rstrt index c)))
  /\ (forall ed c, linked c -> keeps_id ed = true ->
                   linked (final (run_edit M ed c))).
Proof.
  split.
  - intros [i|] c; unfold update_cur_rstrt; [|exact I].
    cbn [filtered_rstrts mycol with_cur_index with_cur_rstrt].
    destruct (py_getitem (filtered_rstrts c) i) as [e|] eqn:He; [|exact I].
    destruct (find_by_id (e_id e) (mycol c)) as [|r rest] eqn:Hr; [exact I|].
    apply (linked_intro _ r i e); try reflexivity; try assumption.
    symmetry. now apply (find_by_id_has_id _ _ _ _ Hr).
  - intros ed c. apply edit_keeps_link.
Qed.

Lemma other_ids_before (l : list entry) (k : nat) (e : entry) :
  NoDup (map e_id l) -> nth_error l k = Some e ->
  forallb (other_id (e_id e)) (firstn k l) = true
  /\ l = firstn k l ++ e :: skipn (S k) l.
Proof.
  revert k. induction l as [|e0 l IH]; intros k Hnd Hk.
  - now destruct k.
  - cbn [map] in Hnd. inversion Hnd as [|? ? Hnotin Hnd']; subst.
    destruct k as [|k]; cbn [nth_error] in Hk.
    + injection Hk as ->. now split.
    + destruct (IH k Hnd' Hk) as [Hb Hl].
      change (skipn (S (S k)) (e0 :: l)) with (skipn (S k) l).
      cbn [firstn forallb app].
      split; [|f_equal; exact Hl].
      rewrite Hb, andb_true_r. unfold other_id. apply negb_true_iff.
      apply String.eqb_neq. intros E. apply Hnotin. rewrite E.
      apply in_map. eapply nth_error_In; eauto.
Qed.

(** X11.  In a result set whose ids are all different, with the entry
    at [cur_index] having the id of the selected record, an
    [edit_coord] that returns has given a distance to the entry at
    [cur_index] and has touched no other entry: the distance is what
    [geodistance] returned, or 99999.99. *)
Theorem edit_coord_patches_selected (M : libm) (c c' : Controller)
  (r : restaurant) (i : Z) (k : nat) (e : entry) (lng lat : option float) :
  cur_rstrt c = Some r ->
  py_index (List.length (filtered_rstrts c)) i = Some k ->
  nth_error (filtered_rstrts c) k = Some e ->
  e_id e = restaurant_id r ->
  NoDup (map e_id (filtered_rstrts c)) ->
  edit_coord M lng lat c = Return c' ->
  exists d,
    filtered_rstrts c'
    = firstn k (filtered_rstrts c) ++ set_dist d e
      :: skipn (S k) (filtered_rstrts c)
    /\ py_getitem (filtered_rstrts c') i = Some (set_dist d e)
    /\ (d = sentinel
        \/ geodistance M lng lat (Some (fst (cur_coord c)))
             (Some (snd (cur_coord c))) = inl d).
Proof.
  intros Hsel Hi Hk Hid Hnd. unfold edit_coord. rewrite Hsel.
  cbn [restaurant_id set_address filtered_rstrts cur_coord
       with_cur_rstrt with_mycol].
  destruct (other_ids_before _ k e Hnd Hk) as [Hb Hl].
  rewrite Hl at 1. rewrite Hid in Hb.
  rewrite (patch_dist_first_match M _ lng lat _ _ _ e Hb)
    by (rewrite Hid; apply String.eqb_refl).
  assert (Hget : forall d,
            py_getitem
              (firstn k (filtered_rstrts c) ++ set_dist d e
               :: skipn (S k) (filtered_rstrts c)) i = Some (set_dist d e)).
  { intros d. unfold py_getitem.
    assert (Hlen : List.length
                     (firstn k (filtered_rstrts c) ++ set_dist d e
                      :: skipn (S k) (filtered_rstrts c))
                   = List.length (filtered_rstrts c)).
    { rewrite Hl at 3. rewrite !length_app. reflexivity. }
    rewrite Hlen, Hi.
    assert (Hk' : (k < List.length (filtered_rstrts c))%nat)
      by (apply nth_error_Some; congruence).
    rewrite nth_error_app2 by (rewrite length_firstn; lia).
    rewrite length_firstn, Nat.min_l by lia. now rewrite Nat.sub_diag. }
  destruct (truthy lng && truthy lat).
  - destruct (geodistance M lng lat _ _) as [d|x] eqn:Hg; [|discriminate].
    intros [= <-]. exists d. cbn [filtered_rstrts with_filtered].
    split; [reflexivity|]. split; [apply Hget|now right].
  - intros [= <-]. exists sentinel. cbn [filtered_rstrts with_filtered].
    split; [reflexivity|]. split; [apply Hget|now left].
Qed.

Lemma edit_coord_patches_selected_witness :
  exists d,
    filtered_rstrts
      (final (edit_coord libm_raising None None sample_controller))
    = firstn 0 (filtered_rstrts sample_controller)
      ++ set_dist d (listed pizza_place 17.982)
      :: skipn 1 (filtered_rstrts sample_controller)
    /\ py_getitem
         (filtered_rstrts
            (final (edit_coord libm_raising None None sample_controller))) 0
       = Some (set_dist d (listed pizza_place 17.982))
    /\ (d = sentinel
        \/ geodistance libm_raising None None
             (Some (fst (cur_coord sample_controller)))
             (Some (snd (cur_coord sample_controller))) = inl d).
Proof.
  apply (edit_coord_patches_selected libm_raising sample_controller
           (final (edit_coord libm_raising None None sample_controller))
           pizza_place 0 0 (listed pizza_place 17.982) None None);
    try reflexivity.
  cbn. repeat constructor; cbn; intuition discriminate.
Defined.

(** ** Creating a document and selecting it *)

Lemma find_by_id_absent (rid : string) (col : collection) :
  existsb (has_id rid) (documents col) = false -> find_by_id rid col = [].
Proof.
  unfold find_by_id. induction (documents col) as [|d l IH]; cbn; [easy|].
  destruct (has_id rid d); [discriminate|]. exact IH.
Qed.

Lemma py_getitem_head {A : Type} (x : A) (l : list A) :
  py_getitem (x :: l) 0 = Some x.
Proof.
  unfold py_getitem. rewrite py_index_nonneg by (cbn [List.length]; lia).
  reflexivity.
Qed.

(** X12.  With the unique index on [restaurant_id] in place, when
    [new_rstrt] returns, selecting position 0 of the result set selects
    the document just created: name "untitled", the id [str(n + 1)]
    for the number [n] of the greatest id, no grades, the other fields
    empty.  (Without the index the id can be one an older document has,
    and the selection then takes the older document.) *)
Theorem new_rstrt_then_select (c c1 : Controller) :
  unique_index (mycol c) = true ->
  new_rstrt c = Return c1 ->
  exists n,
    py_int (get_max_id c) = Some n
    /\ update_cur_rstrt (Some 0) c1
       = Return (with_cur_rstrt (Some (untitled (py_str (n + 1))))
                   (with_cur_index (Some 0) c1)).
Proof.
  intros Hu. unfold new_rstrt.
  destruct (py_int (get_max_id c)) as [n|]; [|discriminate].
  intros H. exists n. split; [reflexivity|]. revert H.
  unfold mongo_insert. cbn [mycol with_filtered]. rewrite Hu.
  cbn [andb restaurant_id set_restaurant_id].
  destruct (existsb (has_id (py_str (n + 1))) (documents (mycol c))) eqn:He;
    [discriminate|].
  intros [= <-]. unfold update_cur_rstrt, py_insert0.
  cbn [filtered_rstrts with_filtered with_mycol with_cur_index
       with_cur_rstrt mycol].
  rewrite py_getitem_head.
  cbn [e_id entry_of_document restaurant_id set_restaurant_id].
  rewrite find_by_id_app, (find_by_id_absent _ _ He).
  unfold has_id. cbn [restaurant_id set_restaurant_id].
  rewrite String.eqb_refl. reflexivity.
Qed.

Lemma new_rstrt_then_select_witness :
  exists n,
    py_int (get_max_id (init empty_collection)) = Some n
    /\ update_cur_rstrt (Some 0) (final (new_rstrt (init empty_collection)))
       = Return (with_cur_rstrt (Some (untitled (py_str (n + 1))))
                   (with_cur_index (Some 0)
                      (final (new_rstrt (init empty_collection))))).
Proof.
  apply (new_rstrt_then_select (init empty_collection)
           (final (new_rstrt (init empty_collection))));
    reflexivity.
Defined.

(** ** The import *)

Lemma has_id_In (rid : string) (l : list restaurant) :
  existsb (has_id rid) l = true <-> In rid (map restaurant_id l).
Proof.
  rewrite existsb_exists, in_map_iff. unfold has_id.
  split; intros (d & H1 & H2); exists d.
  - apply String.eqb_eq in H2. now split.
  - split; [assumption|]. now apply String.eqb_eq.
Qed.

Lemma collection_eta (col : collection) :
  with_documents (documents col) col = col.
Proof. now destruct col. Qed.

Lemma insert_many_unordered_cons (d : restaurant) (ds : list restaurant)
  (col : collection) :
  insert_many_unordered (d :: ds) col
  = insert_many_unordered ds
      match mongo_insert d col with
      | Some col' => col'
      | None => col
      end.
Proof. reflexivity. Qed.

Lemma insert_many_unordered_spec (docs : list restaurant) (col : collection) :
  exists added,
    documents (insert_many_unordered docs col) = documents col ++ added
    /\ unique_index (insert_many_unordered docs col) = unique_index col
    /\ incl added docs
    /\ (unique_index col = false -> added = docs)
    /\ (forall d, In d docs ->
          In (restaurant_id d) (ids (insert_many_unordered docs col)))
    /\ (unique_index col = true -> distinct_ids col ->
          distinct_ids (insert_many_unordered docs col)).
Proof.
  revert col. induction docs as [|d ds IH]; intros col.
  - exists []. cbn. rewrite app_nil_r.
    repeat split; try easy.
  - rewrite insert_many_unordered_cons. unfold mongo_insert.
    destruct (unique_index col
              && existsb (has_id (restaurant_id d)) (documents col)) eqn:E.
    + apply andb_true_iff in E. destruct E as [Eu Ed].
      destruct (IH col) as (added & H1 & H2 & H3 & H4 & H5 & H6).
      exists added. repeat split; try assumption.
      * now apply incl_tl.
      * congruence.
      * intros d' [<-|Hin]; [|now apply H5].
        unfold ids. rewrite H1, map_app. apply in_or_app. left.
        now apply has_id_In.
    + set (col' := with_documents (documents col ++ [d]) col).
      destruct (IH col') as (added & H1 & H2 & H3 & H4 & H5 & H6).
      exists (d :: added). repeat split.
      * rewrite H1. subst col'. cbn [documents with_documents].
        now rewrite <- app_assoc.
      * rewrite H2. reflexivity.
      * intros y [<-|Hy]; [now left|right; now apply H3].
      * intros Hu. f_equal. now apply H4.
      * intros d' [<-|Hin]; [|now apply H5].
        unfold ids. rewrite H1. subst col'. cbn [documents with_documents].
        rewrite !map_app. apply in_or_app. left. apply in_or_app. right.
        now left.
      * intros Hu Hnd. apply H6; [exact Hu|].
        unfold distinct_ids. subst col'. cbn [documents with_documents].
        rewrite map_app. cbn [map]. rewrite Hu in E. cbn [andb] in E.
        apply NoDup_app; [exact Hnd|repeat constructor; easy|].
        intros rid Hin [<-|[]].
        apply has_id_In in Hin. congruence.
Qed.

Lemma insert_many_unordered_absorbed (docs : list restaurant)
  (col : collection) :
  unique_index col = true ->
  (forall d, In d docs -> In (restaurant_id d) (ids col)) ->
  insert_many_unordered docs col = col.
Proof.
  intros Hu. induction docs as [|d ds IH]; intros Hin; [reflexivity|].
  rewrite insert_many_unordered_cons. unfold mongo_insert.
  rewrite Hu. cbn [andb].
  assert (E : existsb (has_id (restaurant_id d)) (documents col) = true)
    by (apply has_id_In, Hin; now left).
  rewrite E. apply IH. intros d' Hd'. apply Hin. now right.
Qed.

Section ImportFacts.

Variable json_loads : string -> option json_document.

Lemma read_lines_all (n : nat) (lines : list string) (ds : list restaurant) :
  decodes json_loads lines ds ->
  forall i docs0 s,
  exists s',
    read_lines json_loads n i lines docs0 s = Return (docs0 ++ ds, s')
    /\ controller s' = controller s.
Proof.
  induction 1 as [|line d lines ds Hd _ IH]; intros i docs0 s.
  - exists s. cbn. now rewrite app_nil_r.
  - cbn [read_lines]. rewrite Hd.
    destruct (IH (S i) (docs0 ++ [d]) (with_progress (false, ratio i n) s))
      as (s' & H1 & H2).
    exists s'. rewrite H1, <- app_assoc. now split.
Qed.

Lemma read_lines_returned (n : nat) (lines : list string) :
  forall i docs0 s docs s',
  read_lines json_loads n i lines docs0 s = Return (docs, s') ->
  exists ds, decodes json_loads lines ds /\ docs = docs0 ++ ds.
Proof.
  induction lines as [|line lines IH]; intros i docs0 s docs s'.
  - cbn. intros [= <- <-]. exists []. split; [constructor|].
    now rewrite app_nil_r.
  - cbn [read_lines].
    destruct (decode_line json_loads line) as [d|x] eqn:Hd; [|discriminate].
    intros H. destruct (IH _ _ _ _ _ H) as (ds & H1 & H2).
    exists (d :: ds). split; [now constructor|].
    now rewrite H2, <- app_assoc.
Qed.

Lemma read_lines_bad (n : nat) (good : list string) (ds : list restaurant)
  (bad : string) (rest : list string) (x : exn) :
  decodes json_loads good ds ->
  decode_line json_loads bad = inr x ->
  forall i docs0 s,
  read_lines json_loads n i (good ++ bad :: rest) docs0 s
  = Raise x (docs0 ++ ds,
             with_progress (false, ratio (i + List.length good) n) s).
Proof.
  intros Hg Hb. induction Hg as [|line d good ds Hd _ IH]; intros i docs0 s.
  - cbn [app read_lines List.length]. rewrite Hb, app_nil_r, Nat.add_0_r.
    reflexivity.
  - cbn [app read_lines List.length]. rewrite Hd, IH, <- app_assoc.
    now rewrite Nat.add_succ_r.
Qed.

End ImportFacts.

(** X13.  When every line decodes, [add_rstrts_from_json] returns with
    the progress at [(True, 1)] and nothing of the controller changed
    but the collection.  The collection keeps its documents, in order,
    and gains documents of the file behind them; every id of the file
    is in the collection afterwards; without the unique index every
    document of the file is added; with it, ids that were all
    different stay all different. *)
Theorem import_adds_the_file
  (json_loads : string -> option json_document)
  (lines : list string) (docs : list restaurant) (s : Session) :
  decodes json_loads lines docs ->
  exists s' added,
    add_rstrts_from_json json_loads lines s = Return s'
    /\ progress s' = (true, 1%float)
    /\ controller s'
       = with_mycol (mycol (controller s')) (controller s)
    /\ documents (mycol (controller s'))
       = documents (mycol (controller s)) ++ added
    /\ incl added docs
    /\ (forall d, In d docs ->
          In (restaurant_id d) (ids (mycol (controller s'))))
    /\ (unique_index (mycol (controller s)) = false -> added = docs)
    /\ (unique_index (mycol (controller s)) = true ->
        distinct_ids (mycol (controller s)) ->
        distinct_ids (mycol (controller s'))).
Proof.
  intros Hd. unfold add_rstrts_from_json.
  destruct (read_lines_all json_loads (List.length lines) lines docs Hd
              0%nat [] s) as (s0 & H1 & H2).
  rewrite H1. cbn [app].
  destruct (insert_many_unordered_spec docs (mycol (controller s0)))
    as (added & A1 & A2 & A3 & A4 & A5 & A6).
  eexists. exists added. split; [reflexivity|].
  cbn [progress close_progress with_progress controller with_controller
       mycol with_mycol].
  rewrite <- H2. repeat split; assumption.
Qed.

Lemma import_adds_the_file_witness :
  exists s' added,
    add_rstrts_from_json sample_loads ["pizza"; "sushi"] sample_session
    = Return s'
    /\ progress s' = (true, 1%float)
    /\ controller s'
       = with_mycol (mycol (controller s')) (controller sample_session)
    /\ documents (mycol (controller s'))
       = documents (mycol (controller sample_session)) ++ added
    /\ incl added [pizza_place; sushi_bar]
    /\ (forall d, In d [pizza_place; sushi_bar] ->
          In (restaurant_id d) (ids (mycol (controller s'))))
    /\ (unique_index (mycol (controller sample_session)) = false ->
        added = [pizza_place; sushi_bar])
    /\ (unique_index (mycol (controller sample_session)) = true ->
        distinct_ids (mycol (controller sample_session)) ->
        distinct_ids (mycol (controller s'))).
Proof.
  apply (import_adds_the_file sample_loads ["pizza"; "sushi"]
           [pizza_place; sushi_bar] sample_session).
  repeat constructor.
Defined.

(** X14.  When a line does not decode, [add_rstrts_from_json] raises
    what the line raised and has inserted nothing, not even the lines
    before it: the controller is as it was, and the progress stays at
    [(False, i/len(lines))] for the position [i] of that line, so it
    never reports the import as done. *)
Theorem import_stops_at_a_bad_line
  (json_loads : string -> option json_document)
  (good : list string) (docs : list restaurant) (bad : string)
  (rest : list string) (x : exn) (s : Session) :
  decodes json_loads good docs ->
  decode_line json_loads bad = inr x ->
  add_rstrts_from_json json_loads (good ++ bad :: rest) s
  = Raise x
      (with_progress
         (false,
          ratio (List.length good) (List.length (good ++ bad :: rest))) s).
Proof.
  intros Hg Hb. unfold add_rstrts_from_json.
  rewrite (read_lines_bad json_loads _ good docs bad rest x Hg Hb).
  reflexivity.
Qed.

Lemma import_stops_at_a_bad_line_witness :
  add_rstrts_from_json sample_loads (["pizza"] ++ "ramen" :: ["sushi"])
    sample_session
  = Raise ValueError
      (with_progress
         (false,
          ratio (List.length ["pizza"])
            (List.length (["pizza"] ++ "ramen" :: ["sushi"])))
         sample_session).
Proof.
  apply (import_stops_at_a_bad_line sample_loads ["pizza"] [pizza_place]
           "ramen" ["sushi"] ValueError sample_session).
  - repeat constructor.
  - reflexivity.
Defined.

(** X15.  With the unique index on [restaurant_id] in place, importing
    a file a second time changes nothing: every insert of the second
    run is refused, and the state after it is the state before it. *)
Theorem import_twice
  (json_loads : string -> option json_document)
  (lines : list string) (s s1 : Session) :
  unique_index (mycol (controller s)) = true ->
  add_rstrts_from_json json_loads lines s = Return s1 ->
  add_rstrts_from_json json_loads lines s1 = Return s1.
Proof.
  intros Hu. unfold add_rstrts_from_json.
  destruct (read_lines json_loads (List.length lines) 0 lines [] s)
    as [[docs s0]|x [docs s0]] eqn:Hr; [|discriminate].
  destruct (read_lines_returned json_loads _ _ _ _ _ _ _ Hr)
    as (ds & Hd & ->).
  destruct (read_lines_all json_loads (List.length lines) lines ds Hd
              0%nat [] s) as (s0' & H1 & H2).
  rewrite Hr in H1. injection H1 as <-.
  intros [= <-].
  destruct (read_lines_all json_loads (List.length lines) lines ds Hd 0%nat []
              (close_progress
                 (with_controller
                    (with_mycol
                       (insert_many_unordered ([] ++ ds)
                          (mycol (controller s0)))
                       (controller s0)) s0)))
    as (s2 & H3 & H4).
  cbn [app] in *. rewrite H3, H4.
  cbn [controller close_progress with_progress with_controller mycol
       with_mycol].
  destruct (insert_many_unordered_spec ds (mycol (controller s0)))
    as (added & A1 & A2 & A3 & A4 & A5 & A6).
  rewrite insert_many_unordered_absorbed;
    [reflexivity|rewrite A2, H2; exact Hu|exact A5].
Qed.

Lemma import_twice_witness :
  add_rstrts_from_json sample_loads ["pizza"; "sushi"]
    (final (add_rstrts_from_json sample_loads ["pizza"; "sushi"]
              sample_session))
  = Return (final (add_rstrts_from_json sample_loads ["pizza"; "sushi"]
                     sample_session)).
Proof.
  apply (import_twice sample_loads ["pizza"; "sushi"] sample_session);
    reflexivity.
Defined.

(** ** A search that raises *)

Lemma set_distances_bad (M : libm) (ref : float * float)
  (before : list restaurant) (ds : list float) (bad : restaurant)
  (after : list restaurant) (x : exn) :
  Forall2 (fun d dist => dist_of_coord M (coord (r_address d)) ref = inl dist)
    before ds ->
  dist_of_coord M (coord (r_address bad)) ref = inr x ->
  set_distances M ref (map projection (before ++ bad :: after))
  = Raise x
      (map (fun p => measured (fst p) (snd p)) (combine before ds)
       ++ del_address (projection bad) :: map projection after).
Proof.
  intros Hb Hx. induction Hb as [|d dist before ds Hd _ IH].
  - cbn [app map set_distances combine e_address projection]. now rewrite Hx.
  - cbn [app map set_distances combine e_address projection fst snd].
    rewrite Hd. cbn [map] in IH. rewrite IH. reflexivity.
Qed.

(** X16.  When the loop of [update_rstrts] raises at a found document
    (its [coord] has one item, or the distance cannot be computed), the
    method raises that exception and leaves the result set half done
    and unsorted, in the order the store returned the documents: the
    entries before have lost [address] and carry their distance, the
    entry of that document has lost [address] and has no distance, the
    entries behind still have [address] and no distance. *)
Theorem update_rstrts_stops_at_a_bad_coord (M : libm) (cond : condition)
  (c : Controller) (before : list restaurant) (ds : list float)
  (bad : restaurant) (after : list restaurant) (x : exn) :
  mongo_find (query_of cond) (mycol c) = Some (before ++ bad :: after) ->
  Forall2
    (fun d dist =>
       dist_of_coord M (coord (r_address d)) (cur_coord c) = inl dist)
    before ds ->
  dist_of_coord M (coord (r_address bad)) (cur_coord c) = inr x ->
  update_rstrts M cond c
  = Some
      (Raise x
         (with_filtered
            (map (fun p => measured (fst p) (snd p)) (combine before ds)
             ++ del_address (projection bad) :: map projection after)
            c)).
Proof.
  intros Hf Hb Hx. rewrite (update_rstrts_answer M cond c _ Hf).
  unfold update_rstrts_found.
  cbn [cur_coord filtered_rstrts with_filtered].
  rewrite (set_distances_bad M _ before ds bad after x Hb Hx).
  reflexivity.
Qed.

Lemma update_rstrts_stops_at_a_bad_coord_witness :
  update_rstrts libm_small_angle no_condition (init with_half_placed)
  = Some
      (Raise IndexError
         (with_filtered
            (map (fun p => measured (fst p) (snd p))
               (combine [sushi_bar] [sentinel])
             ++ del_address (projection half_placed)
             :: map projection [pizza_place])
            (init with_half_placed))).
Proof.
  apply (update_rstrts_stops_at_a_bad_coord libm_small_angle no_condition
           (init with_half_placed)
           [sushi_bar] [sentinel] half_placed [pizza_place] IndexError).
  - reflexivity.
  - repeat constructor.
  - reflexivity.
Defined.

(** ** Ids of records created in a row *)

Lemma to_uint_leading (p : positive) :
  match Pos.to_uint p with
  | Decimal.Nil | Decimal.D0 _ => False
  | _ => True
  end.
Proof.
  pose proof (DecimalPos.Unsigned.to_of (Pos.to_uint p)) as H.
  rewrite DecimalPos.Unsigned.of_to in H. cbn [N.to_uint] in H.
  pose proof (Unsigned.to_uint_nonnil p) as Hn.
  pose proof (Unsigned.to_uint_nonzero p) as Hz.
  destruct (Pos.to_uint p) as [|u|u|u|u|u|u|u|u|u|u]; try exact I;
    [congruence|].
  unfold Decimal.unorm in H. rewrite DecimalFacts.nzhead_D0 in H.
  destruct (Decimal.nzhead u) eqn:E; try discriminate.
  - apply Hz. exact H.
  - apply (DecimalFacts.nzhead_nonzero u u). congruence.
Qed.

Lemma leading_value (d : Decimal.uint) :
  match d with
  | Decimal.Nil | Decimal.D0 _ => False
  | _ => True
  end ->
  10 ^ (Z.of_nat
          (List.length (list_ascii_of_string (NilEmpty.string_of_uint d))) - 1)
  <= digits_value (list_ascii_of_string (NilEmpty.string_of_uint d)).
Proof.
  destruct d as [|u|u|u|u|u|u|u|u|u|u]; try easy; intros _;
    cbn [NilEmpty.string_of_uint list_ascii_of_string List.length];
    rewrite digits_value_cons, Nat2Z.inj_succ;
    replace (Z.succ (Z.of_nat
               (List.length
                  (list_ascii_of_string (NilEmpty.string_of_uint u)))) - 1)
      with (Z.of_nat
              (List.length
                 (list_ascii_of_string (NilEmpty.string_of_uint u))))
      by lia;
    pose proof (digits_value_bounds _ (uint_chars_digits u)) as B;
    match goal with
    | |- _ <= digit_val ?c * _ + _ =>
        let v := eval vm_compute in (digit_val c) in
        change (digit_val c) with v
    end;
    nia.
Qed.

Lemma py_str_numeral (k : nat) (z : Z) :
  (0 < k)%nat -> 10 ^ (Z.of_nat k - 1) <= z < 10 ^ Z.of_nat k ->
  numeral k (py_str z) = true
  /\ digits_value (list_ascii_of_string (py_str z)) = z.
Proof.
  intros Hk [Hlo Hhi].
  assert (Hpos : 0 < z).
  { assert (0 < 10 ^ (Z.of_nat k - 1)) by (apply Z.pow_pos_nonneg; lia). lia. }
  destruct z as [|p|p]; try lia.
  unfold py_str. cbn [Z.to_int NilZero.string_of_int].
  assert (Hs : NilZero.string_of_uint (Pos.to_uint p)
               = NilEmpty.string_of_uint (Pos.to_uint p)).
  { pose proof (Unsigned.to_uint_nonnil p) as Hn.
    now destruct (Pos.to_uint p). }
  rewrite Hs.
  set (l := list_ascii_of_string (NilEmpty.string_of_uint (Pos.to_uint p))).
  assert (Hv : digits_value l = Z.pos p).
  { subst l. now rewrite uint_chars_value, DecimalPos.Unsigned.of_to. }
  split; [|exact Hv].
  pose proof (uint_chars_digits (Pos.to_uint p)) as Hd. fold l in Hd.
  pose proof (digits_value_bounds l Hd) as [_ Hub].
  pose proof (leading_value (Pos.to_uint p) (to_uint_leading p)) as Hlb.
  fold l in Hlb. rewrite Hv in Hub, Hlb.
  unfold numeral. rewrite <- length_list_ascii. fold l. rewrite Hd, andb_true_r.
  apply Nat.eqb_eq.
  assert (H1 : Z.of_nat k - 1 < Z.of_nat (List.length l)).
  { apply (Z.pow_lt_mono_r_iff 10); lia. }
  assert (H2 : Z.of_nat (List.length l) - 1 < Z.of_nat k).
  { destruct (List.length l) eqn:E; [lia|].
    apply (Z.pow_lt_mono_r_iff 10); lia. }
  lia.
Qed.

Lemma find_one_max_id_snoc (col : collection) (d : restaurant) :
  find_one_max_id (with_documents (documents col ++ [d]) col)
  = match find_one_max_id col with
    | None => Some d
    | Some m =>
        if String.ltb (restaurant_id m) (restaurant_id d) then Some d
        else Some m
    end.
Proof.
  unfold find_one_max_id. cbn [documents with_documents].
  rewrite fold_left_app. cbn [fold_left].
  now destruct (fold_left _ (documents col) None).
Qed.

Lemma py_str_ltb_succ (a : Z) :
  100000000 <= a < 999999999 ->
  String.ltb (py_str a) (py_str (a + 1)) = true.
Proof.
  intros Ha.
  destruct (py_str_numeral 9 a) as [N1 V1]; [lia|cbn; lia|].
  destruct (py_str_numeral 9 (a + 1)) as [N2 V2]; [lia|cbn; lia|].
  unfold numeral in N1, N2.
  apply andb_true_iff in N1 as [L1 D1]. apply andb_true_iff in N2 as [L2 D2].
  apply Nat.eqb_eq in L1, L2.
  unfold String.ltb. rewrite compare_numerals by congruence.
  rewrite V1, V2.
  now replace (a ?= a + 1) with Lt by (symmetry; apply Z.compare_lt_iff; lia).
Qed.

Lemma ids_after_succ (n : Z) (k : nat) :
  ids_after n (S k) = ids_after n k ++ [py_str (n + Z.of_nat k + 1)].
Proof.
  unfold ids_after. rewrite seq_S, map_app. cbn [map Nat.add]. do 3 f_equal.
  lia.
Qed.

Lemma ids_after_below (n : Z) (k : nat) (z : Z) :
  0 <= n -> n + Z.of_nat k < z -> ~ In (py_str z) (ids_after n k).
Proof.
  intros Hn Hz Hin. unfold ids_after in Hin. apply in_map_iff in Hin.
  destruct Hin as (j & Hj & Hin). apply in_seq in Hin.
  assert (E : py_int (py_str (n + Z.of_nat j)) = py_int (py_str z))
    by now rewrite Hj.
  rewrite !py_int_py_str in E by lia. injection E as E. lia.
Qed.

Lemma new_rstrts_invariant (c : Controller) (k : nat) :
  documents (mycol c) = [] -> Z.of_nat k < 900000000 ->
  exists c',
    new_rstrts k c = Return c'
    /\ ids (mycol c') = ids_after 100000000 k
    /\ map e_id (filtered_rstrts c')
       = rev (ids_after 100000000 k) ++ map e_id (filtered_rstrts c)
    /\ get_max_id c' = py_str (100000000 + Z.of_nat k).
Proof.
  intros He. induction k as [|k IH]; intros Hk.
  - exists c. unfold ids, get_max_id, find_one_max_id. rewrite He.
    repeat split; reflexivity.
  - destruct IH as (c' & Hrun & Hids & Hres & Hmax); [lia|].
    cbn [new_rstrts]. rewrite Hrun. cbn [and_then].
    unfold new_rstrt. rewrite Hmax, py_int_py_str by lia.
    set (new_id := py_str (100000000 + Z.of_nat k + 1)).
    set (new_r := set_restaurant_id new_id (set_name "untitled" EMPTY_RSTRT)).
    unfold mongo_insert. cbn [mycol with_filtered restaurant_id].
    assert (Hfresh : existsb (has_id (restaurant_id new_r))
                       (documents (mycol c')) = false).
    { destruct (existsb _ _) eqn:E; [|reflexivity]. exfalso.
      apply has_id_In in E. fold (ids (mycol c')) in E. rewrite Hids in E.
      revert E. apply ids_after_below; lia. }
    rewrite Hfresh, andb_false_r.
    eexists. split; [reflexivity|].
    cbn [mycol with_mycol filtered_rstrts with_filtered].
    unfold py_insert0. split; [|split].
    + unfold ids. cbn [documents with_documents]. rewrite map_app.
      fold (ids (mycol c')). rewrite Hids, ids_after_succ. reflexivity.
    + cbn [map]. rewrite Hres, ids_after_succ, rev_app_distr. reflexivity.
    + unfold get_max_id. cbn [mycol with_mycol].
      rewrite find_one_max_id_snoc.
      unfold get_max_id in Hmax.
      destruct (find_one_max_id (mycol c')) as [m|].
      * rewrite Hmax.
        change (restaurant_id new_r) with new_id. subst new_id.
        rewrite py_str_ltb_succ by lia.
        cbn [restaurant_id new_r set_restaurant_id]. f_equal. lia.
      * change (restaurant_id new_r) with (py_str (100000000 + Z.of_nat k + 1)).
        f_equal. lia.
Qed.

(** X17.  In a collection without documents, [new_rstrt] called [k]
    times in a row, for [k] below 900000000, returns every time; the
    collection then holds [k] documents whose ids are "100000001",
    "100000002", ... in this order, all different, and the result set
    has their entries in front, the newest first. *)
Theorem new_rstrts_number_from_100000001 (c : Controller) (k : nat) :
  documents (mycol c) = [] -> Z.of_nat k < 900000000 ->
  exists c',
    new_rstrts k c = Return c'
    /\ ids (mycol c') = ids_after 100000000 k
    /\ distinct_ids (mycol c')
    /\ map e_id (filtered_rstrts c')
       = rev (ids_after 100000000 k) ++ map e_id (filtered_rstrts c).
Proof.
  intros He Hk.
  destruct (new_rstrts_invariant c k He Hk) as (c' & H1 & H2 & H3 & _).
  exists c'. repeat split; try assumption.
  unfold distinct_ids. fold (ids (mycol c')). rewrite H2. unfold ids_after.
  apply NoDup_map_NoDup_ForallPairs; [|apply seq_NoDup].
  intros i j Hi Hj E. apply in_seq in Hi, Hj.
  apply (f_equal py_int) in E.
  assert (A : 0 <= 100000000 + Z.of_nat i) by lia.
  assert (B : 0 <= 100000000 + Z.of_nat j) by lia.
  pose proof (py_int_py_str _ A) as PA.
  pose proof (py_int_py_str _ B) as PB.
  assert (100000000 + Z.of_nat i = 100000000 + Z.of_nat j) by congruence.
  lia.
Qed.

Lemma new_rstrts_number_from_100000001_witness :
  exists c',
    new_rstrts 3 (init empty_collection) = Return c'
    /\ ids (mycol c') = ids_after 100000000 3
    /\ distinct_ids (mycol c')
    /\ map e_id (filtered_rstrts c')
       = rev (ids_after 100000000 3)
         ++ map e_id (filtered_rstrts (init empty_collection)).
Proof.
  apply (new_rstrts_number_from_100000001 (init empty_collection) 3).
  - reflexivity.
  - lia.
Defined.

(** ** Selecting after a search *)




(** The result set a refused search leaves can hold an entry that names
    no stored document: after the id of the selected record is edited,
    a search on a text with a parenthesis left open raises, and the
    position that was selected can no longer be selected. *)
Example refused_search_then_select :
  let run :=
    and_then (update_cur_rstrt (Some 0) five_listed)
      (edit_info [(KRestaurantId, "39999999")]) in
  returned run = true
  /\ update_rstrts libm_small_angle (name_is "(") (final run)
     = Some (Raise OperationFailure (final run))
  /\ update_cur_rstrt (Some 0) (final run)
     = Raise IndexError (with_cur_rstrt None (final run)).
Proof. repeat split; vm_compute; reflexivity. Qed.

(** ** What an edit leaves alone *)

Lemma update_one_frame (rid : string) (u : restaurant -> restaurant)
  (col : collection) :
  (forall d, restaurant_id (u d) = restaurant_id d) ->
  unique_index (update_one rid u col) = unique_index col
  /\ others rid (update_one rid u col) = others rid col
  /\ tl (find_by_id rid (update_one rid u col)) = tl (find_by_id rid col)
  /\ List.length (documents (update_one rid u col))
     = List.length (documents col).
Proof.
  intros Hu. split; [reflexivity|]. split; [|split].
  - unfold others, update_one. cbn [documents with_documents].
    destruct (update_first_other rid u (documents col))
      as [H|(d & _ & H1 & H2)]; [exact H|].
    unfold has_id in *. rewrite Hu in H2. congruence.
  - unfold find_by_id, update_one. cbn [documents with_documents].
    rewrite (find_update_first _ _ _ Hu).
    now destruct (filter (has_id rid) (documents col)).
  - unfold update_one. cbn [documents with_documents].
    induction (documents col) as [|d l IH]; [reflexivity|].
    cbn [update_first]. destruct (has_id rid d); cbn [List.length]; congruence.
Qed.

(** X19.  With a record selected, a method that edits it and does not
    write [restaurant_id] leaves alone, however it ends: the position,
    the reference point, every document with another id, and the
    documents that share the id but come behind the first.  Only
    [edit_coord] and [del_rstrt] write the result set, and only
    [del_rstrt] changes the number of documents. *)
Theorem edits_touch_one_document (M : libm) (ed : edit) (c : Controller)
  (r : restaurant) :
  cur_rstrt c = Some r -> keeps_id ed = true ->
  let c' := final (run_edit M ed c) in
  let rid := restaurant_id r in
  cur_index c' = cur_index c
  /\ cur_coord c' = cur_coord c
  /\ unique_index (mycol c') = unique_index (mycol c)
  /\ others rid (mycol c') = others rid (mycol c)
  /\ (writes_result_set ed = false ->
      filtered_rstrts c' = filtered_rstrts c)
  /\ match ed with
     | DelRstrt =>
         find_by_id rid (mycol c') = tl (find_by_id rid (mycol c))
     | _ =>
         tl (find_by_id rid (mycol c')) = tl (find_by_id rid (mycol c))
         /\ List.length (documents (mycol c'))
            = List.length (documents (mycol c))
     end.
Proof.
  intros Hsel Hk c' rid. subst c'.
  destruct ed as [docs|docs|lng lat|tm gr sc|index|]; cbn [run_edit].
  - unfold edit_info. rewrite Hsel.
    rewrite id_taken_same_id by (intros d; now apply set_fields_keeps_id).
    cbn [final cur_index cur_coord mycol filtered_rstrts with_cur_rstrt
         with_mycol].
    destruct (update_one_frame rid (set_fields docs) (mycol c))
      as (H1 & H2 & H3 & H4);
      [intros d; now apply set_fields_keeps_id|].
    repeat split; assumption.
  - unfold edit_address. rewrite Hsel.
    cbn [final cur_index cur_coord mycol filtered_rstrts with_cur_rstrt
         with_mycol].
    match goal with
    | |- context [update_one _ ?u (mycol c)] =>
        destruct (update_one_frame rid u (mycol c)) as (H1 & H2 & H3 & H4);
          [reflexivity|]
    end.
    repeat split; assumption.
  - unfold edit_coord. rewrite Hsel.
    cbn [restaurant_id set_address filtered_rstrts cur_coord
         with_cur_rstrt with_mycol].
    match goal with
    | |- context [update_one _ ?u (mycol c)] =>
        destruct (update_one_frame rid u (mycol c)) as (H1 & H2 & H3 & H4);
          [reflexivity|]
    end.
    destruct (patch_dist M (restaurant_id r) lng lat (cur_coord c)
                (filtered_rstrts c)) as [l'|x|];
      [| |destruct (sort_by_dist M (filtered_rstrts c))];
      cbn [final cur_index cur_coord mycol filtered_rstrts with_cur_rstrt
           with_mycol with_filtered writes_result_set];
      repeat split; try assumption; discriminate.
  - unfold add_grade. rewrite Hsel.
    cbn [final cur_index cur_coord mycol filtered_rstrts with_cur_rstrt
         with_mycol].
    match goal with
    | |- context [update_one _ ?u (mycol c)] =>
        destruct (update_one_frame rid u (mycol c)) as (H1 & H2 & H3 & H4);
          [reflexivity|]
    end.
    repeat split; assumption.
  - unfold del_grade. rewrite Hsel.
    match goal with
    | |- context [update_one _ ?u (mycol c)] =>
        destruct (update_one_frame rid u (mycol c)) as (H1 & H2 & H3 & H4);
          [reflexivity|]
    end.
    destruct (py_delitem (grades r) index);
      cbn [final cur_index cur_coord mycol filtered_rstrts with_cur_rstrt
           with_mycol];
      repeat split; assumption.
  - unfold del_rstrt. rewrite Hsel.
    cbn [final cur_index cur_coord mycol filtered_rstrts with_cur_rstrt
         with_mycol with_filtered writes_result_set].
    repeat split; try discriminate.
    + unfold others, delete_one. cbn [documents with_documents].
      apply others_delete_first.
    + unfold find_by_id, delete_one. cbn [documents with_documents].
      apply find_delete_first.
Qed.

Lemma edits_touch_one_document_witness :
  let c' := final (run_edit libm_raising (AddGrade 1500000000000 "A" 7)
                     sample_controller) in
  let rid := restaurant_id pizza_place in
  cur_index c' = cur_index sample_controller
  /\ cur_coord c' = cur_coord sample_controller
  /\ unique_index (mycol c') = unique_index (mycol sample_controller)
  /\ others rid (mycol c') = others rid (mycol sample_controller)
  /\ (writes_result_set (AddGrade 1500000000000 "A" 7) = false ->
      filtered_rstrts c' = filtered_rstrts sample_controller)
  /\ (tl (find_by_id rid (mycol c'))
      = tl (find_by_id rid (mycol sample_controller))
      /\ List.length (documents (mycol c'))
         = List.length (documents (mycol sample_controller))).
Proof.
  apply (edits_touch_one_document libm_raising
           (AddGrade 1500000000000 "A" 7) sample_controller pizza_place);
    reflexivity.
Defined.
